(** * homebridge-bravia-favourites: a shallow embedding of [index.js]

    The development follows the source file from top to bottom:
    - the JavaScript values the plugin computes with (strings as UTF-16 code
      units, the integer-valued numbers it converts to and from strings, the
      parsed JSON replies of the television);
    - [BraviaFavouritesPlatform.loadFavourites];
    - the accessory directory and [BraviaTvController.buildServices];
    - the asynchronous methods of [BraviaTvController], as resumable tasks over
      the controller's fields, with the timers and the shutdown handler.

    What lies outside the source file is taken as follows. A reply of the
    television is given as the status code and the value [JSON.parse] makes of
    the body (or the fact that it is no JSON). Numbers are the integer-valued
    doubles, [NaN] and the infinities: channel numbers and identifiers are
    such, and a digit string of any length is rounded to the nearest double
    as [Number] does. The accessory of the host library is a list of
    services with the operations [buildServices] calls. *)

From Stdlib Require Import ZArith NArith List Bool Lia Decimal DecimalN.
From Stdlib Require QArith Qround.
From stdpp Require Import base option list strings gmap.

Local Open Scope N_scope.
Set Warnings "-register-all".

(* ===================================================================== *)
(** ** JavaScript strings *)
(* ===================================================================== *)

(** A JavaScript string is a sequence of UTF-16 code units. *)
Abbreviation jsstring := (list N).

(** An ASCII literal as a JavaScript string. *)
Definition js (s : string) : jsstring :=
  map (fun a => Ascii.N_of_ascii a) (String.list_ascii_of_string s).

Arguments js : simpl never.

(** [WhiteSpace] and [LineTerminator] code units, the ones
    [String.prototype.trim] removes. *)
Definition is_js_space (c : N) : bool :=
  (9 <=? c) && (c <=? 13)
  || (c =? 32) || (c =? 160) || (c =? 5760)
  || (8192 <=? c) && (c <=? 8202)
  || (c =? 8232) || (c =? 8233) || (c =? 8239) || (c =? 8287)
  || (c =? 12288) || (c =? 65279).

Fixpoint trimStart (s : jsstring) : jsstring :=
  match s with
  | c :: rest => if is_js_space c then trimStart rest else s
  | [] => []
  end.

Definition trimEnd (s : jsstring) : jsstring := rev (trimStart (rev s)).

(** [s.trim()] *)
Definition trim (s : jsstring) : jsstring := trimEnd (trimStart s).

(** [\d] *)
Definition is_digit (c : N) : bool := (48 <=? c) && (c <=? 57).

(** [\w], the word characters that [\b] looks at. *)
Definition is_word (c : N) : bool :=
  is_digit c || (65 <=? c) && (c <=? 90) || (97 <=? c) && (c <=? 122) || (c =? 95).

(** [/^\d+$/.test(s)] *)
Definition all_digits (s : jsstring) : bool :=
  match s with
  | [] => false
  | _ => forallb is_digit s
  end.

(** [s.indexOf(c)] for a one-unit needle; [None] stands for [-1]. *)
Fixpoint indexOf (c : N) (s : jsstring) : option nat :=
  match s with
  | [] => None
  | x :: rest => if x =? c then Some O else S <$> indexOf c rest
  end.

(** [s.startsWith(p)] *)
Fixpoint startsWith (p s : jsstring) : bool :=
  match p, s with
  | [], _ => true
  | a :: p', b :: s' => (a =? b) && startsWith p' s'
  | _ :: _, [] => false
  end.

(** [s.split(/\r?\n/)]: a line ends at LF or at CR LF; a CR that no LF
    follows stays in its line. *)
Fixpoint split_lines (s : jsstring) : list jsstring :=
  match s with
  | [] => [[]]
  | c :: rest =>
      if c =? 10 then [] :: split_lines rest
      else
        match rest with
        | c' :: rest' =>
            if (c =? 13) && (c' =? 10) then [] :: split_lines rest'
            else match split_lines rest with
                 | l :: ls => (c :: l) :: ls
                 | [] => [[c]]
                 end
        | [] => [[c]]
        end
  end.

(* ===================================================================== *)
(** ** JavaScript numbers *)
(* ===================================================================== *)

(** The numbers this program handles are channel numbers and identifiers:
    integer-valued doubles, [NaN] and the infinities. [JFin z] is the double
    whose value is the integer [z]. *)
Inductive JSNum : Type :=
| JNaN
| JInf (negative : bool)
| JFin (z : Z).

(** A run of decimal digits as a decimal numeral, and its value. *)
Fixpoint units_uint (s : jsstring) : Decimal.uint :=
  match s with
  | [] => Decimal.Nil
  | c :: rest =>
      let r := units_uint rest in
      match c with
      | 49 => Decimal.D1 r
      | 50 => Decimal.D2 r
      | 51 => Decimal.D3 r
      | 52 => Decimal.D4 r
      | 53 => Decimal.D5 r
      | 54 => Decimal.D6 r
      | 55 => Decimal.D7 r
      | 56 => Decimal.D8 r
      | 57 => Decimal.D9 r
      | _ => Decimal.D0 r
      end
  end.

Definition digits_value (s : jsstring) : N := N.of_uint (units_uint s).

(** Round a natural number to the nearest double, ties to even
    ([None]: the result is [Infinity]). Numbers below [2^53] are exact. *)
Definition to_double (n : N) : option N :=
  if n <? 2 ^ 53 then Some n
  else
    let e := N.log2 n - 52 in
    let q := N.shiftr n e in
    let r := N.land n (N.ones e) in
    let half := N.shiftl 1 (e - 1) in
    let q' := if (half <? r) || ((r =? half) && N.odd q) then q + 1 else q in
    let v := N.shiftl q' e in
    if 2 ^ 1024 <=? v then None else Some v.

(** The decimal digits of a natural number, as code units. *)
Fixpoint uint_units (d : Decimal.uint) : jsstring :=
  match d with
  | Decimal.Nil => []
  | Decimal.D0 r => 48 :: uint_units r
  | Decimal.D1 r => 49 :: uint_units r
  | Decimal.D2 r => 50 :: uint_units r
  | Decimal.D3 r => 51 :: uint_units r
  | Decimal.D4 r => 52 :: uint_units r
  | Decimal.D5 r => 53 :: uint_units r
  | Decimal.D6 r => 54 :: uint_units r
  | Decimal.D7 r => 55 :: uint_units r
  | Decimal.D8 r => 56 :: uint_units r
  | Decimal.D9 r => 57 :: uint_units r
  end.

Definition decimal (n : N) : jsstring := uint_units (N.to_uint n).

(** [Number::toString] picks the shortest digit string [s * 10^(n-k)] that
    rounds to the double, and the nearest to it among those: [shortest_from]
    tries [k] significant digits, then [k+1], ... *)
Fixpoint shortest_from (fuel : nat) (k : N) (digits : N) (x : N) : N :=
  match fuel with
  | O => x
  | S fuel' =>
      let p := 10 ^ (digits - k) in
      let lo := (x / p) * p in
      let hi := lo + p in
      let okl := if to_double lo is Some v then v =? x else false in
      let okh := if to_double hi is Some v then v =? x else false in
      if okl && okh then (if x - lo <=? hi - x then lo else hi)
      else if okl then lo
      else if okh then hi
      else shortest_from fuel' (k + 1) digits x
  end.

Definition shortest (x : N) : N :=
  shortest_from 17 1 (N.of_nat (length (decimal x))) x.

Fixpoint strip_trailing_zeros_rev (r : jsstring) : jsstring :=
  match r with
  | c :: rest => if c =? 48 then strip_trailing_zeros_rev rest else r
  | [] => []
  end.

(** The text of a non-negative integer-valued double: plain digits below
    [10^21], exponent notation from there on. *)
Definition render (y : N) : jsstring :=
  let s := decimal y in
  let n := length s in
  if (n <=? 21)%nat then s
  else
    let digs := rev (strip_trailing_zeros_rev (rev s)) in
    let e := js "e+" ++ decimal (N.of_nat (n - 1)) in
    match digs with
    | [d] => d :: e
    | d :: more => d :: 46 :: more ++ e
    | [] => s
    end.

(** [String(x)] for a number. An integer below [2^53] is a double, and its
    text is its decimal expansion. *)
Definition num_to_string (x : JSNum) : jsstring :=
  match x with
  | JNaN => js "NaN"
  | JInf false => js "Infinity"
  | JInf true => js "-Infinity"
  | JFin z =>
      if (z <? 0)%Z then 45 :: render (shortest (Z.to_N (- z)))
      else if (z <? 2 ^ 53)%Z then decimal (Z.to_N z)
      else render (shortest (Z.to_N z))
  end.

(** [Number(s)] for a run of decimal digits [s]. *)
Definition number_of_digits (s : jsstring) : JSNum :=
  match to_double (digits_value s) with
  | Some v => JFin (Z.of_N v)
  | None => JInf false
  end.

(** [String(Number(s))] for a run of decimal digits [s]: the normal form
    the program stores channel numbers in. *)
Definition normalize_digits (s : jsstring) : jsstring :=
  num_to_string (number_of_digits s).

(** The value of a numeral in exponent notation, [d.ddde+nn], when it is a
    whole number. *)
Definition exponent_value (t : jsstring) : option N :=
  match indexOf 101 t with
  | Some i =>
      let m := take i t in
      let e := drop (S i) t in
      let e := match e with c :: e' => if c =? 43 then e' else e | [] => e end in
      let '(int, frac) :=
        match indexOf 46 m with
        | Some j => (take j m, drop (S j) m)
        | None => (m, [])
        end in
      if all_digits int && forallb is_digit frac && all_digits e
         && (N.of_nat (length frac) <=? digits_value e)
      then Some (digits_value (int ++ frac)
                 * 10 ^ (digits_value e - N.of_nat (length frac)))
      else None
  | None => None
  end.

(** [Number(s)] for the strings this program converts back: runs of digits
    (with optional sign and surrounding white space), the empty string, the
    infinities and the exponent notation [render] writes. Fractions and
    hexadecimal literals are never produced here and read as [NaN]. *)
Definition string_to_number (s : jsstring) : JSNum :=
  let t := trim s in
  match t with
  | [] => JFin 0
  | c :: t' =>
      if all_digits t then number_of_digits t
      else if (c =? 43) && all_digits t' then number_of_digits t'
      else if (c =? 45) && all_digits t' then
        match number_of_digits t' with
        | JFin z => JFin (- z)
        | _ => JInf true
        end
      else if bool_decide (t = js "Infinity") || bool_decide (t = js "+Infinity")
      then JInf false
      else if bool_decide (t = js "-Infinity") then JInf true
      else match exponent_value t with
           | Some n => match to_double n with
                       | Some v => JFin (Z.of_N v)
                       | None => JInf false
                       end
           | None => JNaN
           end
  end.

(* ===================================================================== *)
(** ** Parsed JSON values *)
(* ===================================================================== *)

(** What [JSON.parse] returns, and [undefined] for a property that is not
    there. An object lists its own properties, each key once. *)
Inductive Value : Type :=
| VUndefined
| VNull
| VBool (b : bool)
| VNum (x : JSNum)
| VStr (s : jsstring)
| VArr (items : list Value)
| VObj (fields : list (jsstring * Value)).

(** ToBoolean *)
Definition truthy (v : Value) : bool :=
  match v with
  | VUndefined | VNull => false
  | VBool b => b
  | VNum JNaN => false
  | VNum (JFin z) => negb (z =? 0)%Z
  | VNum (JInf _) => true
  | VStr s => negb (bool_decide (s = []))
  | VArr _ | VObj _ => true
  end.

Fixpoint assoc (key : jsstring) (fields : list (jsstring * Value)) : Value :=
  match fields with
  | [] => VUndefined
  | (k, v) :: rest => if bool_decide (k = key) then v else assoc key rest
  end.

(** [v.key] for the property names the program reads ([result], [status],
    [uri], [title], [dispNum]): own properties of objects only; [None] is the
    [TypeError] of reading a property of [null] or [undefined]. *)
Definition get_prop (v : Value) (key : jsstring) : option Value :=
  match v with
  | VUndefined | VNull => None
  | VObj fields => Some (assoc key fields)
  | _ => Some VUndefined
  end.

(** [v[0]] *)
Definition get_index0 (v : Value) : option Value :=
  match v with
  | VUndefined | VNull => None
  | VArr items => Some (match items with x :: _ => x | [] => VUndefined end)
  | VStr s => Some (match s with c :: _ => VStr [c] | [] => VUndefined end)
  | VObj fields => Some (assoc (js "0") fields)
  | _ => Some VUndefined
  end.

(** [String(v)]; an array joins its elements with commas, [null] and
    [undefined] elements as empty strings. *)
Fixpoint to_String (v : Value) : jsstring :=
  match v with
  | VUndefined => js "undefined"
  | VNull => js "null"
  | VBool true => js "true"
  | VBool false => js "false"
  | VNum x => num_to_string x
  | VStr s => s
  | VArr items =>
      (fix join (l : list Value) : jsstring :=
         match l with
         | [] => []
         | x :: rest =>
             let sx := match x with
                       | VUndefined | VNull => []
                       | _ => to_String x
                       end in
             match rest with
             | [] => sx
             | _ :: _ => sx ++ 44 :: join rest
             end
         end) items
  | VObj _ => js "[object Object]"
  end.

(** [Number(v)] *)
Definition to_Number (v : Value) : JSNum :=
  match v with
  | VUndefined => JNaN
  | VNull => JFin 0
  | VBool b => JFin (if b then 1 else 0)
  | VNum x => x
  | VStr s => string_to_number s
  | VArr _ | VObj _ => string_to_number (to_String v)
  end.

(** [Array.isArray(v)] with the elements. *)
Definition as_array (v : Value) : option (list Value) :=
  match v with
  | VArr items => Some items
  | _ => None
  end.

(** The property of a value that is known not to be [null] or [undefined]. *)
Definition prop (v : Value) (key : string) : Value :=
  default VUndefined (get_prop v (js key)).

(* ===================================================================== *)
(** ** The three regular expressions of [refreshChannelMap] *)
(* ===================================================================== *)

(** [\b] after a digit: the end of the string, or a character that is not a
    word character. *)
Definition boundary_after_word (rest : jsstring) : bool :=
  match rest with
  | [] => true
  | c :: _ => negb (is_word c)
  end.

(** [t.match(/^(\d{1,4})\b/)]: the greedy [\d{1,4}] takes up to four digits
    and gives them back one at a time until [\b] holds; the result is the
    capture group. *)
Fixpoint title_match_upto (n : nat) (t : jsstring) : option jsstring :=
  match n with
  | O => None
  | S n' =>
      let run := take n t in
      if (length run =? n)%nat && forallb is_digit run
         && boundary_after_word (drop n t)
      then Some run
      else title_match_upto n' t
  end.

Definition title_match (t : jsstring) : option jsstring := title_match_upto 4 t.

(** A pattern letter under the [i] flag matches itself in either case. *)
Definition eq_ignore_case (p c : N) : bool :=
  (c =? p)
  || ((97 <=? p) && (p <=? 122) && (c =? p - 32))
  || ((65 <=? p) && (p <=? 90) && (c =? p + 32)).

(** The rest of [s] after the pattern word [p], if [s] starts with it. *)
Fixpoint after_ignore_case (p s : jsstring) : option jsstring :=
  match p, s with
  | [], _ => Some s
  | a :: p', c :: s' => if eq_ignore_case a c then after_ignore_case p' s' else None
  | _ :: _, [] => None
  end.

Fixpoint leading_digits (s : jsstring) : jsstring :=
  match s with
  | c :: rest => if is_digit c then c :: leading_digits rest else []
  | [] => []
  end.

(** One alternative of [(?:dispNum|channel|ch)=(\d+)] at the start of [s]. *)
Definition keyword_digits (kw : string) (s : jsstring) : option jsstring :=
  match after_ignore_case (js kw ++ [61]) s with
  | Some rest =>
      match leading_digits rest with
      | [] => None
      | ds => Some ds
      end
  | None => None
  end.

Definition uri_match_here (s : jsstring) : option jsstring :=
  match keyword_digits "dispNum" s with
  | Some ds => Some ds
  | None =>
      match keyword_digits "channel" s with
      | Some ds => Some ds
      | None => keyword_digits "ch" s
      end
  end.

(** [u.match(/(?:dispNum|channel|ch)=(\d+)/i)]: the leftmost match, the
    capture group. *)
Fixpoint uri_match (u : jsstring) : option jsstring :=
  match uri_match_here u with
  | Some ds => Some ds
  | None =>
      match u with
      | [] => None
      | _ :: rest => uri_match rest
      end
  end.

(** [!num] for the local [num], [null] or a string. *)
Definition no_num (num : option jsstring) : bool :=
  match num with
  | None => true
  | Some s => bool_decide (s = [])
  end.

(** The body of the loop of [refreshChannelMap] for one [item] with a [uri]:
    the channel number it is filed under, through the three [if]s. *)
Definition channel_number (item : Value) : option jsstring :=
  let num : option jsstring := None in
  let num :=
    if truthy (prop item "dispNum") && all_digits (to_String (prop item "dispNum"))
    then Some (num_to_string (to_Number (prop item "dispNum")))
    else num in
  let num :=
    if no_num num && truthy (prop item "title")
    then match title_match (trim (to_String (prop item "title"))) with
         | Some tm1 => Some (normalize_digits tm1)
         | None => num
         end
    else num in
  let num :=
    if no_num num
    then match uri_match (to_String (prop item "uri")) with
         | Some um1 => Some (normalize_digits um1)
         | None => num
         end
    else num in
  num.

(** One turn of [for (const item of list)]. *)
Definition add_item (newMap : gmap jsstring Value) (item : Value)
  : gmap jsstring Value :=
  if negb (truthy item) || negb (truthy (prop item "uri")) then newMap
  else
    match channel_number item with
    | Some num => if no_num (Some num) then newMap
                  else <[num := prop item "uri"]> newMap
    | None => newMap
    end.

Definition build_map (list : list Value) : gmap jsstring Value :=
  fold_left add_item list ∅.

(** [(resp && resp.result && resp.result[0]) ? resp.result[0] : []], then
    the test [!Array.isArray(list) || !list.length]: the entries to file, or
    [None] when the method returns without touching the map. *)
Definition content_list (resp : Value) : option (list Value) :=
  let list :=
    if truthy resp && truthy (prop resp "result")
       && truthy (default VUndefined (get_index0 (prop resp "result")))
    then default VUndefined (get_index0 (prop resp "result"))
    else VArr [] in
  match as_array list with
  | Some [] | None => None
  | Some items => Some items
  end.

(* ===================================================================== *)
(** ** [BraviaFavouritesPlatform.loadFavourites] *)
(* ===================================================================== *)

Record Favourite : Type := {
  fav_name : jsstring;
  fav_number : jsstring;
}.

(** The lines the platform and the controller write to the log. *)
Inductive LogLine : Type :=
| FailedToLoadFavourites
| LoadedFavourites (n : nat)
| PowerPollError
| SetPowerCalled (on : bool)
| TuningChannel (channel : jsstring) (identifier : JSNum)
| NoEntriesForSource (source : jsstring)
| ChannelMapLoaded (entries : nat)
| NoChannelUri (ch : jsstring)
| SetPlayContentUri (uri : Value)
| SetPowerError
| SelectIdentifierError.

(** [Number.isFinite(this.config.maxFavourites) ? this.config.maxFavourites : 30];
    the configured value is [None] when it is not a finite number. *)
Definition max_favourites (maxFavourites : option QArith_base.Q) : QArith_base.Q :=
  match maxFavourites with
  | Some q => q
  | None => QArith_base.inject_Z 30
  end.

(** The body of the loop for one [lineRaw]: the favourite it pushes, or
    [None] where the loop says [continue]. *)
Definition parse_line (lineRaw : jsstring) : option Favourite :=
  let line := trim lineRaw in
  if bool_decide (line = []) || startsWith (js "#") line then None
  else
    match indexOf 61 line with
    | None => None
    | Some eq =>
        if (eq <? 1)%nat then None
        else
          let name := trim (take eq line) in
          let number := trim (drop (eq + 1)%nat line) in
          if bool_decide (name = []) then None
          else if negb (all_digits number) then None
          else Some {| fav_name := name; fav_number := normalize_digits number |}
    end.

(** [out.length >= max] *)
Definition reached (max : QArith_base.Q) (out : list Favourite) : bool :=
  QArith_base.Qle_bool max (QArith_base.inject_Z (Z.of_nat (length out))).

(** [for (const lineRaw of lines)] with [out] as it stands. *)
Fixpoint load_lines (max : QArith_base.Q) (lines : list jsstring)
    (out : list Favourite) : list Favourite :=
  match lines with
  | [] => out
  | lineRaw :: rest =>
      match parse_line lineRaw with
      | None => load_lines max rest out
      | Some fav =>
          let out := out ++ [fav] in
          if reached max out then out else load_lines max rest out
      end
  end.

(** [loadFavourites()]: [file] is what [fs.readFileSync] returns, [None]
    when it throws. The result is [out] and what was logged. *)
Definition loadFavourites (maxFavourites : option QArith_base.Q)
    (file : option jsstring) : list Favourite * list LogLine :=
  let max := max_favourites maxFavourites in
  match file with
  | Some raw => (load_lines max (split_lines raw) [], [])
  | None => ([], [FailedToLoadFavourites])
  end.

(* ===================================================================== *)
(** ** The accessory and [BraviaTvController.buildServices] *)
(* ===================================================================== *)

(** The accessory and its services are objects of the host library. Its
    methods are modelled by what [buildServices] relies on: [removeService]
    takes the service off the accessory's list, [getService] and
    [getServiceById] return the first service of a type, or of a type and
    subtype, [addService] appends a new service, [setCharacteristic] stores a
    value, and the linked services of a service are a list without
    repetitions. *)

(** The service types (UUIDs) the plugin tells apart. *)
Inductive ServiceType : Type :=
| AccessoryInformation
| Television
| InputSource
| OtherService (uuid : jsstring).

#[global] Instance ServiceType_eq_dec : EqDecision ServiceType.
Proof. solve_decision. Defined.

Inductive Characteristic : Type :=
| Active
| ActiveIdentifier
| ConfiguredName
| Name
| SleepDiscoveryMode
| Identifier
| IsConfigured
| CurrentVisibilityState
| InputSourceType.

#[global] Instance Characteristic_eq_dec : EqDecision Characteristic.
Proof. solve_decision. Defined.

(** The host's constants. *)
Definition ALWAYS_DISCOVERABLE : Value := VNum (JFin 1).
Definition CONFIGURED : Value := VNum (JFin 1).
Definition SHOWN : Value := VNum (JFin 0).
Definition TUNER : Value := VNum (JFin 2).

(** A service of the accessory. The host keeps at most one service per
    pair of type and subtype ([addService] refuses a second one), so the pair
    names the service, also in the list of linked services. *)
Definition ServiceKey : Type := ServiceType * option jsstring.

Record Service : Type := {
  svc_type : ServiceType;
  svc_subtype : option jsstring;
  svc_displayName : jsstring;
  svc_values : list (Characteristic * Value);
  svc_linked : list ServiceKey;
}.

Definition svc_key (s : Service) : ServiceKey := (svc_type s, svc_subtype s).

(** What a build does to the accessory's list of services. *)
Inductive ServiceOp : Type :=
| Removed (k : ServiceKey)
| Added (k : ServiceKey)
| Reused (k : ServiceKey).

Definition is_info (s : Service) : bool :=
  bool_decide (svc_type s = AccessoryInformation).

(** [service.setCharacteristic(c, v)] *)
Fixpoint set_value (c : Characteristic) (v : Value)
    (vs : list (Characteristic * Value)) : list (Characteristic * Value) :=
  match vs with
  | [] => [(c, v)]
  | (c', v') :: rest =>
      if bool_decide (c' = c) then (c, v) :: rest
      else (c', v') :: set_value c v rest
  end.

Definition setCharacteristic (c : Characteristic) (v : Value) (s : Service)
  : Service :=
  {| svc_type := svc_type s; svc_subtype := svc_subtype s;
     svc_displayName := svc_displayName s;
     svc_values := set_value c v (svc_values s);
     svc_linked := svc_linked s |}.

(** [accessory.getService(Type)]: the first service of that type. *)
Definition getService (t : ServiceType) (services : list Service)
  : option Service :=
  List.find (fun s => bool_decide (svc_type s = t)) services.

(** [accessory.getServiceById(Type, subtype)] *)
Definition getServiceById (t : ServiceType) (subtype : jsstring)
    (services : list Service) : option Service :=
  List.find (fun s => bool_decide (svc_key s = (t, Some subtype))) services.

(** [new Type(displayName, subtype)], as [addService] pushes it. The call
    sites below reach [addService] only after the lookup for the same type
    and subtype found nothing, so its refusal of a duplicate cannot occur. *)
Definition new_service (t : ServiceType) (displayName : jsstring)
    (subtype : option jsstring) : Service :=
  {| svc_type := t; svc_subtype := subtype; svc_displayName := displayName;
     svc_values := []; svc_linked := [] |}.

(** Store [s'] back over the service it was read from. *)
Definition put_service (s' : Service) (services : list Service) : list Service :=
  map (fun s => if bool_decide (svc_key s = svc_key s') then s' else s) services.

(** [for (const ls of linked) removeLinkedService(ls)] over the live array:
    each removal shifts the rest down while the iterator moves on, so every
    second element stays. *)
Fixpoint clear_linked (linked : list ServiceKey) : list ServiceKey :=
  match linked with
  | _ :: kept :: rest => kept :: clear_linked rest
  | _ => []
  end.

(** [tvService.addLinkedService(input)] *)
Definition addLinkedService (k : ServiceKey) (s : Service) : Service :=
  {| svc_type := svc_type s; svc_subtype := svc_subtype s;
     svc_displayName := svc_displayName s;
     svc_values := svc_values s;
     svc_linked := if bool_decide (k ∈ svc_linked s) then svc_linked s
                   else svc_linked s ++ [k] |}.

(** The fields [buildServices] leaves on the controller, and what it did. *)
Record Built : Type := {
  b_services : list Service;
  b_tvService : ServiceKey;
  b_inputServices : list ServiceKey;
  b_identifierToChannel : gmap Z jsstring;
  b_ops : list ServiceOp;
}.

(** [!Number.isFinite(identifier) || identifier <= 0 || identifier > 999]
    is false: the identifier a favourite is filed under. *)
Definition input_identifier (fav : Favourite) : option Z :=
  match string_to_number (fav_number fav) with
  | JFin z => if (z <=? 0)%Z || (999 <? z)%Z then None else Some z
  | _ => None
  end.

(** [`fav:${fav.number}`] *)
Definition subtype_of (fav : Favourite) : jsstring := js "fav:" ++ fav_number fav.

(** [getServiceById(Service.InputSource, subtype) ||
     addService(Service.InputSource, fav.name, subtype)]: the service, the
    list of services with it, and whether it was found or added. *)
Definition input_service (services : list Service) (fav : Favourite)
  : Service * list Service * ServiceOp :=
  match getServiceById InputSource (subtype_of fav) services with
  | Some s => (s, services, Reused (svc_key s))
  | None =>
      let s := new_service InputSource (fav_name fav) (Some (subtype_of fav)) in
      (s, services ++ [s], Added (svc_key s))
  end.

(** One turn of [for (const fav of this.favourites)]. *)
Definition add_favourite (b : Built) (fav : Favourite) : Built :=
  match input_identifier fav with
  | None => b
  | Some identifier =>
      let '(input, services, op) := input_service (b_services b) fav in
      let input :=
        setCharacteristic InputSourceType TUNER
          (setCharacteristic CurrentVisibilityState SHOWN
             (setCharacteristic IsConfigured CONFIGURED
                (setCharacteristic Name (VStr (fav_name fav))
                   (setCharacteristic ConfiguredName (VStr (fav_name fav))
                      (setCharacteristic Identifier (VNum (JFin identifier))
                         input))))) in
      let services := put_service input services in
      let services :=
        map (fun s => if bool_decide (svc_key s = b_tvService b)
                      then addLinkedService (svc_key input) s else s)
          services in
      {| b_services := services;
         b_tvService := b_tvService b;
         b_inputServices := b_inputServices b ++ [svc_key input];
         b_identifierToChannel :=
           <[identifier := fav_number fav]> (b_identifierToChannel b);
         b_ops := b_ops b ++ [op] |}
  end.

(** [buildServices()]: [services] is [this.accessory.services] on entry,
    [name] is [this.name]. The [get] and [set] handlers it wires read and call
    the controller's methods below; they are no part of the service list. *)
Definition buildServices (name : jsstring) (favourites : list Favourite)
    (services : list Service) : Built :=
  (* Remove everything except AccessoryInformation *)
  let removed := filter (fun s => negb (is_info s)) services in
  let services := filter (fun s => is_info s) services in
  let ops := map (fun s => Removed (svc_key s)) removed in
  (* Create or reuse Television service *)
  let '(tv, services, ops) :=
    match getService Television services with
    | Some s => (s, services, ops ++ [Reused (svc_key s)])
    | None =>
        let s := new_service Television name None in
        (s, services ++ [s], ops ++ [Added (svc_key s)])
    end in
  let tv :=
    setCharacteristic SleepDiscoveryMode ALWAYS_DISCOVERABLE
      (setCharacteristic Name (VStr name)
         (setCharacteristic ConfiguredName (VStr name) tv)) in
  (* Clear existing linked services *)
  let tv :=
    {| svc_type := svc_type tv; svc_subtype := svc_subtype tv;
       svc_displayName := svc_displayName tv; svc_values := svc_values tv;
       svc_linked := clear_linked (svc_linked tv) |} in
  let services := put_service tv services in
  fold_left add_favourite favourites
    {| b_services := services;
       b_tvService := svc_key tv;
       b_inputServices := [];
       b_identifierToChannel := ∅;
       b_ops := ops |}.

(* ===================================================================== *)
(** ** The controller's fields, requests and replies *)
(* ===================================================================== *)

(** The fields of a [BraviaTvController] that its methods read and write
    after construction. The connection parameters ([ip], [port], [psk]) only
    go into the HTTP request and are left out. *)
Record Controller : Type := {
  debug : bool;
  name : jsstring;
  tvsource : jsstring;
  pollIntervalMs : Z;
  power : bool;
  activeIdentifier : JSNum;
  channelUriByNumber : gmap jsstring Value;
  lastChannelMapMs : Z;
  powerPollTimeout : option nat;
  channelMapTimeout : option nat;
  channelMapInterval : option nat;
  identifierToChannel : gmap Z jsstring;
}.

Definition set_power (b : bool) (c : Controller) : Controller :=
  {| debug := debug c; name := name c; tvsource := tvsource c;
     pollIntervalMs := pollIntervalMs c; power := b;
     activeIdentifier := activeIdentifier c;
     channelUriByNumber := channelUriByNumber c;
     lastChannelMapMs := lastChannelMapMs c;
     powerPollTimeout := powerPollTimeout c;
     channelMapTimeout := channelMapTimeout c;
     channelMapInterval := channelMapInterval c;
     identifierToChannel := identifierToChannel c |}.

Definition set_activeIdentifier (x : JSNum) (c : Controller) : Controller :=
  {| debug := debug c; name := name c; tvsource := tvsource c;
     pollIntervalMs := pollIntervalMs c; power := power c;
     activeIdentifier := x;
     channelUriByNumber := channelUriByNumber c;
     lastChannelMapMs := lastChannelMapMs c;
     powerPollTimeout := powerPollTimeout c;
     channelMapTimeout := channelMapTimeout c;
     channelMapInterval := channelMapInterval c;
     identifierToChannel := identifierToChannel c |}.

Definition set_channelUriByNumber (m : gmap jsstring Value) (c : Controller)
  : Controller :=
  {| debug := debug c; name := name c; tvsource := tvsource c;
     pollIntervalMs := pollIntervalMs c; power := power c;
     activeIdentifier := activeIdentifier c;
     channelUriByNumber := m;
     lastChannelMapMs := lastChannelMapMs c;
     powerPollTimeout := powerPollTimeout c;
     channelMapTimeout := channelMapTimeout c;
     channelMapInterval := channelMapInterval c;
     identifierToChannel := identifierToChannel c |}.

Definition set_lastChannelMapMs (t : Z) (c : Controller) : Controller :=
  {| debug := debug c; name := name c; tvsource := tvsource c;
     pollIntervalMs := pollIntervalMs c; power := power c;
     activeIdentifier := activeIdentifier c;
     channelUriByNumber := channelUriByNumber c;
     lastChannelMapMs := t;
     powerPollTimeout := powerPollTimeout c;
     channelMapTimeout := channelMapTimeout c;
     channelMapInterval := channelMapInterval c;
     identifierToChannel := identifierToChannel c |}.

Definition set_powerPollTimeout (t : option nat) (c : Controller) : Controller :=
  {| debug := debug c; name := name c; tvsource := tvsource c;
     pollIntervalMs := pollIntervalMs c; power := power c;
     activeIdentifier := activeIdentifier c;
     channelUriByNumber := channelUriByNumber c;
     lastChannelMapMs := lastChannelMapMs c;
     powerPollTimeout := t;
     channelMapTimeout := channelMapTimeout c;
     channelMapInterval := channelMapInterval c;
     identifierToChannel := identifierToChannel c |}.

(** The four JSON-RPC calls: endpoint, [id], [method] and [params]. *)
Inductive Request : Type :=
| GetPowerStatus
| SetPowerStatus (status : bool)
| GetContentList (source : jsstring)
| SetPlayContent (uri : Value).

Definition endpoint (r : Request) : string :=
  match r with
  | GetPowerStatus | SetPowerStatus _ => "/sony/system/"
  | GetContentList _ | SetPlayContent _ => "/sony/avContent/"
  end.

Definition rpc_id (r : Request) : Z :=
  match r with
  | GetPowerStatus | SetPowerStatus _ => 2
  | GetContentList _ => 13
  | SetPlayContent _ => 101
  end.

(** What a rejected promise carries. *)
Inductive Error : Type :=
| TransportError
| HttpError (statusCode : Z)
| JsonSyntaxError.

(** The body of an HTTP response, as [JSON.parse] reads it. *)
Inductive Body : Type :=
| NotJson
| Json (v : Value).

(** What the network does with one request: the [error] event of the
    request, or a response with its status code and body. *)
Inductive HttpOutcome : Type :=
| RequestError
| Response (statusCode : Z) (body : Body).

(** What the controller does that others see: log lines, the values it
    pushes to the host ([updateValue]), and the requests it sends. *)
Inductive Output : Type :=
| Log (l : LogLine)
| UpdateValue (c : Characteristic) (v : JSNum)
| Sent (r : Request).

(** The functions the controller hands to [setTimeout] and [setInterval]. *)
Inductive Callback : Type :=
| CbPoll
| CbRefreshChannelMap.

(* ===================================================================== *)
(** ** Asynchronous methods as resumable tasks *)
(* ===================================================================== *)

(** An [async] method is a tree of the effects it performs. Everything up to
    an [await] of an HTTP reply runs without interruption; at [Post] the
    method is suspended and anything else may run before the reply resumes
    the continuation. *)
Inductive Task (A : Type) : Type :=
| Ret (a : A)
| Throw (e : Error)
| Read (k : Controller -> Task A)
| Assign (f : Controller -> Controller) (k : Task A)
| Emit (o : Output) (k : Task A)
| DateNow (k : Z -> Task A)
| SetTimeout (cb : Callback) (ms : Z) (k : nat -> Task A)
| Post (r : Request) (k : HttpOutcome -> Task A).

Arguments Ret {A} a.
Arguments Throw {A} e.
Arguments Read {A} k.
Arguments Assign {A} f k.
Arguments Emit {A} o k.
Arguments DateNow {A} k.
Arguments SetTimeout {A} cb ms k.
Arguments Post {A} r k.

Fixpoint bind {A B : Type} (t : Task A) (f : A -> Task B) : Task B :=
  match t with
  | Ret a => f a
  | Throw e => Throw e
  | Read k => Read (fun c => bind (k c) f)
  | Assign g k => Assign g (bind k f)
  | Emit o k => Emit o (bind k f)
  | DateNow k => DateNow (fun t => bind (k t) f)
  | SetTimeout cb ms k => SetTimeout cb ms (fun id => bind (k id) f)
  | Post r k => Post r (fun o => bind (k o) f)
  end.

(** [try { t } catch (e) { h e }] *)
Fixpoint try_catch {A : Type} (t : Task A) (h : Error -> Task A) : Task A :=
  match t with
  | Ret a => Ret a
  | Throw e => h e
  | Read k => Read (fun c => try_catch (k c) h)
  | Assign g k => Assign g (try_catch k h)
  | Emit o k => Emit o (try_catch k h)
  | DateNow k => DateNow (fun t => try_catch (k t) h)
  | SetTimeout cb ms k => SetTimeout cb ms (fun id => try_catch (k id) h)
  | Post r k => Post r (fun o => try_catch (k o) h)
  end.

(** [try { t } finally { fin }] *)
Definition try_finally {A : Type} (t : Task A) (fin : Task unit) : Task A :=
  bind (try_catch (bind t (fun a => Ret (inr a))) (fun e => Ret (inl e)))
    (fun r => bind fin (fun _ => match r with
                                 | inl e => Throw e
                                 | inr a => Ret a
                                 end)).

#[global] Instance Task_ret : MRet Task := @Ret.
#[global] Instance Task_bind : MBind Task := fun A B f t => bind t f.

Definition assign (f : Controller -> Controller) : Task unit := Assign f (Ret tt).
Definition emit (o : Output) : Task unit := Emit o (Ret tt).
Definition read : Task Controller := Read Ret.
Definition when (b : bool) (t : Task unit) : Task unit := if b then t else Ret tt.

(** [httpPost] and [rpc]: the promise rejects on a request error, on a
    status code of 400 or more, and when the body is not JSON. *)
Definition rpc_result (o : HttpOutcome) : Error + Value :=
  match o with
  | RequestError => inl TransportError
  | Response statusCode body =>
      if negb (statusCode =? 0)%Z && (400 <=? statusCode)%Z
      then inl (HttpError statusCode)
      else match body with
           | Json v => inr v
           | NotJson => inl JsonSyntaxError
           end
  end.

Definition rpc (r : Request) : Task Value :=
  Post r (fun o =>
    match rpc_result o with
    | inl e => Throw e
    | inr v => Ret v
    end).

(** The [try] block of [getPowerStatus]:
    [resp.result && resp.result[0] && resp.result[0].status
       ? resp.result[0].status : 'unknown'],
    with ['unknown'] also when reading a property throws. *)
Definition power_status (resp : Value) : Value :=
  match get_prop resp (js "result") with
  | None => VStr (js "unknown")
  | Some result =>
      if truthy result
      then match get_index0 result with
           | None => VStr (js "unknown")
           | Some r0 =>
               if truthy r0
               then match get_prop r0 (js "status") with
                    | None => VStr (js "unknown")
                    | Some status =>
                        if truthy status then status else VStr (js "unknown")
                    end
               else VStr (js "unknown")
           end
      else VStr (js "unknown")
  end.

Definition getPowerStatus : Task Value :=
  resp ← rpc GetPowerStatus;
  Ret (power_status resp).

(** [status === 'active'] *)
Definition is_active (status : Value) : bool :=
  match status with
  | VStr s => bool_decide (s = js "active")
  | _ => false
  end.

Definition bit (b : bool) : JSNum := JFin (if b then 1 else 0).

(** The function [poll] of [startPollingPower]. *)
Definition poll : Task unit :=
  try_finally
    (try_catch
       (status ← getPowerStatus;
        let isOn := is_active status in
        c ← read;
        if negb (bool_decide (power c = isOn))
        then assign (set_power isOn);;
             emit (UpdateValue Active (bit isOn))
        else Ret tt)
       (fun e => c ← read; when (debug c) (emit (Log PowerPollError))))
    (c ← read;
     SetTimeout CbPoll (pollIntervalMs c) (fun id =>
       assign (set_powerPollTimeout (Some id)))).

(** [setPower(on)], [on] already a boolean. *)
Definition setPower (on : bool) : Task unit :=
  c ← read;
  when (debug c) (emit (Log (SetPowerCalled on)));;
  _ ← rpc (SetPowerStatus on);
  assign (set_power on);;
  c ← read;
  emit (UpdateValue Active (bit (power c))).

(** [refreshChannelMap()] *)
Definition refreshChannelMap : Task unit :=
  DateNow (fun now =>
    c ← read;
    if (now - lastChannelMapMs c <? 60 * 1000)%Z then Ret tt
    else
      assign (set_lastChannelMapMs now);;
      c ← read;
      resp ← rpc (GetContentList (tvsource c));
      match content_list resp with
      | None =>
          c ← read;
          when (debug c) (emit (Log (NoEntriesForSource (tvsource c))))
      | Some list =>
          let newMap := build_map list in
          assign (set_channelUriByNumber newMap);;
          c ← read;
          when (debug c) (emit (Log (ChannelMapLoaded (size newMap))))
      end).

(** [tuneChannel(channelNumber)] *)
Definition tuneChannel (channelNumber : jsstring) : Task unit :=
  let ch := num_to_string (string_to_number channelNumber) in
  try_catch refreshChannelMap (fun _ => Ret tt);;
  c ← read;
  let channelUri := default VUndefined (channelUriByNumber c !! ch) in
  if negb (truthy channelUri)
  then emit (Log (NoChannelUri ch))
  else
    when (debug c) (emit (Log (SetPlayContentUri channelUri)));;
    _ ← rpc (SetPlayContent channelUri);
    Ret tt.

(** [Number(identifier) || 0] for a number. *)
Definition or_zero (x : JSNum) : JSNum :=
  match x with
  | JNaN => JFin 0
  | JFin z => if (z =? 0)%Z then JFin 0 else JFin z
  | JInf s => JInf s
  end.

(** [this.identifierToChannel.get(identifier)] *)
Definition channel_of (c : Controller) (identifier : JSNum) : option jsstring :=
  match identifier with
  | JFin z => identifierToChannel c !! z
  | _ => None
  end.

(** [selectIdentifier(identifier)], called with a number. *)
Definition selectIdentifier (identifier : JSNum) : Task unit :=
  let identifier := or_zero identifier in
  assign (set_activeIdentifier identifier);;
  emit (UpdateValue ActiveIdentifier identifier);;
  c ← read;
  match channel_of c identifier with
  | None => Ret tt
  | Some channel =>
      if bool_decide (channel = []) then Ret tt
      else
        when (debug c) (emit (Log (TuningChannel channel identifier)));;
        tuneChannel channel
  end.

(* ===================================================================== *)
(** ** Running tasks: the clock, the timers, the event loop *)
(* ===================================================================== *)

Record Timer : Type := {
  timer_id : nat;
  timer_repeats : bool;
  timer_callback : Callback;
  timer_ms : Z;
}.

(** The controller with what its methods reach outside it: the value of
    [Date.now()] and the pending timers. *)
Record World : Type := {
  this : Controller;
  now : Z;
  timers : list Timer;
  next_timer : nat;
}.

Definition with_this (c : Controller) (w : World) : World :=
  {| this := c; now := now w; timers := timers w; next_timer := next_timer w |}.

Definition with_now (t : Z) (w : World) : World :=
  {| this := this w; now := t; timers := timers w; next_timer := next_timer w |}.

Definition add_timer (repeats : bool) (cb : Callback) (ms : Z) (w : World) : World :=
  {| this := this w; now := now w;
     timers := timers w ++ [{| timer_id := next_timer w; timer_repeats := repeats;
                               timer_callback := cb; timer_ms := ms |}];
     next_timer := S (next_timer w) |}.

(** [clearTimeout(id)] and [clearInterval(id)] *)
Definition clear_timer (id : nat) (w : World) : World :=
  {| this := this w; now := now w;
     timers := filter (fun t => negb (timer_id t =? id)%nat) (timers w);
     next_timer := next_timer w |}.

(** How far a task got: to its end, or to an [await] of a reply. *)
Inductive Outcome (A : Type) : Type :=
| Finished (r : Error + A)
| Awaiting (r : Request) (k : HttpOutcome -> Task A).

Arguments Finished {A} r.
Arguments Awaiting {A} r k.

(** One uninterrupted run: the world it leaves, what it emitted in order,
    the controller after each of its assignments, and how far it got. *)
Record Run (A : Type) : Type := {
  after : World;
  emitted : list Output;
  history : list Controller;
  outcome : Outcome A;
}.

Arguments after {A} r.
Arguments emitted {A} r.
Arguments history {A} r.
Arguments outcome {A} r.

Fixpoint run {A : Type} (t : Task A) (w : World) : Run A :=
  match t with
  | Ret a =>
      {| after := w; emitted := []; history := []; outcome := Finished (inr a) |}
  | Throw e =>
      {| after := w; emitted := []; history := []; outcome := Finished (inl e) |}
  | Read k => run (k (this w)) w
  | Assign f k =>
      let w' := with_this (f (this w)) w in
      let r := run k w' in
      {| after := after r; emitted := emitted r;
         history := this w' :: history r; outcome := outcome r |}
  | Emit o k =>
      let r := run k w in
      {| after := after r; emitted := o :: emitted r;
         history := history r; outcome := outcome r |}
  | DateNow k => run (k (now w)) w
  | SetTimeout cb ms k => run (k (next_timer w)) (add_timer false cb ms w)
  | Post r k =>
      {| after := w; emitted := [Sent r]; history := []; outcome := Awaiting r k |}
  end.

(** The requests among the outputs. *)
Definition requests (out : list Output) : list Request :=
  omap (fun o => match o with Sent r => Some r | _ => None end) out.

(** The pushes of a characteristic's value among the outputs. *)
Definition updates (c : Characteristic) (out : list Output) : list JSNum :=
  omap (fun o => match o with
                 | UpdateValue c' v => if bool_decide (c' = c) then Some v else None
                 | _ => None
                 end) out.

(** The whole system: the world, the suspended methods with the number of
    the request each waits for, and everything emitted so far. *)
Record System : Type := {
  world : World;
  inflight : list (nat * (HttpOutcome -> Task unit));
  next_request : nat;
  trace : list Output;
}.

(** Start [t] and file it under a fresh request number if it suspends. A
    task that ends, also with an error nobody handles, is gone. *)
Definition spawn (t : Task unit) (s : System) : System :=
  let r := run t (world s) in
  match outcome r with
  | Finished _ =>
      {| world := after r; inflight := inflight s;
         next_request := next_request s; trace := trace s ++ emitted r |}
  | Awaiting _ k =>
      {| world := after r; inflight := inflight s ++ [(next_request s, k)];
         next_request := S (next_request s); trace := trace s ++ emitted r |}
  end.

(** What a timer's function does when the timer fires. *)
Definition callback_task (cb : Callback) : Task unit :=
  match cb with
  | CbPoll => poll
  | CbRefreshChannelMap => try_catch refreshChannelMap (fun _ => Ret tt)
  end.

(** The [set] handlers [buildServices] wires: the method, then [cb(null)]
    whether it succeeded or not, after a log line if it did not. *)
Definition on_set_Active (value : bool) : Task unit :=
  try_catch (setPower value) (fun _ => emit (Log SetPowerError)).

Definition on_set_ActiveIdentifier (identifier : JSNum) : Task unit :=
  try_catch (selectIdentifier identifier) (fun _ => emit (Log SelectIdentifierError)).

(** The [shutdown] handler of the constructor. *)
Definition shutdown (w : World) : World :=
  let w := match powerPollTimeout (this w) with
           | Some id => clear_timer id w
           | None => w
           end in
  let w := match channelMapTimeout (this w) with
           | Some id => clear_timer id w
           | None => w
           end in
  match channelMapInterval (this w) with
  | Some id => clear_timer id w
  | None => w
  end.

(** What can happen next. *)
Inductive Event : Type :=
| Elapse (ms : Z)
| Reply (request : nat) (o : HttpOutcome)
| Fire (timer : nat)
| Shutdown
| SetActive (value : bool)
| SetActiveIdentifier (identifier : JSNum).

Definition with_world (w : World) (s : System) : System :=
  {| world := w; inflight := inflight s; next_request := next_request s;
     trace := trace s |}.

Definition step (s : System) (e : Event) : System :=
  match e with
  | Elapse ms => with_world (with_now (now (world s) + ms)%Z (world s)) s
  | Reply n o =>
      match List.find (fun p => (fst p =? n)%nat) (inflight s) with
      | Some (_, k) =>
          spawn (k o)
            {| world := world s;
               inflight := filter (fun p => negb (fst p =? n)%nat) (inflight s);
               next_request := next_request s; trace := trace s |}
      | None => s
      end
  | Fire id =>
      match List.find (fun t => (timer_id t =? id)%nat) (timers (world s)) with
      | Some t =>
          let w := if timer_repeats t then world s else clear_timer id (world s) in
          spawn (callback_task (timer_callback t)) (with_world w s)
      | None => s
      end
  | Shutdown => with_world (shutdown (world s)) s
  | SetActive value => spawn (on_set_Active value) s
  | SetActiveIdentifier identifier => spawn (on_set_ActiveIdentifier identifier) s
  end.

Definition steps (s : System) (es : list Event) : System := fold_left step es s.

(** The constructor of [BraviaTvController]: the initial fields,
    [buildServices()], [startPollingPower()], and the two channel-map timers.
    [services] is the accessory's list of services on entry, [clock] the time
    of the call. *)
Definition construct (dbg : bool) (nm : jsstring) (source : jsstring)
    (interval : Z) (favourites : list Favourite) (services : list Service)
    (clock : Z) : System :=
  (* this.buildServices() *)
  let built := buildServices nm favourites services in
  let table := b_identifierToChannel built in
  let lines := if dbg then [Log (LoadedFavourites (length (b_inputServices built)))]
               else [] in
  let c := {| debug := dbg; name := nm; tvsource := source;
              pollIntervalMs := interval; power := false;
              activeIdentifier := JFin 0;
              channelUriByNumber := ∅; lastChannelMapMs := 0;
              powerPollTimeout := None; channelMapTimeout := None;
              channelMapInterval := None; identifierToChannel := table |} in
  let s := {| world := {| this := c; now := clock; timers := []; next_timer := 0 |};
              inflight := []; next_request := 0; trace := lines |} in
  (* this.startPollingPower() *)
  let s := spawn (try_catch poll (fun _ => Ret tt)) s in
  (* this.channelMapTimeout = setTimeout(..., 2000) *)
  let w := world s in
  let id := next_timer w in
  let w := add_timer false CbRefreshChannelMap 2000 w in
  let c := this w in
  let w := with_this
    {| debug := debug c; name := name c; tvsource := tvsource c;
       pollIntervalMs := pollIntervalMs c; power := power c;
       activeIdentifier := activeIdentifier c;
       channelUriByNumber := channelUriByNumber c;
       lastChannelMapMs := lastChannelMapMs c;
       powerPollTimeout := powerPollTimeout c;
       channelMapTimeout := Some id;
       channelMapInterval := channelMapInterval c;
       identifierToChannel := identifierToChannel c |} w in
  (* this.channelMapInterval = setInterval(..., 6 * 60 * 60 * 1000) *)
  let id := next_timer w in
  let w := add_timer true CbRefreshChannelMap (6 * 60 * 60 * 1000) w in
  let c := this w in
  let w := with_this
    {| debug := debug c; name := name c; tvsource := tvsource c;
       pollIntervalMs := pollIntervalMs c; power := power c;
       activeIdentifier := activeIdentifier c;
       channelUriByNumber := channelUriByNumber c;
       lastChannelMapMs := lastChannelMapMs c;
       powerPollTimeout := powerPollTimeout c;
       channelMapTimeout := channelMapTimeout c;
       channelMapInterval := Some id;
       identifierToChannel := identifierToChannel c |} w in
  with_world w s.

(* ===================================================================== *)
(** ** Vocabulary of the statements *)
(* ===================================================================== *)

(** One tick of the power poll with the reply [o] to its request: the run
    of [poll] up to the [await], then the run of its continuation, with
    nothing else in between. *)
Definition poll_tick (o : HttpOutcome) (w : World) : Run unit :=
  let r := run poll w in
  match outcome r with
  | Awaiting _ k =>
      let r' := run (k o) (after r) in
      {| after := after r'; emitted := emitted r ++ emitted r';
         history := history r ++ history r'; outcome := outcome r' |}
  | Finished _ => r
  end.

(** Consecutive ticks, one reply each: the world they leave and what they
    emitted. *)
Fixpoint poll_ticks (os : list HttpOutcome) (w : World) : World * list Output :=
  match os with
  | [] => (w, [])
  | o :: rest =>
      let r := poll_tick o w in
      let '(w', out) := poll_ticks rest (after r) in
      (w', emitted r ++ out)
  end.


(** A successful reply with the JSON value [v]. *)
Definition ok_reply (v : Value) : HttpOutcome := Response 200 (Json v).

(** [{ result: [{ status }] }] *)
Definition status_reply (status : string) : HttpOutcome :=
  ok_reply (VObj [(js "result", VArr [VObj [(js "status", VStr (js status))]])]).

(** The title rule as the code has it: the leading digits of the trimmed
    title, when they are one to four and a word boundary follows. *)
Definition leading_run (t : jsstring) : option jsstring :=
  let run := leading_digits t in
  if (1 <=? length run)%nat && (length run <=? 4)%nat
     && boundary_after_word (drop (length run) t)
  then Some run else None.

(** The title rule as the specification words it: the leading run of one
    to four digits, whatever follows. *)
Definition leading_run_as_specified (t : jsstring) : option jsstring :=
  let run := leading_digits t in
  if (1 <=? length run)%nat && (length run <=? 4)%nat then Some run else None.

Definition tier1 (item : Value) : option jsstring :=
  let d := prop item "dispNum" in
  if truthy d && all_digits (to_String d)
  then Some (num_to_string (to_Number d)) else None.

Definition tier2 (rule : jsstring -> option jsstring) (item : Value)
  : option jsstring :=
  let t := prop item "title" in
  if truthy t then normalize_digits <$> rule (trim (to_String t)) else None.

Definition tier3 (item : Value) : option jsstring :=
  normalize_digits <$> uri_match (to_String (prop item "uri")).

(** Strict precedence: the first tier that yields a number decides. *)
Definition by_precedence (rule : jsstring -> option jsstring) (item : Value)
  : option jsstring :=
  match tier1 item with
  | Some n => Some n
  | None =>
      match tier2 rule item with
      | Some n => Some n
      | None => tier3 item
      end
  end.

(** A content-list entry with string fields. *)
Definition entry (dispNum title uri : string) : Value :=
  VObj [(js "dispNum", VStr (js dispNum)); (js "title", VStr (js title));
        (js "uri", VStr (js uri))].

(** A run of digits without its leading zeros, ["0"] if nothing is left. *)
Fixpoint drop_zeros (s : jsstring) : jsstring :=
  match s with
  | c :: rest => if c =? 48 then drop_zeros rest else s
  | [] => []
  end.

Definition strip_leading_zeros (s : jsstring) : jsstring :=
  match drop_zeros s with
  | [] => [48]
  | r => r
  end.

(** A valid line [NAME=NUMBER] and the favourite it stands for: the first
    [=] of the trimmed line splits it, the line is no comment, the trimmed
    name is not empty and the trimmed number is all digits. *)
Definition valid_line (lineRaw : jsstring) (fav : Favourite) : Prop :=
  exists a b : jsstring,
    trim lineRaw = a ++ 61 :: b
    /\ (61 ∉ a)
    /\ startsWith (js "#") (trim lineRaw) = false
    /\ trim a <> []
    /\ all_digits (trim b) = true
    /\ fav_name fav = trim a
    /\ fav_number fav = normalize_digits (trim b).

(** How many favourites the loop collects at most: it stops after the push
    that brings [out.length] to [max] or beyond. *)
Definition cap (max : QArith_base.Q) : nat :=
  Z.to_nat (Z.max 1 (Qround.Qceiling max)).

(** The services of an accessory other than the accessory information. *)
Definition capabilities (services : list Service) : list Service :=
  filter (fun s => negb (is_info s)) services.

(** [Characteristic.Identifier] of a service. *)
Definition identifier_of (s : Service) : option Value :=
  snd <$> List.find (fun p => bool_decide (fst p = Identifier)) (svc_values s).

(** [Characteristic.ConfiguredName] of a service. *)
Definition configured_name_of (s : Service) : option Value :=
  snd <$> List.find (fun p => bool_decide (fst p = ConfiguredName)) (svc_values s).

(** A keyword of the third tier, in any mix of upper and lower case. *)
Definition is_keyword (kw : jsstring) : Prop :=
  Forall2 (fun a c => eq_ignore_case a c = true) (js "dispNum") kw
  \/ Forall2 (fun a c => eq_ignore_case a c = true) (js "channel") kw
  \/ Forall2 (fun a c => eq_ignore_case a c = true) (js "ch") kw.

(** [{ result: [items] }], the reply to [getContentList]. *)
Definition listing (items : list Value) : Value :=
  VObj [(js "result", VArr [VArr items])].


(** The Television service as [buildServices] sets it up. *)
Definition television (name : jsstring) : Service :=
  {| svc_type := Television; svc_subtype := None; svc_displayName := name;
     svc_values := [(ConfiguredName, VStr name); (Name, VStr name);
                    (SleepDiscoveryMode, ALWAYS_DISCOVERABLE)];
     svc_linked := [] |}.

(** [buildServices] before its loop over the favourites. *)
Definition start (name : jsstring) (infos : list Service) (ops : list ServiceOp)
  : Built :=
  {| b_services := infos ++ [television name];
     b_tvService := (Television, None);
     b_inputServices := [];
     b_identifierToChannel := ∅;
     b_ops := ops ++ [Added (Television, None)] |}.

(** [tvService.addLinkedService(input)] over the list of services. *)
Definition link (tv k : ServiceKey) (s : Service) : Service :=
  if bool_decide (svc_key s = tv) then addLinkedService k s else s.

(** The six [setCharacteristic] calls on an input service. *)
Definition configure (identifier : Z) (fav : Favourite) (input : Service) : Service :=
  setCharacteristic InputSourceType TUNER
    (setCharacteristic CurrentVisibilityState SHOWN
       (setCharacteristic IsConfigured CONFIGURED
          (setCharacteristic Name (VStr (fav_name fav))
             (setCharacteristic ConfiguredName (VStr (fav_name fav))
                (setCharacteristic Identifier (VNum (JFin identifier)) input))))).

(** A favourite accounts for an input service: subtype, identifier and
    configured name are the favourite's. *)
Definition accounts_for (fav : Favourite) (s : Service) : Prop :=
  exists z : Z,
    input_identifier fav = Some z
    /\ svc_subtype s = Some (subtype_of fav)
    /\ identifier_of s = Some (VNum (JFin z))
    /\ configured_name_of s = Some (VStr (fav_name fav)).

(** What holds of a build after the favourites [favs]: the accessory
    information is as it was, the capabilities have distinct keys and were
    all added by this build, every input service is accounted for by a
    favourite, and the table maps identifiers 1 to 999 of favourites. *)
Definition built_ok (infos : list Service) (favs : list Favourite) (b : Built) : Prop :=
  filter (fun s => is_info s) (b_services b) = infos
  /\ b_tvService b = (Television, None)
  /\ NoDup (map svc_key (capabilities (b_services b)))
  /\ (forall k : ServiceKey, k ∈ map svc_key (b_services b) ->
        fst k <> AccessoryInformation -> Added k ∈ b_ops b)
  /\ (forall s, s ∈ b_services b -> svc_type s = InputSource ->
        exists fav, fav ∈ favs /\ accounts_for fav s)
  /\ (forall z ch, b_identifierToChannel b !! z = Some ch ->
        (1 <= z <= 999)%Z
        /\ exists fav, fav ∈ favs /\ input_identifier fav = Some z /\ ch = fav_number fav).

(** Sample data: favourites, an accessory with its information service
    only, and a reply that lists one channel. *)
Definition three_favourites : list Favourite :=
  [ {| fav_name := js "BBC One"; fav_number := js "1" |};
    {| fav_name := js "BBC Two"; fav_number := js "2" |};
    {| fav_name := js "ITV1"; fav_number := js "3" |} ].

Definition information : Service :=
  new_service AccessoryInformation (js "Accessory Information") None.

Definition one_channel : HttpOutcome :=
  ok_reply (listing [entry "001" "BBC One" "tv:dvbt?trip=1.2.3"]).

(** A favourites file with a comment, blank and malformed lines. *)
Definition sample_file : jsstring :=
  js "# Format: Name=Number" ++ [13; 10]
  ++ js "BBC One=1" ++ [10]
  ++ [10]
  ++ js "  BBC Two = 002  " ++ [10]
  ++ js "5USA-21" ++ [10]
  ++ js "=4" ++ [10]
  ++ js "Film4=14x" ++ [10]
  ++ js "Dave=19" ++ [10].

(** A controller just constructed at time 100000, its first poll in flight
    as request 0, the channel-map timers pending as timers 0 and 1. *)
Definition fresh : System :=
  construct false (js "TV") (js "tv:dvbt") 5000 three_favourites [information] 100000.

(* ===================================================================== *)
(** ** Vocabulary of the further properties *)
(* ===================================================================== *)

(** What a task may do: the requests it may send, the assignments it may
    make, the functions it may hand to [setTimeout]. *)
Record Policy : Type := {
  may_post : Request -> Prop;
  may_assign : (Controller -> Controller) -> Prop;
  may_time : Callback -> Prop;
  may_emit : Output -> Prop;
}.

(** A task keeps to a policy when every effect in it, on every path and
    after every reply, is one the policy allows. *)
Inductive obeys (P : Policy) {A : Type} : Task A -> Prop :=
| obeys_Ret (a : A) : obeys P (Ret a)
| obeys_Throw (e : Error) : obeys P (Throw e)
| obeys_Read (k : Controller -> Task A) :
    (forall c, obeys P (k c)) -> obeys P (Read k)
| obeys_Assign (f : Controller -> Controller) (k : Task A) :
    may_assign P f -> obeys P k -> obeys P (Assign f k)
| obeys_Emit (o : Output) (k : Task A) :
    may_emit P o -> obeys P k -> obeys P (Emit o k)
| obeys_DateNow (k : Z -> Task A) :
    (forall t, obeys P (k t)) -> obeys P (DateNow k)
| obeys_SetTimeout (cb : Callback) (ms : Z) (k : nat -> Task A) :
    may_time P cb -> (forall id, obeys P (k id)) -> obeys P (SetTimeout cb ms k)
| obeys_Post (r : Request) (k : HttpOutcome -> Task A) :
    may_post P r -> (forall o, obeys P (k o)) -> obeys P (Post r k).

(** The timer handles of a controller. *)
Definition handles (c : Controller) : list (option nat) :=
  [powerPollTimeout c; channelMapTimeout c; channelMapInterval c].

(** An output that is no request: requests go out through [Post] only. *)
Definition no_request (o : Output) : Prop :=
  match o with Sent _ => False | _ => True end.

(** The policy of everything but the poll: no power-status request, no
    timer, and the timer handles are left alone. *)
Definition no_timers : Policy :=
  {| may_post := fun r => r <> GetPowerStatus;
     may_assign := fun f => forall c, handles (f c) = handles c;
     may_time := fun _ => False;
     may_emit := no_request |}.

(** ** The poll loop as the event loop sees it *)

Definition is_poll_timer (t : Timer) : bool :=
  match timer_callback t with CbPoll => true | CbRefreshChannelMap => false end.

(** The request that call number [n] sent: calls are numbered in the order
    they were sent. *)
Definition awaited (s : System) (n : nat) : option Request :=
  requests (trace s) !! n.

Definition is_poll_call (s : System) (p : nat * (HttpOutcome -> Task unit)) : bool :=
  match awaited s (fst p) with Some GetPowerStatus => true | _ => false end.

(** The power queries that wait for their reply, and the timers that will
    start the next poll. *)
Definition polls_in_flight (s : System) : list (nat * (HttpOutcome -> Task unit)) :=
  filter (fun p => is_poll_call s p) (inflight s).

Definition polls_pending (s : System) : list Timer :=
  filter (fun t => is_poll_timer t) (timers (world s)).

Definition poll_count (s : System) : nat :=
  length (polls_in_flight s) + length (polls_pending s).

(** The power queries sent so far. *)
Definition is_power_query (r : Request) : bool :=
  match r with GetPowerStatus => true | _ => false end.

Definition power_queries (s : System) : list Request :=
  filter (fun r => is_power_query r) (requests (trace s)).

(** What the rest of a poll does once the reply is there: it ends, sends
    nothing, and leaves one new timer for the next poll, its handle stored. *)
Definition resumes_poll (k : HttpOutcome -> Task unit) : Prop :=
  forall (o : HttpOutcome) (w : World),
    let r := run (k o) w in
    (exists x, outcome r = Finished x)
    /\ requests (emitted r) = []
    /\ (exists ms, timers (after r) =
          timers w ++ [{| timer_id := next_timer w; timer_repeats := false;
                          timer_callback := CbPoll; timer_ms := ms |}])
    /\ next_timer (after r) = S (next_timer w)
    /\ handles (this (after r)) =
         [Some (next_timer w); channelMapTimeout (this w); channelMapInterval (this w)].

Definition call_ok (s : System) (p : nat * (HttpOutcome -> Task unit)) : Prop :=
  (fst p < next_request s)%nat
  /\ if is_poll_call s p then resumes_poll (snd p)
     else forall o, obeys no_timers (snd p o).

Definition timer_ok (w : World) (t : Timer) : Prop :=
  (timer_id t < next_timer w)%nat
  /\ match timer_callback t with
     | CbPoll =>
         timer_repeats t = false /\ powerPollTimeout (this w) = Some (timer_id t)
     | CbRefreshChannelMap =>
         channelMapTimeout (this w) = Some (timer_id t)
         \/ channelMapInterval (this w) = Some (timer_id t)
     end.

(** What holds of the system whatever happens. *)
Record sound (s : System) : Prop := {
  sound_timers : Forall (timer_ok (world s)) (timers (world s));
  sound_timer_ids : NoDup (timer_id <$> timers (world s));
  sound_calls : Forall (call_ok s) (inflight s);
  sound_requests : length (requests (trace s)) = next_request s;
  sound_count : (poll_count s <= 1)%nat;
}.

Definition leaves_poll (e : Event) (s s' : System) : Prop :=
  polls_in_flight s' = polls_in_flight s
  /\ (length (polls_pending s') <= length (polls_pending s))%nat
  /\ (e <> Shutdown -> polls_pending s' = polls_pending s)
  /\ power_queries s' = power_queries s.

Definition starts_poll (e : Event) (s s' : System) : Prop :=
  (exists id, e = Fire id)
  /\ polls_in_flight s = [] /\ length (polls_pending s) = 1%nat
  /\ length (polls_in_flight s') = 1%nat /\ polls_pending s' = []
  /\ length (power_queries s') = S (length (power_queries s)).

Definition resumes (e : Event) (s s' : System) : Prop :=
  (exists n o, e = Reply n o)
  /\ length (polls_in_flight s) = 1%nat /\ polls_pending s = []
  /\ polls_in_flight s' = [] /\ length (polls_pending s') = 1%nat
  /\ power_queries s' = power_queries s.



(** An evening: the first poll is answered, an input is selected, the poll's
    timer fires and the next query fails, the early channel-map timer fires. *)
Definition an_evening : list Event :=
  [Reply 0 (status_reply "active"); SetActiveIdentifier (JFin 2); Elapse 5000;
   Fire 2; Reply 2 RequestError; Fire 0].

(** ** The throttle as the event loop sees it *)

Definition is_content_query (r : Request) : bool :=
  match r with GetContentList _ => true | _ => false end.

(** The content-list requests among the outputs. *)
Definition content_queries (out : list Output) : list Request :=
  filter (fun r => is_content_query r) (requests out).

(** The policy of everything that comes after the throttle guard, and of
    everything that has nothing to do with the channel map: no content-list
    request, and the time stamp of the last refresh is left alone. *)
Definition calm : Policy :=
  {| may_post := fun r => is_content_query r = false;
     may_assign := fun f => forall c, lastChannelMapMs (f c) = lastChannelMapMs c;
     may_time := fun _ => True;
     may_emit := no_request |}.

(** The same, and no request at all: such a task runs to its end at once. *)
Definition instant : Policy :=
  {| may_post := fun _ => False;
     may_assign := fun f => forall c, lastChannelMapMs (f c) = lastChannelMapMs c;
     may_time := fun _ => True;
     may_emit := no_request |}.

(** A task is throttled when, wherever it is started, it either sends no
    content-list request and leaves the time stamp alone, or finds the time
    stamp at least a minute old, sets it to the clock and sends one
    content-list request; and what it does after a reply is calm. *)
Definition throttled {A : Type} (t : Task A) : Prop :=
  forall w : World,
    let r := run t w in
    (forall rq k, outcome r = Awaiting rq k -> forall o, obeys calm (k o))
    /\ ((content_queries (emitted r) = []
         /\ lastChannelMapMs (this (after r)) = lastChannelMapMs (this w))
        \/ ((exists source, content_queries (emitted r) = [GetContentList source])
            /\ (lastChannelMapMs (this w) + 60000 <= now w)%Z
            /\ lastChannelMapMs (this (after r)) = now w
            /\ exists rq k, outcome r = Awaiting rq k)).

(** What a step adds to the trace. *)
Definition step_outputs (s : System) (e : Event) : list Output :=
  drop (length (trace s)) (trace (step s e)).

(** The readings of the clock at which the content-list requests of a run
    of events were sent. *)
Fixpoint content_query_times (s : System) (es : list Event) : list Z :=
  match es with
  | [] => []
  | e :: es' =>
      ((fun _ => now (world s)) <$> content_queries (step_outputs s e))
        ++ content_query_times (step s e) es'
  end.

(** Each reading is at least a minute after the one before, the first one
    after [last]. *)
Fixpoint spaced (last : Z) (ts : list Z) : Prop :=
  match ts with
  | [] => True
  | t :: ts' => (last + 60000 <= t)%Z /\ spaced t ts'
  end.

Definition calm_calls (s : System) : Prop :=
  Forall (fun p => forall o, obeys calm (snd p o)) (inflight s).

(** What one step does about the channel list: nothing, or one request,
    sent with the time stamp at least a minute old and set to the clock. *)
Definition throttle_step (s : System) (e : Event) : Prop :=
  let s' := step s e in
  (content_queries (step_outputs s e) = []
   /\ lastChannelMapMs (this (world s')) = lastChannelMapMs (this (world s)))
  \/ ((exists source, content_queries (step_outputs s e) = [GetContentList source])
      /\ (lastChannelMapMs (this (world s)) + 60000 <= now (world s))%Z
      /\ lastChannelMapMs (this (world s')) = now (world s)).

(** ** A method run to its end *)

(** A run continued with the replies to its requests, one after the other
    and with nothing else in between. *)
Fixpoint feed {A : Type} (r : Run A) (os : list HttpOutcome) : Run A :=
  match os with
  | [] => r
  | o :: rest =>
      match outcome r with
      | Awaiting _ k =>
          let r' := run (k o) (after r) in
          feed {| after := after r'; emitted := emitted r ++ emitted r';
                  history := history r ++ history r'; outcome := outcome r' |} rest
      | Finished _ => r
      end
  end.


(** ** Who makes the television do something *)

(** The values of the set-power requests and the URIs of the play requests
    among the outputs. *)
Definition power_commands (out : list Output) : list bool :=
  omap (fun o => match o with Sent (SetPowerStatus v) => Some v | _ => None end) out.

Definition play_commands (out : list Output) : list Value :=
  omap (fun o => match o with Sent (SetPlayContent uri) => Some uri | _ => None end) out.

(** What the host wrote to [Active], and the inputs it selected. *)
Definition written (es : list Event) : list bool :=
  omap (fun e => match e with SetActive v => Some v | _ => None end) es.

Definition selections (es : list Event) : list JSNum :=
  omap (fun e => match e with SetActiveIdentifier x => Some x | _ => None end) es.

(** The policy of a task that only asks: no set-power and no play request. *)
Definition hands_off : Policy :=
  {| may_post := fun r => match r with
                          | SetPowerStatus _ | SetPlayContent _ => False
                          | _ => True
                          end;
     may_assign := fun _ => True;
     may_time := fun _ => True;
     may_emit := no_request |}.

(** A suspended method that may still send one play request, with the next
    reply, and only asks after that. *)
Definition plays_once (k : HttpOutcome -> Task unit) : Prop :=
  forall (o : HttpOutcome) (w : World),
    let r := run (k o) w in
    power_commands (emitted r) = []
    /\ (length (play_commands (emitted r)) <= 1)%nat
    /\ forall rq k', outcome r = Awaiting rq k' -> forall o', obeys hands_off (k' o').

(** The suspended methods, each with a mark: whether it may still play. *)
Definition marked_ok (m : bool * (nat * (HttpOutcome -> Task unit))) : Prop :=
  if fst m then plays_once (snd (snd m))
  else forall o, obeys hands_off (snd (snd m) o).

Definition may_play (marks : list (bool * (nat * (HttpOutcome -> Task unit)))) : nat :=
  length (filter (fun m : bool * (nat * (HttpOutcome -> Task unit)) => fst m = true) marks).

(** The marks go with the suspended methods of the system. *)
Definition marks_of (s : System)
    (marks : list (bool * (nat * (HttpOutcome -> Task unit)))) : Prop :=
  snd <$> marks = inflight s /\ Forall marked_ok marks.

(** What a step may add: the set-power requests [pc] and at most [n] play
    requests, counting those it may still send. *)
Definition adds (s s' : System)
    (marks marks' : list (bool * (nat * (HttpOutcome -> Task unit))))
    (pc : list bool) (n : nat) : Prop :=
  marks_of s' marks'
  /\ power_commands (trace s') = power_commands (trace s) ++ pc
  /\ (length (play_commands (trace s')) + may_play marks'
      <= length (play_commands (trace s)) + may_play marks + n)%nat.

(** ** What the host reads *)

(** The [get] handlers [buildServices] wires: [cb(null, this.power ? 1 : 0)]
    and [cb(null, this.activeIdentifier)]. *)
Definition on_get_Active (c : Controller) : JSNum := bit (power c).

Definition on_get_ActiveIdentifier (c : Controller) : JSNum := activeIdentifier c.

(** The value the host holds for a characteristic: the last one pushed to
    it, 0 before any. *)
Definition held (c : Characteristic) (out : list Output) : JSNum :=
  default (JFin 0) (last (updates c out)).

(** The controller and the host agree on both characteristics. *)
Definition in_step (c : Controller) (out : list Output) : Prop :=
  on_get_Active c = held Active out
  /\ on_get_ActiveIdentifier c = held ActiveIdentifier out.

Definition is_update (o : Output) : bool :=
  match o with UpdateValue _ _ => true | _ => false end.

(** A method keeps in step when each of its assignments to [power] or to
    [activeIdentifier] is followed at once by the push of the new value, and
    it pushes nothing else. *)
Inductive keeps_step {A : Type} : Task A -> Prop :=
| keeps_step_Ret (a : A) : keeps_step (Ret a)
| keeps_step_Throw (e : Error) : keeps_step (Throw e)
| keeps_step_Read (k : Controller -> Task A) :
    (forall c, keeps_step (k c)) -> keeps_step (Read k)
| keeps_step_Assign (f : Controller -> Controller) (k : Task A) :
    (forall c, power (f c) = power c /\ activeIdentifier (f c) = activeIdentifier c) ->
    keeps_step k -> keeps_step (Assign f k)
| keeps_step_power (v : bool) (k : Task A) :
    keeps_step k ->
    keeps_step (Assign (set_power v) (Emit (UpdateValue Active (bit v)) k))
| keeps_step_power_read (v : bool) (k : Controller -> Task A) :
    (forall c, keeps_step (k c)) ->
    keeps_step (Assign (set_power v)
                  (Read (fun c => Emit (UpdateValue Active (bit (power c))) (k c))))
| keeps_step_identifier (x : JSNum) (k : Task A) :
    keeps_step k ->
    keeps_step (Assign (set_activeIdentifier x)
                  (Emit (UpdateValue ActiveIdentifier x) k))
| keeps_step_Emit (o : Output) (k : Task A) :
    is_update o = false -> keeps_step k -> keeps_step (Emit o k)
| keeps_step_DateNow (k : Z -> Task A) :
    (forall t, keeps_step (k t)) -> keeps_step (DateNow k)
| keeps_step_SetTimeout (cb : Callback) (ms : Z) (k : nat -> Task A) :
    (forall id, keeps_step (k id)) -> keeps_step (SetTimeout cb ms k)
| keeps_step_Post (r : Request) (k : HttpOutcome -> Task A) :
    (forall o, keeps_step (k o)) -> keeps_step (Post r k).

Definition system_in_step (s : System) : Prop :=
  in_step (this (world s)) (trace s)
  /\ Forall (fun p => forall o, keeps_step (snd p o)) (inflight s).

(** ** What is fixed when the controller is made *)

(** The fields the constructor sets from the configuration and the
    favourites. *)
Definition settings (c : Controller)
  : bool * jsstring * jsstring * Z * gmap Z jsstring :=
  (debug c, name c, tvsource c, pollIntervalMs c, identifierToChannel c).

(** The policy of a method that leaves them alone. *)
Definition keeps_settings : Policy :=
  {| may_post := fun _ => True;
     may_assign := fun f => forall c, settings (f c) = settings c;
     may_time := fun _ => True;
     may_emit := fun _ => True |}.

(** ** The two tables *)

(** The content-list entries [refreshChannelMap] files under a number: the
    ones with a URI whose channel number is that number. *)
Definition filed_under (num : jsstring) (item : Value) : bool :=
  truthy item && truthy (prop item "uri")
  && bool_decide (channel_number item = Some num).


(** The linked services of the Television service of a build. *)
Definition tv_linked (b : Built) : option (list ServiceKey) :=
  svc_linked <$> getService Television (b_services b).

(** What holds of the Television service and the input services during a
    build: the accessory information comes first, then the Television
    service, then input services only; the Television service links each
    input service of the build once. *)
Definition linked_ok (b : Built) : Prop :=
  exists (infos : list Service) (tv : Service) (inputs : list Service),
    b_services b = infos ++ tv :: inputs
    /\ Forall (fun s => svc_type s = AccessoryInformation) infos
    /\ svc_key tv = (Television, None)
    /\ b_tvService b = (Television, None)
    /\ Forall (fun s => svc_type s = InputSource) inputs
    /\ NoDup (svc_linked tv)
    /\ (forall k, k ∈ svc_linked tv <-> k ∈ b_inputServices b)
    /\ (forall k, k ∈ b_inputServices b -> k ∈ (svc_key <$> inputs)).

(** ** Lines and their terminators *)

(** The text of a file: its lines with [sep] between them. *)
Fixpoint join_lines (sep : jsstring) (lines : list jsstring) : jsstring :=
  match lines with
  | [] => []
  | [l] => l
  | l :: rest => l ++ sep ++ join_lines sep rest
  end.

(** A line without the carriage return at its end, if it has one. *)
Fixpoint strip_cr (l : jsstring) : jsstring :=
  match l with
  | [] => []
  | [c] => if c =? 13 then [] else [c]
  | c :: rest => c :: strip_cr rest
  end.

(* ===================================================================== *)
(** ** [BraviaFavouritesPlatform]: constructor, [configureAccessory],
       [ensureFavouritesFile] and the [didFinishLaunching] handler *)
(* ===================================================================== *)

(** What the plugin takes from the host library: [UUIDGen.generate]. *)
Record Hap : Type := {
  generate : jsstring -> jsstring;
}.

Inductive Category : Type :=
| TELEVISION
| OtherCategory (code : Z).

(** A platform accessory, as far as the platform touches it: the display
    name and UUID it was made with, its category, and the two fields of its
    [context]. What the controller does to its services is [buildServices]. *)
Record Accessory : Type := {
  acc_displayName : Value;
  acc_UUID : jsstring;
  acc_category : Category;
  acc_tvCfg : Value;
  acc_favourites : option (list Favourite);
}.

Inductive PlatformLine : Type :=
| MissingPsk
| NoTVsConfigured
| RegisteredNewAccessory (name : Value)
| RemovingStale (n : nat)
| CreatedStarterFile (path : Value)
| FailedToEnsureFavouritesFile
| LoaderLine (l : LogLine).

(** What the platform does that the host sees, in order. *)
Inductive HostCall : Type :=
| PlatformLog (l : PlatformLine)
| UpdatePlatformAccessories (accessories : list Accessory)
| RegisterPlatformAccessories (accessories : list Accessory)
| UnregisterPlatformAccessories (accessories : list Accessory)
| NewController (tvCfg : Value) (favourites : list Favourite) (accessory : Accessory).

(** A JavaScript [Map] with string keys, in insertion order. *)
Fixpoint map_set {V : Type} (key : jsstring) (v : V) (m : list (jsstring * V))
  : list (jsstring * V) :=
  match m with
  | [] => [(key, v)]
  | (k, x) :: rest =>
      if bool_decide (k = key) then (key, v) :: rest
      else (k, x) :: map_set key v rest
  end.

Fixpoint map_get {V : Type} (key : jsstring) (m : list (jsstring * V)) : option V :=
  match m with
  | [] => None
  | (k, x) :: rest => if bool_decide (k = key) then Some x else map_get key rest
  end.

Record Platform : Type := {
  p_config : Value;
  p_debug : bool;
  p_psk : Value;
  p_favouritesFile : Value;
  p_pollIntervalMs : Z;
  p_tvs : list Value;
  accessoriesByUUID : list (jsstring * Accessory);
  (** whether the constructor installed the [didFinishLaunching] handler *)
  p_launches : bool;
}.

(** [a || b] *)
Definition or_else (a b : Value) : Value := if truthy a then a else b.

Definition default_favouritesFile : jsstring :=
  js "/var/lib/homebridge/plugin-persist/bravia-favourites/favourites.txt".

(** The constructor: [config] is [undefined] when the host passes none,
    [api] says whether the host passed its API. The result is the platform
    and what it logged. *)
Definition new_platform (config : Value) (api : bool) : Platform * list HostCall :=
  let cfg := or_else config (VObj []) in
  let psk := or_else (prop cfg "psk") (VStr []) in
  let tvs := default [] (as_array (prop cfg "tvs")) in
  let platform (launches : bool) :=
    {| p_config := cfg;
       p_debug := truthy (prop cfg "debug");
       p_psk := psk;
       p_favouritesFile :=
         or_else (prop cfg "favouritesFile") (VStr default_favouritesFile);
       p_pollIntervalMs :=
         match prop cfg "pollIntervalMs" with
         | VNum (JFin z) => z
         | _ => 5000
         end;
       p_tvs := tvs;
       accessoriesByUUID := [];
       p_launches := launches |} in
  if negb api || negb (truthy config) then (platform false, [])
  else if negb (truthy psk) then (platform false, [PlatformLog MissingPsk])
  else if (length tvs =? 0)%nat then (platform false, [PlatformLog NoTVsConfigured])
  else (platform true, []).

Definition with_accessories (m : list (jsstring * Accessory)) (p : Platform)
  : Platform :=
  {| p_config := p_config p; p_debug := p_debug p; p_psk := p_psk p;
     p_favouritesFile := p_favouritesFile p; p_pollIntervalMs := p_pollIntervalMs p;
     p_tvs := p_tvs p; accessoriesByUUID := m; p_launches := p_launches p |}.

(** [configureAccessory(accessory)]: the host hands back a cached accessory. *)
Definition configureAccessory (p : Platform) (accessory : Accessory) : Platform :=
  with_accessories (map_set (acc_UUID accessory) accessory (accessoriesByUUID p)) p.

(** The file system as the two methods see it: whether [path.dirname] and
    [fs.mkdirSync] return, what is at [favouritesFile] ([None] when
    [fs.existsSync] says no), whether [fs.writeFileSync] and
    [fs.readFileSync] return. *)
Record FileSystem : Type := {
  fs_mkdir_ok : bool;
  fs_file : option jsstring;
  fs_write_ok : bool;
  fs_read_ok : bool;
}.

(** The starter file of [ensureFavouritesFile]. *)
Definition starter : jsstring :=
  js "# Format: Name=Number" ++ [10]
  ++ js "BBC One=1" ++ [10]
  ++ js "BBC Two=2" ++ [10]
  ++ js "ITV1=3" ++ [10]
  ++ js "Channel 4=4" ++ [10]
  ++ js "Channel 5=5" ++ [10]
  ++ js "BBC News=231" ++ [10]
  ++ js "ITV2=6" ++ [10]
  ++ js "ITV3=10" ++ [10]
  ++ js "Film4=14" ++ [10]
  ++ js "Dave=19" ++ [10]
  ++ js "5USA-21" ++ [10].

(** [ensureFavouritesFile()] *)
Definition ensureFavouritesFile (p : Platform) (fs : FileSystem)
  : FileSystem * list HostCall :=
  if negb (fs_mkdir_ok fs) then (fs, [PlatformLog FailedToEnsureFavouritesFile])
  else
    match fs_file fs with
    | Some _ => (fs, [])
    | None =>
        if fs_write_ok fs
        then ({| fs_mkdir_ok := fs_mkdir_ok fs; fs_file := Some starter;
                 fs_write_ok := fs_write_ok fs; fs_read_ok := fs_read_ok fs |},
              [PlatformLog (CreatedStarterFile (p_favouritesFile p))])
        else (fs, [PlatformLog FailedToEnsureFavouritesFile])
    end.

(** [fs.readFileSync(this.favouritesFile, 'utf8')], [None] when it throws. *)
Definition readFileSync (fs : FileSystem) : option jsstring :=
  if fs_read_ok fs then fs_file fs else None.

(** [this.config.maxFavourites] when [Number.isFinite] holds of it. *)
Definition configured_max (p : Platform) : option QArith_base.Q :=
  match prop (p_config p) "maxFavourites" with
  | VNum (JFin z) => Some (QArith_base.inject_Z z)
  | _ => None
  end.

(** [!tvCfg || !tvCfg.name || !tvCfg.ip] is false. *)
Definition valid_tv (tvCfg : Value) : bool :=
  truthy tvCfg && truthy (prop tvCfg "name") && truthy (prop tvCfg "ip").

(** [UUIDGen.generate(`${tvCfg.name}-BraviaFavourites-${tvCfg.ip}`)] *)
Definition tv_uuid (hap : Hap) (tvCfg : Value) : jsstring :=
  generate hap (to_String (prop tvCfg "name") ++ js "-BraviaFavourites-"
                ++ to_String (prop tvCfg "ip")).

(** The state of the handler's loop over [this.tvs]. *)
Record Launch : Type := {
  l_accessories : list (jsstring * Accessory);
  l_configuredUUIDs : list jsstring;
  l_calls : list HostCall;
}.

Definition with_context (tvCfg : Value) (favourites : list Favourite)
    (a : Accessory) : Accessory :=
  {| acc_displayName := acc_displayName a; acc_UUID := acc_UUID a;
     acc_category := acc_category a; acc_tvCfg := tvCfg;
     acc_favourites := Some favourites |}.

(** One turn of [for (const tvCfg of this.tvs)]. *)
Definition launch_tv (hap : Hap) (favourites : list Favourite) (st : Launch)
    (tvCfg : Value) : Launch :=
  if negb (valid_tv tvCfg) then st
  else
    let uuid := tv_uuid hap tvCfg in
    let configured := l_configuredUUIDs st ++ [uuid] in
    match map_get uuid (l_accessories st) with
    | Some cachedAccessory =>
        let cachedAccessory := with_context tvCfg favourites cachedAccessory in
        {| l_accessories := map_set uuid cachedAccessory (l_accessories st);
           l_configuredUUIDs := configured;
           l_calls := l_calls st
                      ++ [UpdatePlatformAccessories [cachedAccessory];
                          NewController tvCfg favourites cachedAccessory] |}
    | None =>
        let accessory :=
          {| acc_displayName := prop tvCfg "name"; acc_UUID := uuid;
             acc_category := TELEVISION; acc_tvCfg := tvCfg;
             acc_favourites := Some favourites |} in
        {| l_accessories := l_accessories st;
           l_configuredUUIDs := configured;
           l_calls := l_calls st
                      ++ [NewController tvCfg favourites accessory;
                          RegisterPlatformAccessories [accessory];
                          PlatformLog (RegisteredNewAccessory (prop tvCfg "name"))] |}
    end.

(** The cached accessories no configured television accounts for. *)
Definition stale_accessories (m : list (jsstring * Accessory))
    (configuredUUIDs : list jsstring) : list Accessory :=
  snd <$> filter (fun e => fst e ∉ configuredUUIDs) m.

(** The [didFinishLaunching] handler. *)
Definition didFinishLaunching (hap : Hap) (p : Platform) (fs : FileSystem)
  : Platform * FileSystem * list HostCall :=
  let '(fs, ensured) := ensureFavouritesFile p fs in
  let '(favourites, lines) := loadFavourites (configured_max p) (readFileSync fs) in
  let st := fold_left (launch_tv hap favourites) (p_tvs p)
              {| l_accessories := accessoriesByUUID p;
                 l_configuredUUIDs := [];
                 l_calls := ensured ++ ((fun l => PlatformLog (LoaderLine l)) <$> lines) |} in
  let stale := stale_accessories (l_accessories st) (l_configuredUUIDs st) in
  let removal :=
    if (length stale =? 0)%nat then []
    else [PlatformLog (RemovingStale (length stale));
          UnregisterPlatformAccessories stale] in
  (with_accessories (l_accessories st) p, fs, l_calls st ++ removal).

(** The host: it makes the platform, hands back the cached accessories, and
    says when it has finished launching. *)
Definition restore (config : Value) (api : bool) (cached : list Accessory) : Platform :=
  fold_left configureAccessory cached (fst (new_platform config api)).

Definition launch (hap : Hap) (p : Platform) (fs : FileSystem)
  : Platform * FileSystem * list HostCall :=
  if p_launches p then didFinishLaunching hap p fs else (p, fs, []).









(** Sample data: a host library whose UUIDs are the strings themselves, a
    configuration with one television and no pre-shared key, a cached
    accessory, and a disk without the favourites file. *)
Definition plain_hap : Hap := {| generate := fun s => s |}.

Definition config_without_psk : Value :=
  VObj [(js "platform", VStr (js "BraviaFavourites"));
        (js "tvs", VArr [VObj [(js "name", VStr (js "Lounge"));
                               (js "ip", VStr (js "192.168.1.20"))]])].

Definition old_accessory : Accessory :=
  {| acc_displayName := VStr (js "Bedroom"); acc_UUID := js "Bedroom-BraviaFavourites-192.168.1.30";
     acc_category := TELEVISION; acc_tvCfg := VUndefined; acc_favourites := None |}.

Definition empty_disk : FileSystem :=
  {| fs_mkdir_ok := true; fs_file := None; fs_write_ok := true; fs_read_ok := true |}.

(* ===================================================================== *)
(** * Properties *)
(* ===================================================================== *)

(** ** Numbers and their text *)

Lemma is_digit_cases (c : N) :
  is_digit c = true ->
  c = 48 \/ c = 49 \/ c = 50 \/ c = 51 \/ c = 52 \/ c = 53 \/ c = 54 \/ c = 55
  \/ c = 56 \/ c = 57.
Proof.
  unfold is_digit. rewrite andb_true_iff, !N.leb_le. lia.
Qed.

Lemma digit_is_word (c : N) : is_digit c = true -> is_word c = true.
Proof. unfold is_word. intros ->. reflexivity. Qed.

Lemma uint_units_nil (d : Decimal.uint) : uint_units d = [] -> d = Decimal.Nil.
Proof. destruct d; cbn; congruence. Qed.

Lemma decimal_nonempty (n : N) : decimal n <> [].
Proof.
  unfold decimal. intros H. apply uint_units_nil in H.
  destruct n as [|p]; cbn in H; [discriminate|].
  exact (DecimalPos.Unsigned.to_uint_nonnil p H).
Qed.

Lemma render_nonempty (y : N) : render y <> [].
Proof.
  unfold render. pose proof (decimal_nonempty y) as H.
  destruct (length (decimal y) <=? 21)%nat; [exact H|].
  destruct (rev (strip_trailing_zeros_rev (rev (decimal y)))) as [|d [|d' more]];
    [exact H|discriminate|discriminate].
Qed.

(** The text of a number is never the empty string, so a number once
    found is never taken for a missing one. *)
Lemma num_to_string_nonempty (x : JSNum) : num_to_string x <> [].
Proof.
  destruct x as [|[]|z]; cbn; try discriminate.
  destruct (z <? 0)%Z; [discriminate|].
  destruct (z <? _)%Z; [apply decimal_nonempty|apply render_nonempty].
Qed.

Lemma no_num_num_to_string (x : JSNum) : no_num (Some (num_to_string x)) = false.
Proof. cbn. apply bool_decide_eq_false, num_to_string_nonempty. Qed.

Lemma no_num_normalize (s : jsstring) : no_num (Some (normalize_digits s)) = false.
Proof. apply no_num_num_to_string. Qed.

(** Reading digits and writing them back drops the leading zeros. *)
Lemma units_uint_nzhead (s : jsstring) :
  forallb is_digit s = true ->
  uint_units (Decimal.nzhead (units_uint s)) = drop_zeros s.
Proof.
  induction s as [|c s IH]; [reflexivity|].
  cbn [forallb]. rewrite andb_true_iff. intros [Hc Hs].
  assert (Hu : uint_units (units_uint s) = s).
  { clear IH Hc. induction s as [|d s IH]; [reflexivity|].
    cbn [forallb] in Hs. apply andb_true_iff in Hs as [Hd Hs].
    specialize (IH Hs).
    destruct (is_digit_cases d Hd) as [->|[->|[->|[->|[->|[->|[->|[->|[->| ->]]]]]]]]];
      cbn; rewrite IH; reflexivity. }
  destruct (is_digit_cases c Hc) as [->|[->|[->|[->|[->|[->|[->|[->|[->| ->]]]]]]]]];
    cbn; try (rewrite Hu; reflexivity).
  apply IH, Hs.
Qed.

Lemma normalize_digits_small (s : jsstring) :
  all_digits s = true -> digits_value s < 2 ^ 53 ->
  normalize_digits s = strip_leading_zeros s.
Proof.
  intros Hd Hv. unfold normalize_digits, number_of_digits, to_double.
  apply N.ltb_lt in Hv. rewrite Hv. cbn [num_to_string].
  apply N.ltb_lt in Hv.
  replace (Z.of_N (digits_value s) <? 0)%Z with false by (symmetry; apply Z.ltb_ge; lia).
  replace (Z.of_N (digits_value s) <? 2 ^ 53)%Z with true
    by (symmetry; apply Z.ltb_lt; change (2 ^ 53)%Z with (Z.of_N (2 ^ 53)); lia).
  rewrite N2Z.id. unfold decimal, digits_value.
  rewrite DecimalN.Unsigned.to_of. unfold Decimal.unorm, strip_leading_zeros.
  assert (Hf : forallb is_digit s = true) by (destruct s; [discriminate|exact Hd]).
  rewrite <- (units_uint_nzhead s Hf).
  destruct (Decimal.nzhead (units_uint s)); reflexivity.
Qed.

(** ** The favourites loader *)

Lemma indexOf_Some (c : N) (s : jsstring) (i : nat) :
  indexOf c s = Some i ->
  s = take i s ++ c :: drop (S i) s /\ c ∉ take i s.
Proof.
  revert i. induction s as [|x s IH]; intros i H; cbn in H; [discriminate|].
  destruct (x =? c) eqn:E.
  - injection H as <-. apply N.eqb_eq in E as ->. cbn. split; [reflexivity|].
    apply not_elem_of_nil.
  - destruct (indexOf c s) as [j|]; [|discriminate]. cbn in H. injection H as <-.
    destruct (IH j eq_refl) as [Hs Hn]. cbn. split; [f_equal; exact Hs|].
    apply N.eqb_neq in E. rewrite not_elem_of_cons. split; [congruence|exact Hn].
Qed.

Lemma indexOf_app (c : N) (a b : jsstring) :
  c ∉ a -> indexOf c (a ++ c :: b) = Some (length a).
Proof.
  induction a as [|x a IH]; intros Hn; cbn.
  - rewrite N.eqb_refl. reflexivity.
  - apply not_elem_of_cons in Hn as [Hx Ha].
    replace (x =? c) with false by (symmetry; apply N.eqb_neq; congruence).
    rewrite (IH Ha). reflexivity.
Qed.

(** The loop body pushes a favourite exactly for the valid lines. *)
Lemma parse_line_valid (lineRaw : jsstring) (fav : Favourite) :
  parse_line lineRaw = Some fav <-> valid_line lineRaw fav.
Proof.
  unfold parse_line, valid_line. split.
  - intros H.
    destruct (bool_decide (trim lineRaw = []) || startsWith (js "#") (trim lineRaw)) eqn:E1;
      [discriminate|].
    apply orb_false_iff in E1 as [_ Hhash].
    destruct (indexOf 61 (trim lineRaw)) as [eq|] eqn:E2; [|discriminate].
    destruct (eq <? 1)%nat; [discriminate|].
    destruct (bool_decide (trim (take eq (trim lineRaw)) = [])) eqn:E3; [discriminate|].
    destruct (all_digits (trim (drop (eq + 1)%nat (trim lineRaw)))) eqn:E4; [|discriminate].
    cbn in H. injection H as <-.
    destruct (indexOf_Some _ _ _ E2) as [Hs Hn].
    exists (take eq (trim lineRaw)), (drop (S eq) (trim lineRaw)).
    replace (eq + 1)%nat with (S eq) in E4 by lia.
    apply bool_decide_eq_false in E3.
    replace (eq + 1)%nat with (S eq) by lia.
    repeat split; assumption.
  - intros (a & b & Hl & Hn & Hhash & Ha & Hb & Hname & Hnum).
    rewrite Hl in *. clear Hl.
    replace (bool_decide (a ++ 61 :: b = [])) with false
      by (symmetry; apply bool_decide_eq_false; destruct a; discriminate).
    rewrite Hhash. cbn [orb].
    rewrite (indexOf_app 61 a b Hn).
    assert (length a <> 0)%nat by (destruct a; [exfalso; apply Ha; reflexivity|discriminate]).
    replace (length a <? 1)%nat with false by (symmetry; apply Nat.ltb_ge; lia).
    rewrite take_app_length.
    replace (length a + 1)%nat with (S (length a)) by lia.
    replace (drop (S (length a)) (a ++ 61 :: b)) with b
      by (rewrite drop_app_ge by lia;
          replace (S (length a) - length a)%nat with 1%nat by lia; reflexivity).
    replace (bool_decide (trim a = [])) with false
      by (symmetry; apply bool_decide_eq_false; exact Ha).
    rewrite Hb. cbn. destruct fav as [n x]. cbn in *. subst. reflexivity.
Qed.

Lemma parse_line_blank (lineRaw : jsstring) :
  trim lineRaw = [] -> parse_line lineRaw = None.
Proof. unfold parse_line. intros ->. reflexivity. Qed.

Lemma parse_line_comment (lineRaw : jsstring) :
  startsWith (js "#") (trim lineRaw) = true -> parse_line lineRaw = None.
Proof. unfold parse_line. intros ->. rewrite orb_true_r. reflexivity. Qed.

Lemma reached_ceiling (max : QArith_base.Q) (out : list Favourite) :
  reached max out = true <-> (Qround.Qceiling max <= Z.of_nat (length out))%Z.
Proof.
  unfold reached. rewrite QArith_base.Qle_bool_iff. split; intros H.
  - apply Qround.Qceiling_resp_le in H. rewrite Qround.Qceiling_Z in H. exact H.
  - eapply QArith_base.Qle_trans; [apply Qround.Qle_ceiling|].
    rewrite <- QArith_base.Zle_Qle. exact H.
Qed.

(** The loop keeps the favourites of the valid lines in order, up to the
    push that reaches [max]. *)
Lemma load_lines_take (max : QArith_base.Q) (lines : list jsstring) (out : list Favourite) :
  (length out < cap max)%nat ->
  load_lines max lines out =
    out ++ take (cap max - length out) (omap parse_line lines).
Proof.
  revert out. induction lines as [|l lines IH]; intros out Hlt.
  - cbn. destruct (cap max - length out)%nat; cbn; rewrite app_nil_r; reflexivity.
  - change (omap parse_line (l :: lines)) with
      (match parse_line l with
       | Some y => y :: omap parse_line lines
       | None => omap parse_line lines
       end).
    cbn [load_lines].
    destruct (parse_line l) as [fav|].
    + destruct (reached max (out ++ [fav])) eqn:E.
      * apply reached_ceiling in E. rewrite length_app in E. cbn in E.
        assert (cap max - length out = 1)%nat as -> by (unfold cap in *; lia).
        cbn. destruct (omap parse_line lines); reflexivity.
      * assert (~ (Qround.Qceiling max <= Z.of_nat (length (out ++ [fav])))%Z) as N.
        { rewrite <- reached_ceiling. rewrite E. discriminate. }
        rewrite length_app in N. cbn in N.
        rewrite IH by (rewrite length_app; cbn; unfold cap in *; lia).
        rewrite length_app. cbn [length].
        replace (cap max - length out)%nat with (S (cap max - (length out + 1)))%nat
          by (unfold cap in *; lia).
        cbn. rewrite <- app_assoc. reflexivity.
    + apply IH, Hlt.
Qed.

Lemma cap_positive (max : QArith_base.Q) : (0 < cap max)%nat.
Proof. unfold cap. lia. Qed.

Lemma cap_whole (n : nat) :
  (1 <= n)%nat -> cap (QArith_base.inject_Z (Z.of_nat n)) = n.
Proof. intros H. unfold cap. rewrite Qround.Qceiling_Z. lia. Qed.

Lemma loadFavourites_take (maxFavourites : option QArith_base.Q) (raw : jsstring) :
  fst (loadFavourites maxFavourites (Some raw)) =
    take (cap (max_favourites maxFavourites)) (omap parse_line (split_lines raw)).
Proof.
  cbn. rewrite load_lines_take by (cbn; apply cap_positive).
  cbn. rewrite Nat.sub_0_r. reflexivity.
Qed.

(** C9, as amended. For every file content and every whole number [n] of at
    least 1 given as [maxFavourites] (and for the default of 30), the loader
    returns the favourites of the valid lines in file order, the first [n] of
    them at most; a line yields a favourite exactly when it is a valid
    [NAME=NUMBER] line (first [=] splits, trimmed name not empty, trimmed
    number all digits), blank lines and [#] lines yield none, and each line is
    read on its own; the number stored is [String(Number(number))], which is
    the number without its leading zeros when its value is below [2^53]; when
    the file cannot be read the result is the empty list and one log line. *)
Theorem loadFavourites_collects_valid_lines :
  forall (n : nat) (raw : jsstring),
    (1 <= n)%nat ->
    fst (loadFavourites (Some (QArith_base.inject_Z (Z.of_nat n))) (Some raw))
      = take n (omap parse_line (split_lines raw))
    /\ (length (fst (loadFavourites (Some (QArith_base.inject_Z (Z.of_nat n)))
                       (Some raw))) <= n)%nat
    /\ fst (loadFavourites None (Some raw))
         = take 30 (omap parse_line (split_lines raw))
    /\ (forall (line : jsstring) (fav : Favourite),
          parse_line line = Some fav <-> valid_line line fav)
    /\ (forall line : jsstring,
          trim line = [] \/ startsWith (js "#") (trim line) = true ->
          parse_line line = None)
    /\ (forall s : jsstring,
          all_digits s = true -> digits_value s < 2 ^ 53 ->
          normalize_digits s = strip_leading_zeros s)
    /\ (forall maxFavourites : option QArith_base.Q,
          loadFavourites maxFavourites None = ([], [FailedToLoadFavourites])).
Proof.
  intros n raw Hn.
  assert (H : fst (loadFavourites (Some (QArith_base.inject_Z (Z.of_nat n))) (Some raw))
              = take n (omap parse_line (split_lines raw))).
  { rewrite loadFavourites_take. cbn [max_favourites]. rewrite (cap_whole n Hn).
    reflexivity. }
  split; [exact H|]. split; [rewrite H, length_take; lia|].
  split.
  { rewrite loadFavourites_take. cbn [max_favourites].
    change (QArith_base.inject_Z 30) with (QArith_base.inject_Z (Z.of_nat 30)).
    rewrite (cap_whole 30) by lia. reflexivity. }
  split; [apply parse_line_valid|].
  split; [intros line [Hb|Hc]; [apply parse_line_blank, Hb|apply parse_line_comment, Hc]|].
  split; [apply normalize_digits_small|reflexivity].
Qed.

Lemma loadFavourites_collects_valid_lines_witness :
  (1 <= 2)%nat
  /\ fst (loadFavourites (Some (QArith_base.inject_Z (Z.of_nat 2))) (Some sample_file))
     = [ {| fav_name := js "BBC One"; fav_number := js "1" |};
         {| fav_name := js "BBC Two"; fav_number := js "2" |} ]
  /\ fst (loadFavourites None (Some sample_file))
     = [ {| fav_name := js "BBC One"; fav_number := js "1" |};
         {| fav_name := js "BBC Two"; fav_number := js "2" |};
         {| fav_name := js "Dave"; fav_number := js "19" |} ].
Proof.
  assert (Hn : (1 <= 2)%nat) by lia.
  destruct (loadFavourites_collects_valid_lines 2 sample_file Hn)
    as (H1 & _ & H2 & _).
  split; [exact Hn|]. split.
  - rewrite H1. vm_compute. reflexivity.
  - rewrite H2. vm_compute. reflexivity.
Defined.

(** C9 as stated fails: with a maximum of 0 the loader still returns one
    favourite, and a number past [2^53] is stored rounded, or in exponent
    notation, not with its leading zeros stripped. *)
Lemma loads_one_at_zero_max_and_rounds_large_numbers :
  fst (loadFavourites (Some (QArith_base.inject_Z 0)) (Some (js "BBC One=1")))
    = [ {| fav_name := js "BBC One"; fav_number := js "1" |} ]
  /\ fst (loadFavourites None (Some (js "Far=9007199254740993")))
    = [ {| fav_name := js "Far"; fav_number := js "9007199254740992" |} ]
  /\ fst (loadFavourites None (Some (js "Far=100000000000000000000000")))
    = [ {| fav_name := js "Far"; fav_number := js "1e+23" |} ].
Proof. repeat split; vm_compute; reflexivity. Qed.

(** ** The channel number of a content-list entry *)

(** The greedy, backtracking match of [/^(\d{1,4})\b/] finds the leading
    digits exactly when they are one to four and a word boundary follows. *)
Lemma title_match_leading_run (t : jsstring) : title_match t = leading_run t.
Proof.
  unfold title_match, leading_run.
  destruct t as [|c1 [|c2 [|c3 [|c4 [|c5 t]]]]]; cbn;
    repeat match goal with
    | |- context [is_digit ?c] =>
        let E := fresh "E" in
        destruct (is_digit c) eqn:E; cbn;
        try (rewrite (digit_is_word c E); cbn)
    end; try reflexivity.
Qed.

Lemma channel_number_by_precedence (item : Value) :
  channel_number item = by_precedence leading_run item.
Proof.
  unfold channel_number, by_precedence, tier1, tier2, tier3.
  rewrite title_match_leading_run.
  destruct (truthy (prop item "dispNum") && all_digits (to_String (prop item "dispNum"))).
  - rewrite no_num_num_to_string. cbn [andb]. rewrite no_num_num_to_string. reflexivity.
  - cbn [no_num andb]. destruct (truthy (prop item "title")); cbn [andb].
    + destruct (leading_run (trim (to_String (prop item "title")))) as [run|];
        cbn [fmap option_fmap option_map].
      * rewrite no_num_normalize. reflexivity.
      * cbn [no_num]. destruct (uri_match _); reflexivity.
    + cbn [no_num]. destruct (uri_match _); reflexivity.
Qed.

Lemma by_precedence_nonempty (item : Value) (num : jsstring) :
  by_precedence leading_run item = Some num -> no_num (Some num) = false.
Proof.
  unfold by_precedence, tier1, tier2, tier3. intros H.
  destruct (truthy (prop item "dispNum") && _).
  - injection H as <-. apply no_num_num_to_string.
  - destruct (truthy (prop item "title")).
    + destruct (leading_run _); cbn in H.
      * injection H as <-. apply no_num_normalize.
      * destruct (uri_match _); cbn in H; [|discriminate].
        injection H as <-. apply no_num_normalize.
    + destruct (uri_match _); cbn in H; [|discriminate].
      injection H as <-. apply no_num_normalize.
Qed.

Lemma after_ignore_case_sound (p s rest : jsstring) :
  after_ignore_case p s = Some rest ->
  exists kw, s = kw ++ rest /\ Forall2 (fun a c => eq_ignore_case a c = true) p kw.
Proof.
  revert s. induction p as [|a p IH]; intros s H; cbn in H.
  - injection H as <-. exists []. split; [reflexivity|constructor].
  - destruct s as [|c s]; [discriminate|].
    destruct (eq_ignore_case a c) eqn:E; [|discriminate].
    destruct (IH s H) as (kw & -> & HF).
    exists (c :: kw). split; [reflexivity|]. constructor; assumption.
Qed.

Lemma leading_digits_split (s : jsstring) :
  s = leading_digits s ++ drop (length (leading_digits s)) s
  /\ forallb is_digit (leading_digits s) = true.
Proof.
  induction s as [|c s [IH1 IH2]]; cbn; [split; reflexivity|].
  destruct (is_digit c) eqn:E; cbn.
  - rewrite E. split; [f_equal; exact IH1|exact IH2].
  - split; reflexivity.
Qed.

Lemma keyword_digits_sound (kw : string) (s ds : jsstring) :
  keyword_digits kw s = Some ds ->
  exists word rest,
    s = word ++ 61 :: ds ++ rest
    /\ Forall2 (fun a c => eq_ignore_case a c = true) (js kw) word
    /\ all_digits ds = true.
Proof.
  unfold keyword_digits. intros H.
  destruct (after_ignore_case (js kw ++ [61]) s) as [rest|] eqn:E; [|discriminate].
  destruct (after_ignore_case_sound _ _ _ E) as (w & -> & HF).
  apply Forall2_app_inv_l in HF as (word & eqs & Hword & Heq & ->).
  inversion Heq as [|? c ? tl Hc Htl]; subst. inversion Htl; subst.
  assert (c = 61) as ->.
  { unfold eq_ignore_case in Hc. cbn in Hc.
    repeat rewrite orb_false_r in Hc. apply N.eqb_eq in Hc. exact Hc. }
  destruct (leading_digits_split rest) as [Hs Hd].
  destruct (leading_digits rest) as [|d ds'] eqn:EL; [discriminate|].
  injection H as <-.
  exists word, (drop (length (d :: ds')) rest).
  split; [|split; [exact Hword|exact Hd]].
  rewrite <- app_assoc. cbn [app]. f_equal. f_equal. rewrite app_comm_cons. exact Hs.
Qed.

(** What the third tier captures is a run of digits right after one of the
    three keywords and [=], somewhere in the string. *)
Lemma uri_match_sound (u ds : jsstring) :
  uri_match u = Some ds ->
  exists before word rest,
    u = before ++ word ++ 61 :: ds ++ rest
    /\ is_keyword word
    /\ all_digits ds = true.
Proof.
  induction u as [|c u IH]; cbn [uri_match]; intros H.
  - destruct (uri_match_here []) eqn:E; [|discriminate]. vm_compute in E. discriminate.
  - destruct (uri_match_here (c :: u)) as [ds'|] eqn:E.
    + injection H as ->. unfold uri_match_here in E.
      destruct (keyword_digits "dispNum" (c :: u)) eqn:E1.
      { injection E as ->.
        destruct (keyword_digits_sound _ _ _ E1) as (w & r & -> & HF & Hd).
        exists [], w, r. split; [reflexivity|split; [left; exact HF|exact Hd]]. }
      destruct (keyword_digits "channel" (c :: u)) eqn:E2.
      { injection E as ->.
        destruct (keyword_digits_sound _ _ _ E2) as (w & r & -> & HF & Hd).
        exists [], w, r. split; [reflexivity|split; [right; left; exact HF|exact Hd]]. }
      destruct (keyword_digits_sound _ _ _ E) as (w & r & -> & HF & Hd).
      exists [], w, r. split; [reflexivity|split; [right; right; exact HF|exact Hd]].
    + destruct (IH H) as (b & w & r & -> & HK & Hd).
      exists (c :: b), w, r. split; [reflexivity|split; assumption].
Qed.

Lemma after_ignore_case_complete (p kw rest : jsstring) :
  Forall2 (fun a c => eq_ignore_case a c = true) p kw ->
  after_ignore_case p (kw ++ rest) = Some rest.
Proof.
  intros H. induction H as [|a c p kw Hac _ IH]; [destruct rest; reflexivity|].
  cbn. rewrite Hac. exact IH.
Qed.

Lemma keyword_digits_complete (kw : string) (word rest : jsstring) (d : N) :
  Forall2 (fun a c => eq_ignore_case a c = true) (js kw) word ->
  is_digit d = true ->
  keyword_digits kw (word ++ 61 :: d :: rest) <> None.
Proof.
  intros Hw Hd. unfold keyword_digits.
  replace (word ++ 61 :: d :: rest) with ((word ++ [61]) ++ d :: rest)
    by (rewrite <- app_assoc; reflexivity).
  rewrite after_ignore_case_complete.
  - cbn. rewrite Hd. discriminate.
  - apply Forall2_app; [exact Hw|]. constructor; [reflexivity|constructor].
Qed.

(** And it finds a number whenever a keyword, [=] and a digit occur. *)
Lemma uri_match_complete (before word rest : jsstring) (d : N) :
  is_keyword word -> is_digit d = true ->
  uri_match (before ++ word ++ 61 :: d :: rest) <> None.
Proof.
  intros Hk Hd.
  assert (Hhere : uri_match_here (word ++ 61 :: d :: rest) <> None).
  { unfold uri_match_here.
    destruct (keyword_digits "dispNum" _) eqn:E1; [discriminate|].
    destruct (keyword_digits "channel" _) eqn:E2; [discriminate|].
    destruct Hk as [H|[H|H]].
    - exfalso. exact (keyword_digits_complete "dispNum" word rest d H Hd E1).
    - exfalso. exact (keyword_digits_complete "channel" word rest d H Hd E2).
    - exact (keyword_digits_complete "ch" word rest d H Hd). }
  induction before as [|c before IH].
  - cbn [app]. destruct (word ++ 61 :: d :: rest) as [|x u] eqn:E.
    + destruct word; discriminate.
    + cbn [uri_match]. destruct (uri_match_here (x :: u)); [discriminate|].
      exfalso. apply Hhere. reflexivity.
  - cbn [app uri_match].
    destruct (uri_match_here (c :: before ++ word ++ 61 :: d :: rest)); [discriminate|].
    exact IH.
Qed.

(** C5, as amended. For every content-list entry the channel number is
    derived with strict precedence: an all-digits display-number field wins;
    else the leading digits of the trimmed title, when they are one to four
    digits followed by a word boundary (the end of the title or a character
    that is no letter, digit or underscore); else the digits after
    [dispNum=], [channel=] or [ch=], in any case, in the identifier string.
    An entry with display number "12" and a title that starts with "99"
    resolves to "12", and an entry with a [uri] that yields no number under
    the three tiers leaves the map as it is. *)
Theorem channel_number_precedence :
  forall (item : Value) (m : gmap jsstring Value),
    channel_number item = by_precedence leading_run item
    /\ add_item m item =
         (if truthy item && truthy (prop item "uri")
          then match by_precedence leading_run item with
               | Some num => <[num := prop item "uri"]> m
               | None => m
               end
          else m)
    /\ (forall ds : jsstring,
          uri_match (to_String (prop item "uri")) = Some ds ->
          exists before word rest : jsstring,
            to_String (prop item "uri") = before ++ word ++ 61 :: ds ++ rest
            /\ is_keyword word /\ all_digits ds = true)
    /\ (forall (before word rest : jsstring) (d : N),
          to_String (prop item "uri") = before ++ word ++ 61 :: d :: rest ->
          is_keyword word -> is_digit d = true ->
          uri_match (to_String (prop item "uri")) <> None)
    /\ (forall (title : jsstring) (uri : Value),
          channel_number
            (VObj [(js "dispNum", VStr (js "12")); (js "title", VStr title);
                   (js "uri", uri)]) = Some (js "12")).
Proof.
  intros item m. split; [apply channel_number_by_precedence|].
  split; [|split; [intros ds; apply uri_match_sound|split]].
  - unfold add_item. rewrite channel_number_by_precedence.
    destruct (truthy item); cbn [negb orb andb]; [|reflexivity].
    destruct (truthy (prop item "uri")); cbn [negb]; [|reflexivity].
    destruct (by_precedence leading_run item) as [num|] eqn:E; [|reflexivity].
    rewrite (by_precedence_nonempty item num E). reflexivity.
  - intros before word rest d ->. apply uri_match_complete.
  - intros title uri. rewrite channel_number_by_precedence. reflexivity.
Qed.

Lemma channel_number_precedence_witness :
  channel_number (entry "12" "99 Other Channel" "tv:dvbt?trip=1.2.3") = Some (js "12")
  /\ channel_number (entry "" "099 Other Channel" "tv:dvbt?trip=1.2.3") = Some (js "99")
  /\ channel_number (entry "" "Other Channel" "tv:dvbt?trip=1.2.3&CH=007") = Some (js "7")
  /\ add_item ∅ (entry "" "Other Channel" "tv:dvbt?trip=1.2.3") = ∅.
Proof.
  split; [|split; [|split]].
  - destruct (channel_number_precedence
                (entry "12" "99 Other Channel" "tv:dvbt?trip=1.2.3") ∅) as (H & _).
    rewrite H. vm_compute. reflexivity.
  - destruct (channel_number_precedence
                (entry "" "099 Other Channel" "tv:dvbt?trip=1.2.3") ∅) as (H & _).
    rewrite H. vm_compute. reflexivity.
  - destruct (channel_number_precedence
                (entry "" "Other Channel" "tv:dvbt?trip=1.2.3&CH=007") ∅) as (H & _).
    rewrite H. vm_compute. reflexivity.
  - destruct (channel_number_precedence
                (entry "" "Other Channel" "tv:dvbt?trip=1.2.3") ∅) as (_ & H & _).
    rewrite H. vm_compute. reflexivity.
Defined.

(** C5 as stated fails: the title "5USA" starts with a run of one digit,
    but no word boundary follows it, so the code passes the title by and
    takes the number from the identifier string. *)
Lemma title_digits_without_boundary :
  channel_number (entry "" "5USA" "tv:dvbt?ch=21") = Some (js "21")
  /\ by_precedence leading_run_as_specified (entry "" "5USA" "tv:dvbt?ch=21")
     = Some (js "5")
  /\ channel_number (entry "" "5USA" "tv:dvbt?ch=21")
     <> by_precedence leading_run_as_specified (entry "" "5USA" "tv:dvbt?ch=21").
Proof.
  split; [vm_compute; reflexivity|]. split; [vm_compute; reflexivity|].
  vm_compute. intros H. discriminate H.
Qed.

(** ** Rebuilding the services *)



Lemma is_info_true (s : Service) : is_info s <-> svc_type s = AccessoryInformation.
Proof. unfold is_info. rewrite bool_decide_spec. reflexivity. Qed.

Lemma getService_info (t : ServiceType) (l : list Service) :
  t <> AccessoryInformation -> getService t (filter (fun s => is_info s) l) = None.
Proof.
  intros Ht. unfold getService. induction l as [|s l IH]; [reflexivity|].
  rewrite filter_cons. case_decide as E; [|exact IH].
  cbn [find]. apply is_info_true in E.
  rewrite bool_decide_false by congruence. exact IH.
Qed.

Lemma filter_info_idem (l : list Service) :
  filter (fun s => is_info s) (filter (fun s => is_info s) l) = filter (fun s => is_info s) l.
Proof.
  induction l as [|s l IH]; [reflexivity|].
  rewrite filter_cons. case_decide as E; [|exact IH].
  rewrite filter_cons. rewrite decide_True by exact E. rewrite IH. reflexivity.
Qed.

Lemma filter_info_map (f : Service -> Service) (l : list Service) :
  (forall s, svc_type (f s) = svc_type s) ->
  (forall s, is_info s -> f s = s) ->
  filter (fun s => is_info s) (map f l) = filter (fun s => is_info s) l.
Proof.
  intros Ht Hf. induction l as [|s l IH]; [reflexivity|].
  cbn [map]. rewrite !filter_cons.
  destruct (decide (is_info s)) as [E|E].
  - rewrite (Hf s E). rewrite decide_True by exact E. rewrite IH. reflexivity.
  - rewrite decide_False; [exact IH|].
    rewrite is_info_true, Ht, <- is_info_true. exact E.
Qed.

Lemma put_service_infos (s' : Service) (l : list Service) :
  svc_type s' <> AccessoryInformation ->
  put_service s' (filter (fun s => is_info s) l) = filter (fun s => is_info s) l.
Proof.
  intros Ht. unfold put_service. induction l as [|s l IH]; [reflexivity|].
  rewrite filter_cons. case_decide as E; [|exact IH].
  cbn [map]. rewrite IH. apply is_info_true in E.
  rewrite bool_decide_false; [reflexivity|].
  unfold svc_key. intros [= H _]. congruence.
Qed.

Lemma buildServices_start (name : jsstring) (favs : list Favourite) (services : list Service) :
  buildServices name favs services =
    fold_left add_favourite favs
      (start name (filter (fun s => is_info s) services)
         (map (fun s => Removed (svc_key s)) (capabilities services))).
Proof.
  unfold buildServices. rewrite getService_info by discriminate.
  f_equal. unfold start. cbn [svc_type svc_subtype svc_displayName svc_values svc_linked
    new_service setCharacteristic set_value clear_linked].
  f_equal. unfold put_service. rewrite map_app.
  change (map _ (filter (fun s => is_info s) services)) with
    (put_service (television name) (filter (fun s => is_info s) services)).
  rewrite put_service_infos by discriminate. reflexivity.
Qed.

Lemma add_favourite_eq (b : Built) (fav : Favourite) (z : Z) :
  input_identifier fav = Some z ->
  add_favourite b fav =
    let '(input, services, op) := input_service (b_services b) fav in
    {| b_services := map (link (b_tvService b) (svc_key (configure z fav input)))
                       (put_service (configure z fav input) services);
       b_tvService := b_tvService b;
       b_inputServices := b_inputServices b ++ [svc_key (configure z fav input)];
       b_identifierToChannel := <[z := fav_number fav]> (b_identifierToChannel b);
       b_ops := b_ops b ++ [op] |}.
Proof. intros H. unfold add_favourite. rewrite H. reflexivity. Qed.

Lemma find_set_value_eq (c : Characteristic) (v : Value) (vs : list (Characteristic * Value)) :
  find (fun p => bool_decide (fst p = c)) (set_value c v vs) = Some (c, v).
Proof.
  induction vs as [|[c' v'] vs IH]; cbn.
  - rewrite bool_decide_true by reflexivity. reflexivity.
  - destruct (bool_decide (c' = c)) eqn:E; cbn.
    + rewrite bool_decide_true by reflexivity. reflexivity.
    + rewrite E. exact IH.
Qed.

Lemma find_set_value_ne (c c' : Characteristic) (v : Value) (vs : list (Characteristic * Value)) :
  c <> c' ->
  find (fun p => bool_decide (fst p = c')) (set_value c v vs)
  = find (fun p => bool_decide (fst p = c')) vs.
Proof.
  intros Hne. induction vs as [|[c0 v0] vs IH]; cbn.
  - rewrite bool_decide_false by exact Hne. reflexivity.
  - destruct (bool_decide (c0 = c)) eqn:E; cbn.
    + apply bool_decide_eq_true in E. subst c0.
      rewrite !bool_decide_false by exact Hne. reflexivity.
    + destruct (bool_decide (c0 = c')); [reflexivity|exact IH].
Qed.

Lemma configure_facts (z : Z) (fav : Favourite) (input : Service) :
  svc_key (configure z fav input) = svc_key input
  /\ identifier_of (configure z fav input) = Some (VNum (JFin z))
  /\ configured_name_of (configure z fav input) = Some (VStr (fav_name fav)).
Proof.
  split; [reflexivity|]. unfold identifier_of, configured_name_of, configure. cbn [svc_values setCharacteristic].
  split.
  - rewrite !find_set_value_ne by discriminate. rewrite find_set_value_eq. reflexivity.
  - rewrite !find_set_value_ne by discriminate. rewrite find_set_value_eq. reflexivity.
Qed.

Lemma input_service_facts (services : list Service) (fav : Favourite) :
  let '(input, services', op) := input_service services fav in
  svc_key input = (InputSource, Some (subtype_of fav))
  /\ ((services' = services /\ input ∈ services /\ op = Reused (svc_key input))
      \/ (services' = services ++ [input] /\ op = Added (svc_key input)
          /\ forall s, s ∈ services -> svc_key s <> svc_key input)).
Proof.
  unfold input_service, getServiceById.
  destruct (find _ services) as [s|] eqn:E.
  - apply find_some in E as [Hin Hk]. apply bool_decide_eq_true in Hk.
    split; [exact Hk|]. left. split; [reflexivity|]. split; [|reflexivity].
    apply list_elem_of_In. exact Hin.
  - split; [reflexivity|]. right. split; [reflexivity|]. split; [reflexivity|].
    intros s Hs. apply list_elem_of_In in Hs.
    pose proof (find_none _ _ E s Hs) as Hk. cbn beta in Hk.
    apply bool_decide_eq_false in Hk. exact Hk.
Qed.

Lemma link_fields (tv k : ServiceKey) (s : Service) :
  svc_type (link tv k s) = svc_type s
  /\ svc_subtype (link tv k s) = svc_subtype s
  /\ svc_values (link tv k s) = svc_values s.
Proof. unfold link. destruct (bool_decide _); repeat split. Qed.

Lemma rebuilt_keys (tv k : ServiceKey) (input' : Service) (services : list Service) :
  map svc_key (map (link tv k) (put_service input' services)) = map svc_key services.
Proof.
  unfold put_service. rewrite !map_map. apply map_ext. intros s.
  destruct (link_fields tv k (if bool_decide (svc_key s = svc_key input') then input' else s))
    as (Ht & Hs & _).
  unfold svc_key at 1. rewrite Ht, Hs.
  destruct (bool_decide (svc_key s = svc_key input')) eqn:E; [|reflexivity].
  apply bool_decide_eq_true in E. symmetry. exact E.
Qed.

Lemma rebuilt_member (tv k : ServiceKey) (input' : Service) (services : list Service)
    (s' : Service) :
  s' ∈ map (link tv k) (put_service input' services) ->
  exists s0,
    (s0 = input' \/ (s0 ∈ services /\ svc_key s0 <> svc_key input'))
    /\ svc_type s' = svc_type s0 /\ svc_subtype s' = svc_subtype s0
    /\ svc_values s' = svc_values s0.
Proof.
  intros H. apply list_elem_of_fmap in H as (s1 & -> & H1).
  unfold put_service in H1. apply list_elem_of_fmap in H1 as (s2 & -> & H2).
  exists (if bool_decide (svc_key s2 = svc_key input') then input' else s2).
  split; [|apply link_fields].
  destruct (bool_decide (svc_key s2 = svc_key input')) eqn:E; [left; reflexivity|].
  right. apply bool_decide_eq_false in E. split; assumption.
Qed.

Lemma rebuilt_infos (tv k : ServiceKey) (input' : Service) (services : list Service) :
  fst tv <> AccessoryInformation -> svc_type input' <> AccessoryInformation ->
  filter (fun s => is_info s) (map (link tv k) (put_service input' services))
  = filter (fun s => is_info s) services.
Proof.
  intros Htv Hin. rewrite filter_info_map.
  - unfold put_service. apply filter_info_map.
    + intros s. destruct (bool_decide (svc_key s = svc_key input')) eqn:E; [|reflexivity].
      apply bool_decide_eq_true in E. unfold svc_key in E. congruence.
    + intros s Hs. apply is_info_true in Hs.
      rewrite bool_decide_false; [reflexivity|]. unfold svc_key. congruence.
  - intros s. apply link_fields.
  - intros s Hs. apply is_info_true in Hs. unfold link.
    rewrite bool_decide_false; [reflexivity|].
    unfold svc_key. intros <-. apply Htv. exact Hs.
Qed.

Lemma capabilities_keys (l : list Service) :
  map svc_key (capabilities l)
  = filter (fun k : ServiceKey => fst k <> AccessoryInformation) (map svc_key l).
Proof.
  unfold capabilities. induction l as [|s l IH]; [reflexivity|].
  cbn [map]. rewrite !filter_cons.
  destruct (decide (negb (is_info s))) as [E|E].
  - rewrite decide_True.
    + cbn [map]. rewrite IH. reflexivity.
    + cbn. intros H. apply is_info_true in H. destruct (is_info s); [inversion E|apply H].
  - rewrite decide_False; [exact IH|].
    cbn. intros H. apply E. destruct (is_info s) eqn:F; [|exact I].
    exfalso. apply H, is_info_true. rewrite F. exact I.
Qed.

Lemma input_identifier_range (fav : Favourite) (z : Z) :
  input_identifier fav = Some z -> (1 <= z <= 999)%Z.
Proof.
  unfold input_identifier. destruct (string_to_number (fav_number fav)); try discriminate.
  destruct ((z0 <=? 0)%Z || (999 <? z0)%Z) eqn:E; [discriminate|].
  intros [= <-]. apply orb_false_iff in E as [E1 E2].
  apply Z.leb_gt in E1. apply Z.ltb_ge in E2. lia.
Qed.

Lemma filter_none {A} (P : A -> Prop) `{forall x, Decision (P x)} (l : list A) :
  (forall x, x ∈ l -> ~ P x) -> filter P l = [].
Proof.
  induction l as [|x l IH]; intros Hn; [reflexivity|].
  rewrite filter_cons_False by (apply Hn; left).
  apply IH. intros y Hy. apply Hn. right. exact Hy.
Qed.

Lemma built_ok_start (name : jsstring) (l : list Service) (ops : list ServiceOp) :
  built_ok (filter (fun s => is_info s) l) [] (start name (filter (fun s => is_info s) l) ops).
Proof.
  unfold built_ok, start. cbn [b_services b_tvService b_ops b_identifierToChannel].
  assert (Hinfo : forall s, s ∈ filter (fun s => is_info s) l -> svc_type s = AccessoryInformation).
  { intros s Hs. apply list_elem_of_filter in Hs as [Hs _]. apply is_info_true, Hs. }
  split.
  { rewrite filter_app, filter_info_idem. cbn. apply app_nil_r. }
  split; [reflexivity|]. split.
  { rewrite capabilities_keys, map_app, filter_app. 
    rewrite filter_none.
    - cbn. apply NoDup_singleton.
    - intros k Hk Hne. apply Hne.
      apply list_elem_of_fmap in Hk as (s & -> & Hs). apply (Hinfo s Hs). }
  split.
  { intros k Hk Hne. rewrite map_app in Hk. apply elem_of_app in Hk as [Hk|Hk].
    - exfalso. apply Hne. apply list_elem_of_fmap in Hk as (s & -> & Hs). apply (Hinfo s Hs).
    - cbn in Hk. apply list_elem_of_singleton in Hk as ->.
      apply elem_of_app. right. apply list_elem_of_singleton. reflexivity. }
  split.
  { intros s Hs Ht. apply elem_of_app in Hs as [Hs|Hs].
    - rewrite (Hinfo s Hs) in Ht. discriminate.
    - apply list_elem_of_singleton in Hs as ->. discriminate. }
  intros z ch H. rewrite lookup_empty in H. discriminate.
Qed.

Lemma accounts_for_fields (fav : Favourite) (s s' : Service) :
  svc_subtype s' = svc_subtype s -> svc_values s' = svc_values s ->
  accounts_for fav s -> accounts_for fav s'.
Proof.
  intros Hs Hv (z & Hz & Hsub & Hid & Hname). exists z.
  unfold identifier_of, configured_name_of in *. rewrite Hs, Hv. auto.
Qed.

Lemma built_ok_step (infos : list Service) (favs : list Favourite) (b : Built)
    (fav : Favourite) :
  built_ok infos favs b -> built_ok infos (favs ++ [fav]) (add_favourite b fav).
Proof.
  intros (I1 & I2 & I3 & I4 & I5 & I6).
  destruct (input_identifier fav) as [z|] eqn:Ez.
  2: { unfold add_favourite. rewrite Ez.
       split; [exact I1|]. split; [exact I2|]. split; [exact I3|]. split; [exact I4|].
       split.
       - intros s Hs Ht. destruct (I5 s Hs Ht) as (f & Hf & Ha).
         exists f. split; [apply elem_of_app; left; exact Hf|exact Ha].
       - intros z ch H. destruct (I6 z ch H) as (Hr & f & Hf & Ha).
         split; [exact Hr|]. exists f. split; [apply elem_of_app; left; exact Hf|exact Ha]. }
  rewrite (add_favourite_eq b fav z Ez).
  pose proof (input_service_facts (b_services b) fav) as F.
  destruct (input_service (b_services b) fav) as [[input services] op].
  destruct F as [Hkey Hcase].
  destruct (configure_facts z fav input) as (Ck & Cid & Cname).
  set (input' := configure z fav input) in *.
  assert (Hty : svc_type input' = InputSource).
  { rewrite Hkey in Ck. unfold svc_key in Ck. congruence. }
  assert (Hsub : svc_subtype input' = Some (subtype_of fav)).
  { rewrite Hkey in Ck. unfold svc_key in Ck. congruence. }
  assert (Hnoinfo : fst (svc_key input) <> AccessoryInformation)
    by (rewrite Hkey; discriminate).
  unfold built_ok. cbn [b_services b_tvService b_ops b_identifierToChannel].
  split.
  { rewrite rebuilt_infos; [|rewrite I2; discriminate|rewrite Hty; discriminate].
    destruct Hcase as [(-> & _ & _)|(-> & _ & _)]; [exact I1|].
    rewrite filter_app, I1. rewrite (filter_none _ [input]); [apply app_nil_r|].
    intros x Hx. apply list_elem_of_singleton in Hx as ->.
    rewrite is_info_true. exact Hnoinfo. }
  split; [exact I2|]. split.
  { rewrite capabilities_keys, rebuilt_keys.
    destruct Hcase as [(-> & _ & _)|(-> & _ & Hfresh)].
    - rewrite <- capabilities_keys. exact I3.
    - rewrite map_app, filter_app, <- capabilities_keys.
      cbn [map]. rewrite filter_cons_True by exact Hnoinfo. rewrite filter_nil.
      apply NoDup_app. split; [exact I3|]. split; [|apply NoDup_singleton].
      intros k Hk Hk'. apply list_elem_of_singleton in Hk' as ->.
      apply list_elem_of_fmap in Hk as (s & Hs & Hin).
      unfold capabilities in Hin. apply list_elem_of_filter in Hin as [_ Hin].
      apply (Hfresh s Hin). symmetry. exact Hs. }
  split.
  { intros k Hk Hne. rewrite rebuilt_keys in Hk. apply elem_of_app.
    destruct Hcase as [(-> & _ & _)|(-> & -> & _)].
    - left. apply I4; assumption.
    - rewrite map_app in Hk. apply elem_of_app in Hk as [Hk|Hk].
      + left. apply I4; assumption.
      + right. cbn in Hk. apply list_elem_of_singleton in Hk as ->.
        apply list_elem_of_singleton. reflexivity. }
  split.
  { intros s' Hs' Ht'.
    apply rebuilt_member in Hs' as (s0 & Hs0 & E1 & E2 & E3).
    destruct Hs0 as [->|[Hin Hne]].
    - exists fav. split; [apply elem_of_app; right; apply list_elem_of_singleton; reflexivity|].
      apply (accounts_for_fields fav input' s' E2 E3).
      exists z. auto.
    - assert (Hb : s0 ∈ b_services b).
      { destruct Hcase as [(-> & _ & _)|(-> & _ & _)]; [exact Hin|].
        apply elem_of_app in Hin as [Hin|Hin]; [exact Hin|].
        apply list_elem_of_singleton in Hin as ->. exfalso. apply Hne.
        symmetry. exact Ck. }
      rewrite E1 in Ht'. destruct (I5 s0 Hb Ht') as (f & Hf & Ha).
      exists f. split; [apply elem_of_app; left; exact Hf|].
      apply (accounts_for_fields f s0 s' E2 E3 Ha). }
  intros z' ch H. destruct (decide (z = z')) as [<-|Hne].
  - rewrite lookup_insert_eq in H. injection H as <-.
    split; [apply (input_identifier_range fav z Ez)|].
    exists fav. split; [apply elem_of_app; right; apply list_elem_of_singleton; reflexivity|].
    split; [exact Ez|reflexivity].
  - rewrite lookup_insert_ne in H by exact Hne.
    destruct (I6 z' ch H) as (Hr & f & Hf & Ha).
    split; [exact Hr|]. exists f. split; [apply elem_of_app; left; exact Hf|exact Ha].
Qed.

Lemma built_ok_fold (infos : list Service) (favs done : list Favourite) (b : Built) :
  built_ok infos done b ->
  built_ok infos (done ++ favs) (fold_left add_favourite favs b).
Proof.
  revert done b. induction favs as [|f favs IH]; intros done b H.
  - rewrite app_nil_r. exact H.
  - cbn [fold_left]. replace (done ++ f :: favs) with ((done ++ [f]) ++ favs)
      by (rewrite <- app_assoc; reflexivity).
    apply IH, built_ok_step, H.
Qed.

Lemma buildServices_ok (name : jsstring) (favs : list Favourite) (services : list Service) :
  built_ok (filter (fun s => is_info s) services) favs (buildServices name favs services).
Proof.
  rewrite buildServices_start. apply (built_ok_fold _ favs []), built_ok_start.
Qed.



(** The identifier table of a build has entries for 1 to 999 only. *)
Lemma built_table_range (name : jsstring) (favs : list Favourite)
    (services : list Service) (z : Z) :
  ~ (1 <= z <= 999)%Z ->
  b_identifierToChannel (buildServices name favs services) !! z = None.
Proof.
  intros Hz. destruct (buildServices_ok name favs services) as (_ & _ & _ & _ & _ & I6).
  destruct (b_identifierToChannel (buildServices name favs services) !! z) as [ch|] eqn:E;
    [|reflexivity].
  destruct (I6 z ch E) as [Hr _]. contradiction.
Qed.



(** ** The controller's methods *)

Lemma updates_app (c : Characteristic) (a b : list Output) :
  updates c (a ++ b) = updates c a ++ updates c b.
Proof. unfold updates. apply omap_app. Qed.

(** C7. For every integer identifier with no entry in the identifier
    table, [selectIdentifier] records the identifier as current, pushes it to
    the host, and ends successfully: that push is all it emits, so no request
    is sent, and [activeIdentifier] is the only field it writes. *)
Theorem selectIdentifier_without_entry :
  forall (w : World) (z : Z),
    identifierToChannel (this w) !! z = None ->
    run (selectIdentifier (JFin z)) w =
      {| after := with_this (set_activeIdentifier (JFin z) (this w)) w;
         emitted := [UpdateValue ActiveIdentifier (JFin z)];
         history := [set_activeIdentifier (JFin z) (this w)];
         outcome := Finished (inr tt) |}.
Proof.
  intros w z Hnone.
  assert (Hz : or_zero (JFin z) = JFin z).
  { unfold or_zero. destruct (z =? 0)%Z eqn:E; [|reflexivity].
    apply Z.eqb_eq in E. now subst. }
  unfold selectIdentifier. rewrite Hz. cbn.
  rewrite Hnone. reflexivity.
Qed.

Lemma selectIdentifier_without_entry_witness :
  identifierToChannel (this (world fresh)) !! 1000%Z = None
  /\ requests (emitted (run (selectIdentifier (JFin 1000)) (world fresh))) = []
  /\ activeIdentifier (this (after (run (selectIdentifier (JFin 1000)) (world fresh))))
     = JFin 1000
  /\ outcome (run (selectIdentifier (JFin 1000)) (world fresh)) = Finished (inr tt).
Proof.
  assert (H : identifierToChannel (this (world fresh)) !! 1000%Z = None)
    by (vm_compute; reflexivity).
  split; [exact H|].
  rewrite (selectIdentifier_without_entry (world fresh) 1000 H).
  split; [reflexivity|]. split; reflexivity.
Defined.

(** C8. [setPower(on)] sends exactly one request, "set power status" with
    the requested boolean, and writes nothing before the reply. When the call
    succeeds it sets [power] to that boolean and pushes the value to the
    host; when the call fails it ends with the error, sends nothing more and
    leaves the controller as it found it. *)
Theorem setPower_one_call :
  forall (w : World) (on : bool),
    exists k,
      outcome (run (setPower on) w) = Awaiting (SetPowerStatus on) k
      /\ requests (emitted (run (setPower on) w)) = [SetPowerStatus on]
      /\ after (run (setPower on) w) = w
      /\ forall (o : HttpOutcome) (w' : World),
           match rpc_result o with
           | inr _ =>
               run (k o) w' =
                 {| after := with_this (set_power on (this w')) w';
                    emitted := [UpdateValue Active (bit on)];
                    history := [set_power on (this w')];
                    outcome := Finished (inr tt) |}
           | inl e =>
               run (k o) w' =
                 {| after := w'; emitted := []; history := [];
                    outcome := Finished (inl e) |}
           end.
Proof.
  intros w on. unfold setPower. cbn.
  destruct (debug (this w)); cbn; eexists; (split; [reflexivity|]);
    (split; [reflexivity|]); (split; [reflexivity|]);
    intros o w'; destruct (rpc_result o); reflexivity.
Qed.

Lemma setPower_one_call_witness :
  requests (emitted (run (setPower true) (world fresh))) = [SetPowerStatus true]
  /\ exists k,
       outcome (run (setPower true) (world fresh)) = Awaiting (SetPowerStatus true) k
       /\ power (this (after (run (k (ok_reply VNull)) (world fresh)))) = true
       /\ outcome (run (k RequestError) (world fresh)) = Finished (inl TransportError)
       /\ after (run (k RequestError) (world fresh)) = world fresh.
Proof.
  destruct (setPower_one_call (world fresh) true) as (k & H1 & H2 & _ & H4).
  split; [exact H2|]. exists k. split; [exact H1|].
  assert (Hok : run (k (ok_reply VNull)) (world fresh) =
                  {| after := with_this (set_power true (this (world fresh))) (world fresh);
                     emitted := [UpdateValue Active (bit true)];
                     history := [set_power true (this (world fresh))];
                     outcome := Finished (inr tt) |})
    by exact (H4 (ok_reply VNull) (world fresh)).
  assert (Herr : run (k RequestError) (world fresh) =
                   {| after := world fresh; emitted := []; history := [];
                      outcome := Finished (inl TransportError) |})
    by exact (H4 RequestError (world fresh)).
  rewrite Hok, Herr. split; [reflexivity|]. split; reflexivity.
Defined.

(** ** The power poll *)


(** A tick whose call succeeds: the state becomes what the reply says, and
    the host is told exactly when that differs from the state before. *)
Lemma poll_tick_success (w : World) (o : HttpOutcome) (resp : Value) :
  rpc_result o = inr resp ->
  let isOn := is_active (power_status resp) in
  power (this (after (poll_tick o w))) = isOn
  /\ updates Active (emitted (poll_tick o w)) =
       (if bool_decide (power (this w) = isOn) then [] else [bit isOn])
  /\ requests (emitted (poll_tick o w)) = [GetPowerStatus].
Proof.
  intros Ho isOn. unfold poll_tick, poll. cbn. rewrite Ho. cbn.
  fold isOn. destruct (bool_decide (power (this w) = isOn)) eqn:E; cbn.
  - apply bool_decide_eq_true in E. auto.
  - auto.
Qed.


(** Every tick, whatever its reply and whatever happened meanwhile, ends by
    setting one new timer for [poll] and storing its handle. *)
Lemma poll_tick_reschedules (w : World) (o : HttpOutcome) :
  timers (after (poll_tick o w)) =
    timers w ++ [{| timer_id := next_timer w; timer_repeats := false;
                    timer_callback := CbPoll;
                    timer_ms := pollIntervalMs (this w) |}]
  /\ powerPollTimeout (this (after (poll_tick o w))) = Some (next_timer w)
  /\ outcome (poll_tick o w) = Finished (inr tt).
Proof.
  unfold poll_tick, poll. cbn. destruct (rpc_result o) as [e|resp]; cbn.
  - destruct (debug (this w)); cbn; auto.
  - destruct (bool_decide (power (this w) = is_active (power_status resp))); cbn; auto.
Qed.



(** C6, as amended. When a poll succeeds, the host is notified if and only
    if the status read differs from the power state the controller holds when
    the reply is handled, and the state becomes the status read. So of three consecutive polls that read
    the same status, with no other writer of the power state in between, at
    most one notifies: the first one does when the status differs from the
    state it found (as ['active'] does at the first poll after start, where
    the state starts as off), and none does when it is the same. *)
Theorem poll_notifies_on_change_only :
  forall (w : World) (o1 o2 o3 : HttpOutcome) (r1 r2 r3 : Value) (b : bool),
    rpc_result o1 = inr r1 -> rpc_result o2 = inr r2 -> rpc_result o3 = inr r3 ->
    is_active (power_status r1) = b ->
    is_active (power_status r2) = b ->
    is_active (power_status r3) = b ->
    (exists k,
       outcome (run poll w) = Awaiting GetPowerStatus k
       /\ forall w' : World,
            updates Active (emitted (run (k o1) w')) =
              (if bool_decide (power (this w') = b) then [] else [bit b])
            /\ power (this (after (run (k o1) w'))) = b)
    /\ (updates Active (emitted (poll_tick o1 w)) <> [] <-> power (this w) <> b)
    /\ updates Active (emitted (poll_tick o1 w)) =
         (if bool_decide (power (this w) = b) then [] else [bit b])
    /\ power (this (after (poll_tick o1 w))) = b
    /\ updates Active (snd (poll_ticks [o2; o3] (after (poll_tick o1 w)))) = []
    /\ updates Active (snd (poll_ticks [o1; o2; o3] w)) =
         (if bool_decide (power (this w) = b) then [] else [bit b]).
Proof.
  intros w o1 o2 o3 r1 r2 r3 b H1 H2 H3 B1 B2 B3.
  destruct (poll_tick_success w o1 r1 H1) as (P1 & U1 & _).
  rewrite B1 in P1, U1.
  set (w1 := after (poll_tick o1 w)) in *.
  destruct (poll_tick_success w1 o2 r2 H2) as (P2 & U2 & _).
  rewrite B2 in P2, U2.
  set (w2 := after (poll_tick o2 w1)) in *.
  destruct (poll_tick_success w2 o3 r3 H3) as (P3 & U3 & _).
  rewrite B3 in P3, U3.
  rewrite bool_decide_true in U2 by exact P1.
  rewrite bool_decide_true in U3 by exact P2.
  assert (T23 : updates Active (snd (poll_ticks [o2; o3] w1)) = []).
  { cbn [poll_ticks]. fold w2.
    destruct (poll_ticks [] (after (poll_tick o3 w2))) eqn:E. cbn in E.
    injection E as <- <-. cbn [snd].
    rewrite !updates_app, U2, U3. reflexivity. }
  split; [|split; [|split; [exact U1|split; [exact P1|split; [exact T23|]]]]].
  - unfold poll. cbn. eexists. split; [reflexivity|].
    intros w'. cbn. rewrite H1. cbn. rewrite B1.
    destruct (bool_decide (power (this w') = b)) eqn:E; cbn.
    + apply bool_decide_eq_true in E. auto.
    + auto.
  - rewrite U1. case_bool_decide; split; intros; congruence.
  - change (poll_ticks [o1; o2; o3] w) with
      (let '(w', out) := poll_ticks [o2; o3] (after (poll_tick o1 w)) in
       (w', emitted (poll_tick o1 w) ++ out)).
    fold w1. destruct (poll_ticks [o2; o3] w1) as [w' out] eqn:E.
    cbn [snd] in *. rewrite updates_app, U1, T23. apply app_nil_r.
Qed.

Lemma poll_notifies_on_change_only_witness :
  rpc_result (status_reply "active")
    = inr (VObj [(js "result", VArr [VObj [(js "status", VStr (js "active"))]])])
  /\ is_active (power_status
       (VObj [(js "result", VArr [VObj [(js "status", VStr (js "active"))]])])) = true
  /\ power (this (world fresh)) = false
  /\ updates Active (snd (poll_ticks [status_reply "active"; status_reply "active";
                                      status_reply "active"] (world fresh)))
     = [bit true].
Proof.
  assert (H : rpc_result (status_reply "active")
    = inr (VObj [(js "result", VArr [VObj [(js "status", VStr (js "active"))]])]))
    by reflexivity.
  assert (B : is_active (power_status
       (VObj [(js "result", VArr [VObj [(js "status", VStr (js "active"))]])])) = true)
    by (vm_compute; reflexivity).
  destruct (poll_notifies_on_change_only (world fresh)
              (status_reply "active") (status_reply "active") (status_reply "active")
              _ _ _ true H H H B B B) as (_ & _ & _ & _ & _ & H5).
  split; [exact H|]. split; [exact B|]. split; [reflexivity|].
  rewrite H5. reflexivity.
Defined.

(** C6 as stated fails: a television that is off when the controller
    starts is polled three times with the same status, and no change
    notification fires at all, not exactly one. *)
Lemma three_standby_polls_no_notification :
  let s := steps fresh
             [Reply 0 (status_reply "standby"); Fire 2;
              Reply 1 (status_reply "standby"); Fire 3;
              Reply 2 (status_reply "standby")] in
  requests (trace s) = [GetPowerStatus; GetPowerStatus; GetPowerStatus]
  /\ map fst (inflight s) = []
  /\ updates Active (trace s) = []
  /\ length (updates Active (trace s)) <> 1%nat.
Proof.
  cbv zeta. split; [vm_compute; reflexivity|]. split; [vm_compute; reflexivity|].
  split; [vm_compute; reflexivity|]. vm_compute. intros H. discriminate H.
Qed.

(** ** Refreshing the channel map *)




(** C1, as amended. For every call of [refreshChannelMap]: if fewer than 60
    seconds have passed since the start of the last refresh that went on to
    its call, it returns at once, successfully, with no request and no
    change; otherwise it stamps the time of this call before it sends
    anything, sends exactly one content-list request, and sends nothing more
    when the reply comes. The stamp is not touched again, whether the call
    succeeds or fails: the 60 seconds run from the start of that refresh. *)
Theorem refreshChannelMap_throttle :
  forall (w : World),
    if (now w - lastChannelMapMs (this w) <? 60 * 1000)%Z
    then run refreshChannelMap w =
           {| after := w; emitted := []; history := []; outcome := Finished (inr tt) |}
    else exists k,
      outcome (run refreshChannelMap w) = Awaiting (GetContentList (tvsource (this w))) k
      /\ emitted (run refreshChannelMap w) = [Sent (GetContentList (tvsource (this w)))]
      /\ after (run refreshChannelMap w) =
           with_this (set_lastChannelMapMs (now w) (this w)) w
      /\ forall (o : HttpOutcome) (w' : World),
           requests (emitted (run (k o) w')) = []
           /\ (exists res, outcome (run (k o) w') = Finished res)
           /\ lastChannelMapMs (this (after (run (k o) w'))) = lastChannelMapMs (this w').
Proof.
  intros w. unfold refreshChannelMap. cbn.
  match goal with
  | |- context [(?a <? ?b)%Z] => destruct (a <? b)%Z
  end; cbn; [reflexivity|].
  eexists. split; [reflexivity|]. split; [reflexivity|]. split; [reflexivity|].
  intros o w'. destruct (rpc_result o) as [e|resp]; cbn.
  - eauto.
  - destruct (content_list resp); cbn; destruct (debug (this w')); cbn; eauto.
Qed.

Lemma refreshChannelMap_throttle_witness :
  requests (emitted (run refreshChannelMap (world fresh))) = [GetContentList (js "tv:dvbt")]
  /\ lastChannelMapMs (this (after (run refreshChannelMap (world fresh)))) = 100000%Z
  /\ run refreshChannelMap
       (with_now 159999 (after (run refreshChannelMap (world fresh))))
     = {| after := with_now 159999 (after (run refreshChannelMap (world fresh)));
          emitted := []; history := []; outcome := Finished (inr tt) |}.
Proof.
  pose proof (refreshChannelMap_throttle (world fresh)) as H1.
  pose proof (refreshChannelMap_throttle
                (with_now 159999 (after (run refreshChannelMap (world fresh))))) as H2.
  assert (H1' : exists k,
    outcome (run refreshChannelMap (world fresh))
      = Awaiting (GetContentList (tvsource (this (world fresh)))) k
    /\ emitted (run refreshChannelMap (world fresh))
       = [Sent (GetContentList (tvsource (this (world fresh))))]
    /\ after (run refreshChannelMap (world fresh)) =
         with_this (set_lastChannelMapMs (now (world fresh)) (this (world fresh)))
           (world fresh)
    /\ forall (o : HttpOutcome) (w' : World),
         requests (emitted (run (k o) w')) = []
         /\ (exists res, outcome (run (k o) w') = Finished res)
         /\ lastChannelMapMs (this (after (run (k o) w'))) = lastChannelMapMs (this w'))
    by exact H1.
  destruct H1' as (k & _ & He & Ha & _).
  split; [rewrite He; reflexivity|]. split; [rewrite Ha; reflexivity|].
  exact H2.
Defined.

(** C1 as stated fails: a refresh starts at 100000 and completes half a
    second later, at 100500; a call at 160200, less than 60 seconds after that
    completion, sends a second content-list request. *)
Lemma refresh_inside_a_minute_of_completion :
  let s1 := steps fresh [Fire 0; Elapse 500; Reply 1 one_channel] in
  let s2 := steps s1 [Elapse 59700; SetActiveIdentifier (JFin 1)] in
  requests (trace s1) = [GetPowerStatus; GetContentList (js "tv:dvbt")]
  /\ map fst (inflight s1) = [0%nat]
  /\ channelUriByNumber (this (world s1)) !! js "1" = Some (VStr (js "tv:dvbt?trip=1.2.3"))
  /\ now (world s1) = 100500%Z
  /\ now (world s2) = 160200%Z
  /\ (now (world s2) - now (world s1) <? 60 * 1000)%Z = true
  /\ requests (trace s2) =
       [GetPowerStatus; GetContentList (js "tv:dvbt"); GetContentList (js "tv:dvbt")].
Proof. cbv zeta. repeat split; vm_compute; reflexivity. Qed.

(** ** Shutdown *)

(** C2, on the code: shutdown is requested while the first poll's call is
    in flight. The handler finds no poll timer to cancel; when the reply
    arrives the poll sets a new timer, and when that timer fires a second
    power-status request goes out, after shutdown. *)
Theorem poll_reschedules_after_shutdown :
  let s1 := steps fresh [Shutdown] in
  let s2 := steps s1 [Reply 0 (status_reply "active")] in
  let s3 := steps s2 [Fire 2] in
  requests (trace fresh) = [GetPowerStatus]
  /\ map fst (inflight fresh) = [0%nat]
  /\ timers (world s1) = []
  /\ map timer_callback (timers (world s2)) = [CbPoll]
  /\ requests (trace s3) = [GetPowerStatus; GetPowerStatus].
Proof. cbv zeta. repeat split; vm_compute; reflexivity. Qed.

(* ===================================================================== *)
(** * Further properties *)
(* ===================================================================== *)

Lemma obeys_bind (P : Policy) {A B : Type} (t : Task A) (f : A -> Task B) :
  obeys P t -> (forall a, obeys P (f a)) -> obeys P (bind t f).
Proof.
  intros Ht Hf. induction Ht; cbn; try (constructor; auto; fail).
  apply Hf.
Qed.

Lemma obeys_try_catch (P : Policy) {A : Type} (t : Task A) (h : Error -> Task A) :
  obeys P t -> (forall e, obeys P (h e)) -> obeys P (try_catch t h).
Proof.
  intros Ht Hh. induction Ht; cbn; try (constructor; auto; fail).
  apply Hh.
Qed.

Lemma obeys_when (P : Policy) (b : bool) (t : Task unit) :
  obeys P t -> obeys P (when b t).
Proof. intros H. destruct b; [exact H|constructor]. Qed.

Lemma obeys_rpc (P : Policy) (r : Request) : may_post P r -> obeys P (rpc r).
Proof.
  intros H. unfold rpc. constructor; [exact H|].
  intros o. destruct (rpc_result o); constructor.
Qed.

Ltac obey :=
  repeat first
    [ apply obeys_bind
    | apply obeys_try_catch
    | apply obeys_when
    | apply obeys_rpc
    | progress intros
    | match goal with
      | |- obeys _ (if ?b then _ else _) => destruct b
      | |- obeys _ (match ?x with _ => _ end) => destruct x
      end
    | constructor ]; try (exact I); try reflexivity; try discriminate.

Lemma setPower_no_timers (on : bool) : obeys no_timers (setPower on).
Proof. unfold setPower, read, assign, emit, mbind, Task_bind. obey. Qed.

Lemma refreshChannelMap_no_timers : obeys no_timers refreshChannelMap.
Proof. unfold refreshChannelMap, read, assign, emit, mbind, Task_bind. obey. Qed.

Lemma tuneChannel_no_timers (ch : jsstring) : obeys no_timers (tuneChannel ch).
Proof.
  unfold tuneChannel, read, assign, emit, mbind, Task_bind.
  apply obeys_bind; [apply obeys_try_catch; [apply refreshChannelMap_no_timers|constructor]|].
  obey.
Qed.

Lemma selectIdentifier_no_timers (x : JSNum) : obeys no_timers (selectIdentifier x).
Proof.
  unfold selectIdentifier, read, assign, emit, mbind, Task_bind.
  apply obeys_bind; [obey|]. intros _.
  apply obeys_bind; [obey|]. intros _.
  apply obeys_bind; [obey|]. intros c.
  destruct (channel_of c (or_zero x)); [|constructor].
  destruct (bool_decide _); [constructor|].
  apply obeys_bind; [obey|]. intros _. apply tuneChannel_no_timers.
Qed.

(** ** What a run of a task that keeps to a policy does *)

Lemma run_now {A : Type} (t : Task A) (w : World) : now (after (run t w)) = now w.
Proof.
  revert w. induction t as [| | k IH | f k IH | o k IH | k IH | cb ms k IH | r k IH];
    intros w; cbn; auto.
  - rewrite IH. reflexivity.
  - rewrite IH. reflexivity.
Qed.

Lemma run_requests (P : Policy) {A : Type} (t : Task A) (w : World) :
  obeys P t -> (forall o, may_emit P o -> no_request o) ->
  requests (emitted (run t w)) =
    match outcome (run t w) with
    | Awaiting r _ => [r]
    | Finished _ => []
    end.
Proof.
  intros Ht He. revert w. induction Ht; intros w; cbn; auto.
  rewrite <- IHHt. apply He in H. destruct o; cbn in *; [reflexivity|reflexivity|contradiction].
Qed.

Lemma run_awaiting (P : Policy) {A : Type} (t : Task A) (w : World)
    (r : Request) (k : HttpOutcome -> Task A) :
  obeys P t -> outcome (run t w) = Awaiting r k ->
  may_post P r /\ forall o, obeys P (k o).
Proof.
  intros Ht. revert w. induction Ht; intros w; cbn; try discriminate; eauto.
  intros [= <- <-]. split; assumption.
Qed.

Lemma run_keeps (P : Policy) {A X : Type} (g : Controller -> X) (t : Task A) (w : World) :
  obeys P t -> (forall f, may_assign P f -> forall c, g (f c) = g c) ->
  g (this (after (run t w))) = g (this w).
Proof.
  intros Ht Hg. revert w. induction Ht; intros w; cbn; auto.
  - rewrite IHHt. cbn. apply Hg. assumption.
  - rewrite H1. reflexivity.
Qed.

Lemma run_timers (P : Policy) {A : Type} (t : Task A) (w : World) :
  obeys P t -> (forall cb, ~ may_time P cb) ->
  timers (after (run t w)) = timers w /\ next_timer (after (run t w)) = next_timer w.
Proof.
  intros Ht Hn. revert w. induction Ht; intros w; cbn; auto.
  - apply (IHHt (with_this (f (this w)) w)).
  - exfalso. eapply Hn. eassumption.
Qed.

Lemma requests_app (a b : list Output) : requests (a ++ b) = requests a ++ requests b.
Proof. apply omap_app. Qed.

Lemma poll_first_segment (w : World) :
  exists k, run poll w = {| after := w; emitted := [Sent GetPowerStatus];
                            history := []; outcome := Awaiting GetPowerStatus k |}
            /\ resumes_poll k.
Proof.
  eexists. split; [reflexivity|].
  intros o w'. cbn. destruct (rpc_result o) as [e|resp]; cbn.
  - destruct (debug (this w')); cbn; eauto 10.
  - destruct (bool_decide _); cbn; eauto 10.
Qed.

Lemma filter_agree {A : Type} (f g : A -> bool) (l : list A) :
  Forall (fun x => f x = g x) l ->
  filter (fun x => f x) l = filter (fun x => g x) l.
Proof.
  induction 1 as [|x l Hx _ IH]; [reflexivity|].
  rewrite !filter_cons, IH, Hx. reflexivity.
Qed.

Lemma is_poll_call_later (s s' : System) (x : list Request)
    (p : nat * (HttpOutcome -> Task unit)) :
  requests (trace s') = requests (trace s) ++ x ->
  (fst p < length (requests (trace s)))%nat ->
  is_poll_call s' p = is_poll_call s p.
Proof.
  intros Hx Hp. unfold is_poll_call, awaited.
  rewrite Hx, lookup_app_l by exact Hp. reflexivity.
Qed.

Lemma calls_later (s s' : System) (x : list Request)
    (l : list (nat * (HttpOutcome -> Task unit))) :
  Forall (call_ok s) l ->
  length (requests (trace s)) = next_request s ->
  requests (trace s') = requests (trace s) ++ x ->
  (next_request s <= next_request s')%nat ->
  Forall (call_ok s') l
  /\ filter (fun p => is_poll_call s' p) l = filter (fun p => is_poll_call s p) l.
Proof.
  intros Hl Hn Hx Hle. split.
  - eapply Forall_impl; [exact Hl|]. intros p [Hp Hk]. split; [lia|].
    rewrite (is_poll_call_later s s' x) by (assumption || lia). exact Hk.
  - apply filter_agree. eapply Forall_impl; [exact Hl|]. intros p [Hp _].
    apply (is_poll_call_later s s' x); [assumption|lia].
Qed.

Lemma timers_later (w w' : World) (l : list Timer) :
  Forall (timer_ok w) l ->
  handles (this w') = handles (this w) ->
  (next_timer w <= next_timer w')%nat ->
  Forall (timer_ok w') l.
Proof.
  intros Hl Hh Hle. unfold handles in Hh. injection Hh as H1 H2 H3.
  eapply Forall_impl; [exact Hl|]. intros t [Hid Ht]. split; [lia|].
  rewrite H1, H2, H3. exact Ht.
Qed.

Lemma no_timers_silent (o : Output) : may_emit no_timers o -> no_request o.
Proof. exact (fun H => H). Qed.

Lemma no_timers_never (cb : Callback) : ~ may_time no_timers cb.
Proof. exact (fun H => H). Qed.

(** Starting a task that is not the poll keeps the system sound and the
    polls as they are. *)
Lemma spawn_quiet (t : Task unit) (s : System) :
  obeys no_timers t -> sound s ->
  sound (spawn t s)
  /\ polls_in_flight (spawn t s) = polls_in_flight s
  /\ polls_pending (spawn t s) = polls_pending s
  /\ power_queries (spawn t s) = power_queries s.
Proof.
  intros Ht [Htm Hids Hc Hr Hn].
  destruct (run_timers no_timers t (world s) Ht no_timers_never) as [Htimers Hnext].
  pose proof (run_keeps no_timers handles t (world s) Ht (fun f Hf => Hf)) as Hh.
  pose proof (run_requests no_timers t (world s) Ht no_timers_silent) as Hreq.
  pose proof (run_awaiting no_timers t (world s)) as Hk.
  unfold spawn. destruct (outcome (run t (world s))) as [x|r k] eqn:Ho.
  - set (s' := {| world := _ |}).
    assert (Hx : requests (trace s') = requests (trace s) ++ []).
    { unfold s'. cbn. rewrite requests_app, Hreq. reflexivity. }
    destruct (calls_later s s' [] (inflight s) Hc Hr Hx (le_n _)) as [Hc' Hf].
    split.
    + constructor; cbn.
      * rewrite Htimers. eapply timers_later; [exact Htm|exact Hh|lia].
      * rewrite Htimers. exact Hids.
      * exact Hc'.
      * rewrite requests_app, Hreq, length_app. cbn. lia.
      * unfold poll_count, polls_in_flight, polls_pending in *. cbn.
        rewrite Hf, Htimers. exact Hn.
    + unfold polls_in_flight, polls_pending, power_queries. cbn.
      rewrite Hf, Htimers, requests_app, Hreq, app_nil_r. auto.
  - destruct (Hk r k Ht eq_refl) as [Hpost Hobeys]. cbn in Hpost.
    set (s' := {| world := _ |}).
    assert (Hx : requests (trace s') = requests (trace s) ++ [r]).
    { unfold s'. cbn. rewrite requests_app, Hreq. reflexivity. }
    assert (Hle : (next_request s <= next_request s')%nat) by (cbn; lia).
    destruct (calls_later s s' [r] (inflight s) Hc Hr Hx Hle) as [Hc' Hf].
    assert (Hnew : is_poll_call s' (next_request s, k) = false).
    { unfold is_poll_call, awaited. rewrite Hx. cbn [fst].
      rewrite lookup_app_r by lia. rewrite Hr, Nat.sub_diag. cbn.
      destruct r; [contradiction|reflexivity..]. }
    split.
    + constructor; cbn.
      * rewrite Htimers. eapply timers_later; [exact Htm|exact Hh|lia].
      * rewrite Htimers. exact Hids.
      * apply Forall_app. split; [exact Hc'|]. constructor; [|constructor].
        split; [cbn; lia|]. rewrite Hnew. exact Hobeys.
      * rewrite requests_app, Hreq, length_app. cbn. lia.
      * unfold poll_count, polls_in_flight, polls_pending in *. cbn.
        rewrite filter_app, Hf, filter_cons, Hnew, Htimers. cbn.
        rewrite app_nil_r. exact Hn.
    + unfold polls_in_flight, polls_pending, power_queries. cbn.
      rewrite filter_app, Hf, filter_cons, Hnew, Htimers. cbn.
      rewrite app_nil_r, requests_app, Hreq, filter_app.
      rewrite (filter_cons_False _ r) by (destruct r; [contradiction|exact id..]).
      rewrite filter_nil, app_nil_r. auto.
Qed.

Lemma NoDup_fmap_filter {A B : Type} (f : A -> B) (P : A -> Prop)
    `{!forall x, Decision (P x)} (l : list A) :
  NoDup (f <$> l) -> NoDup (f <$> filter P l).
Proof.
  induction l as [|x l IH]; [intros; constructor|].
  rewrite fmap_cons, NoDup_cons. intros [Hx Hl].
  rewrite filter_cons. destruct (decide (P x)).
  - rewrite fmap_cons, NoDup_cons. split; [|auto].
    intros Hin. apply Hx. apply list_elem_of_fmap in Hin as (y & -> & Hy).
    apply list_elem_of_fmap. exists y. split; [reflexivity|].
    apply list_elem_of_filter in Hy. tauto.
  - auto.
Qed.

Lemma NoDup_fmap_eq {A B : Type} (f : A -> B) (l : list A) (x y : A) :
  NoDup (f <$> l) -> x ∈ l -> y ∈ l -> f x = f y -> x = y.
Proof.
  induction l as [|z l IH]; [intros _ Hx; inversion Hx|].
  rewrite fmap_cons, NoDup_cons. intros [Hz Hl] Hx Hy Hf.
  apply elem_of_cons in Hx as [->|Hx]; apply elem_of_cons in Hy as [->|Hy]; auto.
  - exfalso. apply Hz. rewrite Hf. apply list_elem_of_fmap. eauto.
  - exfalso. apply Hz. rewrite <- Hf. apply list_elem_of_fmap. eauto.
Qed.

Lemma length_le_1_eq {A : Type} (l : list A) (x y : A) :
  (length l <= 1)%nat -> x ∈ l -> y ∈ l -> x = y.
Proof.
  destruct l as [|a [|b l]]; cbn; intros Hl Hx Hy; [inversion Hx| |lia].
  apply list_elem_of_singleton in Hx, Hy. congruence.
Qed.

Lemma filter_iff_in {A : Type} (P1 P2 : A -> Prop) `{!forall x, Decision (P1 x)}
    `{!forall x, Decision (P2 x)} (l : list A) :
  (forall x, x ∈ l -> P1 x <-> P2 x) -> filter P1 l = filter P2 l.
Proof.
  induction l as [|x l IH]; [reflexivity|]. intros Hiff.
  assert (Hx : P1 x <-> P2 x) by (apply Hiff; left).
  rewrite !filter_cons, IH by (intros y Hy; apply Hiff; right; exact Hy).
  destruct (decide (P1 x)), (decide (P2 x)); tauto.
Qed.

Lemma length_filter_and {A : Type} (P Q : A -> Prop) `{!forall x, Decision (P x)}
    `{!forall x, Decision (Q x)} (l : list A) :
  (length (filter (fun x => P x /\ Q x) l) <= length (filter P l))%nat.
Proof.
  induction l as [|x l IH]; [reflexivity|].
  rewrite !filter_cons.
  destruct (decide (P x /\ Q x)) as [[Hp Hq]|Hpq]; destruct (decide (P x)) as [Hx|Hx];
    cbn; try lia.
  exfalso. exact (Hx Hp).
Qed.

Lemma poll_count_le (s : System) (a b : nat) :
  length (polls_in_flight s) = a -> (length (polls_pending s) <= b)%nat ->
  (a + b <= 1)%nat -> (poll_count s <= 1)%nat.
Proof. unfold poll_count. lia. Qed.

(** Taking a timer away keeps the system sound; it cannot add a poll. *)
Lemma sound_clear_timer (id : nat) (s : System) :
  sound s ->
  let s' := with_world (clear_timer id (world s)) s in
  sound s'
  /\ polls_in_flight s' = polls_in_flight s
  /\ (length (polls_pending s') <= length (polls_pending s))%nat
  /\ power_queries s' = power_queries s.
Proof.
  intros [Htm Hids Hc Hr Hn] s'.
  assert (Hfl : polls_in_flight s' = polls_in_flight s) by reflexivity.
  assert (Hle : (length (polls_pending s') <= length (polls_pending s))%nat).
  { unfold polls_pending.
    change (timers (world s')) with
      (filter (fun t => negb (timer_id t =? id)%nat) (timers (world s))).
    rewrite list_filter_filter. apply length_filter_and. }
  split; [|auto].
  constructor; [cbn..|].
  - apply Forall_forall. intros t Ht. apply list_elem_of_filter in Ht as [_ Ht].
    rewrite Forall_forall in Htm. exact (Htm t Ht).
  - apply NoDup_fmap_filter. exact Hids.
  - exact Hc.
  - exact Hr.
  - unfold poll_count in *. rewrite Hfl. lia.
Qed.

(** Starting the poll, with none under way: it sends its query and waits. *)
Lemma spawn_poll (t : Task unit) (s : System) :
  (forall w, exists k,
     run t w = {| after := w; emitted := [Sent GetPowerStatus]; history := [];
                  outcome := Awaiting GetPowerStatus k |}
     /\ resumes_poll k) ->
  sound s -> polls_in_flight s = [] -> polls_pending s = [] ->
  sound (spawn t s)
  /\ length (polls_in_flight (spawn t s)) = 1%nat
  /\ polls_pending (spawn t s) = []
  /\ length (power_queries (spawn t s)) = S (length (power_queries s)).
Proof.
  intros Hrun [Htm Hids Hc Hr Hn] Hfl0 Hpd0.
  destruct (Hrun (world s)) as (k & Hk & Hres).
  unfold spawn. rewrite Hk. cbn [outcome after emitted].
  set (s' := {| world := _ |}).
  assert (Hx : requests (trace s') = requests (trace s) ++ [GetPowerStatus]).
  { unfold s'. cbn. rewrite requests_app. reflexivity. }
  assert (Hle : (next_request s <= next_request s')%nat) by (cbn; lia).
  destruct (calls_later s s' _ (inflight s) Hc Hr Hx Hle) as [Hc' Hf].
  assert (Hnew : is_poll_call s' (next_request s, k) = true).
  { unfold is_poll_call, awaited. rewrite Hx. cbn [fst].
    rewrite lookup_app_r by lia. rewrite Hr, Nat.sub_diag. reflexivity. }
  assert (Hfl : length (polls_in_flight s') = 1%nat).
  { unfold polls_in_flight in *.
    change (inflight s') with (inflight s ++ [(next_request s, k)]).
    rewrite filter_app, Hf, length_app, Hfl0.
    rewrite filter_cons_True by (rewrite Hnew; exact I). reflexivity. }
  assert (Hpd : polls_pending s' = []) by exact Hpd0.
  split; [|split; [exact Hfl|split; [exact Hpd|]]].
  - constructor; [cbn..|].
    + exact Htm.
    + exact Hids.
    + apply Forall_app. split; [exact Hc'|]. constructor; [|constructor].
      split; [cbn; lia|]. rewrite Hnew. exact Hres.
    + rewrite requests_app, length_app. cbn. lia.
    + unfold poll_count. rewrite Hfl, Hpd. cbn. lia.
  - unfold power_queries. rewrite Hx, filter_app, length_app.
    rewrite filter_cons_True by exact I. cbn. lia.
Qed.

(** The rest of a poll, with no other poll around: it leaves the timer of
    the next one. *)
Lemma spawn_resume (k : HttpOutcome -> Task unit) (o : HttpOutcome) (s : System) :
  resumes_poll k -> sound s -> polls_in_flight s = [] -> polls_pending s = [] ->
  sound (spawn (k o) s)
  /\ polls_in_flight (spawn (k o) s) = []
  /\ length (polls_pending (spawn (k o) s)) = 1%nat
  /\ power_queries (spawn (k o) s) = power_queries s.
Proof.
  intros Hres [Htm Hids Hc Hr Hn] Hfl0 Hpd0.
  destruct (Hres o (world s)) as ([x Hx] & Hreq & [ms Htimers] & Hnext & Hh).
  unfold spawn. rewrite Hx.
  set (s' := {| world := _ |}).
  assert (Hx' : requests (trace s') = requests (trace s) ++ []).
  { unfold s'. cbn. rewrite requests_app, Hreq. reflexivity. }
  destruct (calls_later s s' [] (inflight s) Hc Hr Hx' (le_n _)) as [Hc' Hf].
  assert (Hfl : polls_in_flight s' = []).
  { unfold polls_in_flight in *. change (inflight s') with (inflight s).
    rewrite Hf. exact Hfl0. }
  assert (Hpd : length (polls_pending s') = 1%nat).
  { unfold polls_pending in *.
    change (timers (world s')) with (timers (after (run (k o) (world s)))).
    rewrite Htimers, filter_app, length_app, Hpd0.
    rewrite filter_cons_True by exact I. reflexivity. }
  split; [|split; [exact Hfl|split; [exact Hpd|]]].
  - unfold handles in Hh. injection Hh as H1 H2 H3.
    constructor; [cbn..|].
    + rewrite Htimers. apply Forall_app. split.
      * apply Forall_forall. intros t Ht.
        rewrite Forall_forall in Htm. destruct (Htm t Ht) as [Hid Hcb].
        split; [lia|]. destruct (timer_callback t) eqn:Hcbt.
        -- exfalso. assert (Hin : t ∈ polls_pending s).
           { apply list_elem_of_filter. split; [|exact Ht].
             unfold is_poll_timer. rewrite Hcbt. exact I. }
           rewrite Hpd0 in Hin. inversion Hin.
        -- rewrite H2, H3. exact Hcb.
      * constructor; [|constructor]. split; [cbn; lia|]. cbn.
        split; [reflexivity|exact H1].
    + rewrite Htimers, fmap_app. apply NoDup_app. split; [exact Hids|]. split.
      * intros i Hi Hi'. cbn in Hi'. apply list_elem_of_singleton in Hi'. subst i.
        apply list_elem_of_fmap in Hi as (t & Heq & Ht).
        rewrite Forall_forall in Htm. destruct (Htm t Ht) as [Hid _]. lia.
      * cbn. apply NoDup_singleton.
    + exact Hc'.
    + rewrite requests_app, Hreq, length_app. cbn. lia.
    + unfold poll_count. rewrite Hfl, Hpd. cbn. lia.
  - unfold power_queries. rewrite Hx', app_nil_r. reflexivity.
Qed.

(** ** What one event does to the poll *)

(** An event either leaves the poll where it is (and only the shutdown can
    take its timer away), or is the timer that starts it, or is the reply
    it waits for. *)

Lemma leaves_poll_refl (e : Event) (s : System) : leaves_poll e s s.
Proof. unfold leaves_poll. auto. Qed.

Lemma nil_of_length {A : Type} (l : list A) : length l = 0%nat -> l = [].
Proof. destruct l; [reflexivity|discriminate]. Qed.

Lemma sound_fire (s : System) (id : nat) :
  sound s ->
  let s' := step s (Fire id) in
  sound s' /\ (leaves_poll (Fire id) s s' \/ starts_poll (Fire id) s s').
Proof.
  intros Hs. cbn [step].
  destruct (List.find _ _) as [t|] eqn:Hfind;
    [|split; [exact Hs|left; apply leaves_poll_refl]].
  apply find_some in Hfind as [Hin Hid]. apply Nat.eqb_eq in Hid.
  apply list_elem_of_In in Hin.
  pose proof (sound_timers s Hs) as Htm. rewrite Forall_forall in Htm.
  destruct (Htm t Hin) as [_ Hcb].
  destruct (sound_clear_timer id s Hs) as (Hs1 & Hfl1 & Hpd1 & Hq1).
  pose proof (sound_count s Hs) as Hn. unfold poll_count in Hn.
  destruct (timer_callback t) eqn:Hcbt.
  - (* the poll's timer: one-shot, and the only poll around *)
    destruct Hcb as [Hrep _]. rewrite Hrep. cbn [callback_task].
    assert (Hpend : t ∈ polls_pending s).
    { apply list_elem_of_filter. split; [|exact Hin].
      unfold is_poll_timer. rewrite Hcbt. exact I. }
    assert (Hone : length (polls_pending s) = 1%nat).
    { destruct (polls_pending s); [inversion Hpend|]. cbn in *. lia. }
    assert (Hfl : polls_in_flight s = []).
    { apply nil_of_length. lia. }
    assert (Hnone : polls_pending (with_world (clear_timer id (world s)) s) = []).
    { apply filter_none. intros t' Ht' Hp'.
      apply list_elem_of_filter in Ht' as [Hne Ht'].
      assert (t' = t).
      { apply (length_le_1_eq (polls_pending s)); [lia| |exact Hpend].
        apply list_elem_of_filter. split; assumption. }
      subst t'. rewrite Hid, Nat.eqb_refl in Hne. exact Hne. }
    destruct (spawn_poll poll _ poll_first_segment Hs1 (eq_trans Hfl1 Hfl) Hnone)
      as (Hs2 & Hfl2 & Hpd2 & Hq2).
    split; [exact Hs2|]. right. unfold starts_poll.
    rewrite Hfl2, Hpd2, Hq2, Hq1. eauto 10.
  - (* a channel-map timer *)
    cbn [callback_task].
    assert (Hquiet : obeys no_timers (try_catch refreshChannelMap (fun _ => Ret tt))).
    { apply obeys_try_catch; [apply refreshChannelMap_no_timers|constructor]. }
    destruct (timer_repeats t).
    + replace (with_world (world s) s) with s by (destruct s; reflexivity).
      destruct (spawn_quiet _ s Hquiet Hs) as (Hs2 & Hfl2 & Hpd2 & Hq2).
      split; [exact Hs2|]. left. unfold leaves_poll.
      rewrite Hfl2, Hpd2, Hq2. auto.
    + destruct (spawn_quiet _ _ Hquiet Hs1) as (Hs2 & Hfl2 & Hpd2 & Hq2).
      split; [exact Hs2|]. left. unfold leaves_poll.
      rewrite Hfl2, Hpd2, Hq2, Hfl1, Hq1.
      assert (Hsame : polls_pending (with_world (clear_timer id (world s)) s)
                      = polls_pending s).
      { unfold polls_pending.
        change (timers (world (with_world (clear_timer id (world s)) s))) with
          (filter (fun t => negb (timer_id t =? id)%nat) (timers (world s))).
        rewrite list_filter_filter.
        apply filter_iff_in. intros t' Ht'. split; [tauto|].
        intros Hp'. split; [exact Hp'|].
        destruct (timer_id t' =? id)%nat eqn:E; [|exact I]. exfalso.
        apply Nat.eqb_eq in E.
        assert (t' = t).
        { apply (NoDup_fmap_eq timer_id (timers (world s)));
            [apply (sound_timer_ids s Hs)|assumption|assumption|congruence]. }
        subst t'. unfold is_poll_timer in Hp'. rewrite Hcbt in Hp'. exact Hp'. }
      rewrite Hsame. auto.
Qed.

Lemma sound_reply (s : System) (n : nat) (o : HttpOutcome) :
  sound s ->
  let s' := step s (Reply n o) in
  sound s' /\ (leaves_poll (Reply n o) s s' \/ resumes (Reply n o) s s').
Proof.
  intros Hs. cbn [step].
  destruct (List.find _ _) as [[n' k]|] eqn:Hfind;
    [|split; [exact Hs|left; apply leaves_poll_refl]].
  apply find_some in Hfind as [Hin Hid]. cbn in Hid. apply Nat.eqb_eq in Hid. subst n'.
  apply list_elem_of_In in Hin.
  destruct Hs as [Htm Hids Hc Hr Hn].
  set (s1 := {| world := world s;
                inflight := filter (fun p => negb (fst p =? n)%nat) (inflight s);
                next_request := next_request s; trace := trace s |}).
  assert (Hle : (length (polls_in_flight s1) <= length (polls_in_flight s))%nat).
  { unfold polls_in_flight.
    change (inflight s1) with (filter (fun p => negb (fst p =? n)%nat) (inflight s)).
    rewrite list_filter_filter.
    exact (length_filter_and (fun p => is_poll_call s p)
             (fun p => negb (fst p =? n)%nat) (inflight s)). }
  assert (Hpd1 : polls_pending s1 = polls_pending s) by reflexivity.
  assert (Hq1 : power_queries s1 = power_queries s) by reflexivity.
  assert (Hs1 : sound s1).
  { constructor; [cbn..|].
    - exact Htm.
    - exact Hids.
    - apply Forall_forall. intros p Hp. apply list_elem_of_filter in Hp as [_ Hp].
      rewrite Forall_forall in Hc. exact (Hc p Hp).
    - exact Hr.
    - unfold poll_count in *. rewrite Hpd1. lia. }
  rewrite Forall_forall in Hc. destruct (Hc (n, k) Hin) as [_ Hk].
  unfold poll_count in Hn.
  destruct (is_poll_call s (n, k)) eqn:Hpoll; cbn [snd] in Hk.
  - (* the reply to the poll's query *)
    assert (Hfl : (n, k) ∈ polls_in_flight s).
    { apply list_elem_of_filter. split; [rewrite Hpoll; exact I|exact Hin]. }
    assert (Hone : length (polls_in_flight s) = 1%nat).
    { destruct (polls_in_flight s); [inversion Hfl|]. cbn in *. lia. }
    assert (Hpend : polls_pending s = []).
    { apply nil_of_length. lia. }
    assert (Hnone : polls_in_flight s1 = []).
    { apply filter_none. intros p Hp Hpp.
      apply list_elem_of_filter in Hp as [Hne Hp].
      assert (p = (n, k)).
      { apply (length_le_1_eq (polls_in_flight s)); [lia| |exact Hfl].
        apply list_elem_of_filter. split; [exact Hpp|exact Hp]. }
      subst p. cbn in Hne. rewrite Nat.eqb_refl in Hne. exact Hne. }
    destruct (spawn_resume k o s1 Hk Hs1 Hnone (eq_trans Hpd1 Hpend))
      as (Hs2 & Hfl2 & Hpd2 & Hq2).
    split; [exact Hs2|]. right. unfold resumes.
    rewrite Hfl2, Hpd2, Hq2, Hq1. eauto 10.
  - (* the reply to another call *)
    destruct (spawn_quiet (k o) s1 (Hk o) Hs1) as (Hs2 & Hfl2 & Hpd2 & Hq2).
    split; [exact Hs2|]. left. unfold leaves_poll.
    rewrite Hfl2, Hpd2, Hq2, Hpd1, Hq1.
    assert (Hsame : polls_in_flight s1 = polls_in_flight s).
    { unfold polls_in_flight.
      change (inflight s1) with (filter (fun p => negb (fst p =? n)%nat) (inflight s)).
      rewrite list_filter_filter.
      apply filter_iff_in. intros p Hp. split; [tauto|].
      intros Hpp. split; [exact Hpp|].
      destruct (fst p =? n)%nat eqn:E; [|exact I]. exfalso.
      apply Nat.eqb_eq in E.
      unfold is_poll_call in Hpp, Hpoll. rewrite E in Hpp. cbn [fst] in Hpoll.
      rewrite Hpoll in Hpp. exact Hpp. }
    rewrite Hsame. auto.
Qed.

Lemma sound_shutdown (s : System) :
  sound s ->
  let s' := step s Shutdown in
  sound s' /\ leaves_poll Shutdown s s'.
Proof.
  intros Hs. cbn [step]. unfold shutdown.
  assert (Hkeep : forall (h : option nat) (s1 : System),
    sound s1 /\ polls_in_flight s1 = polls_in_flight s
      /\ (length (polls_pending s1) <= length (polls_pending s))%nat
      /\ power_queries s1 = power_queries s ->
    let s2 := with_world (match h with
                          | Some id => clear_timer id (world s1)
                          | None => world s1
                          end) s1 in
    sound s2 /\ polls_in_flight s2 = polls_in_flight s
      /\ (length (polls_pending s2) <= length (polls_pending s))%nat
      /\ power_queries s2 = power_queries s).
  { intros h s1 (Hs1 & Ha & Hb & Hc). destruct h as [id|].
    - destruct (sound_clear_timer id s1 Hs1) as (Hs2 & Ha2 & Hb2 & Hc2).
      split; [exact Hs2|]. rewrite Ha2, Hc2. split; [exact Ha|]. split; [lia|exact Hc].
    - replace (with_world (world s1) s1) with s1 by (destruct s1; reflexivity).
      cbn. auto. }
  pose proof (Hkeep (powerPollTimeout (this (world s))) s
                (conj Hs (conj eq_refl (conj (le_n _) eq_refl)))) as H1.
  cbn zeta in H1.
  match type of H1 with sound ?x /\ _ => set (s1 := x) in H1 end.
  pose proof (Hkeep (channelMapTimeout (this (world s1))) s1 H1) as H2.
  cbn zeta in H2.
  match type of H2 with sound ?x /\ _ => set (s2 := x) in H2 end.
  pose proof (Hkeep (channelMapInterval (this (world s2))) s2 H2) as H3.
  cbn zeta in H3.
  destruct H3 as (Hs3 & Ha & Hb & Hc). split; [exact Hs3|].
  unfold leaves_poll. split; [exact Ha|]. split; [exact Hb|].
  split; [intros H; contradiction|exact Hc].
Qed.

Lemma set_handlers_no_timers :
  (forall v, obeys no_timers (on_set_Active v))
  /\ (forall x, obeys no_timers (on_set_ActiveIdentifier x)).
Proof.
  split; intros; apply obeys_try_catch;
    first [apply setPower_no_timers | apply selectIdentifier_no_timers | idtac];
    intros; repeat constructor.
Qed.

Lemma sound_step (s : System) (e : Event) :
  sound s ->
  sound (step s e)
  /\ (leaves_poll e s (step s e) \/ starts_poll e s (step s e) \/ resumes e s (step s e)).
Proof.
  intros Hs. destruct e as [ms|n o|id| |v|x].
  - split; [|left; exact (leaves_poll_refl (Elapse ms) s)].
    destruct Hs as [Htm Hids Hc Hr Hn].
    constructor; [exact Htm|exact Hids|exact Hc|exact Hr|exact Hn].
  - destruct (sound_reply s n o Hs) as [H1 [H2|H2]]; auto.
  - destruct (sound_fire s id Hs) as [H1 [H2|H2]]; auto.
  - destruct (sound_shutdown s Hs) as [H1 H2]; auto.
  - destruct (spawn_quiet _ s (proj1 set_handlers_no_timers v) Hs) as (H1 & H2 & H3 & H4).
    cbn [step]. split; [exact H1|]. left. unfold leaves_poll.
    rewrite H2, H3, H4. auto.
  - destruct (spawn_quiet _ s (proj2 set_handlers_no_timers x) Hs) as (H1 & H2 & H3 & H4).
    cbn [step]. split; [exact H1|]. left. unfold leaves_poll.
    rewrite H2, H3, H4. auto.
Qed.

Lemma sound_construct (dbg : bool) (nm source : jsstring) (interval : Z)
    (favourites : list Favourite) (services : list Service) (clock : Z) :
  let s := construct dbg nm source interval favourites services clock in
  sound s /\ length (polls_in_flight s) = 1%nat /\ polls_pending s = []
  /\ power_queries s = [GetPowerStatus].
Proof.
  intros s.
  assert (Hreq : requests (trace s) = [GetPowerStatus]).
  { unfold s, construct. cbn. destruct dbg; reflexivity. }
  assert (Hfl : length (polls_in_flight s) = 1%nat).
  { unfold polls_in_flight, is_poll_call, awaited. rewrite Hreq. reflexivity. }
  assert (Hpd : polls_pending s = []) by reflexivity.
  split; [|split; [exact Hfl|split; [exact Hpd|]]].
  - constructor.
    + cbn. constructor; [split; [cbn; lia|left; reflexivity]|].
      constructor; [split; [cbn; lia|right; reflexivity]|constructor].
    + cbn. apply NoDup_cons. split; [|apply NoDup_singleton].
      intros H. apply list_elem_of_singleton in H. discriminate H.
    + cbn. constructor; [|constructor]. split; [cbn; lia|].
      unfold is_poll_call, awaited. rewrite Hreq. cbn [fst lookup].
      cbn. intros o w. cbn. destruct (rpc_result o) as [e|resp]; cbn.
      * destruct (debug (this w)); cbn; eauto 10.
      * destruct (bool_decide _); cbn; eauto 10.
    + rewrite Hreq. reflexivity.
    + unfold poll_count. rewrite Hfl, Hpd. cbn. lia.
  - unfold power_queries. rewrite Hreq. reflexivity.
Qed.

Lemma poll_count_step (s : System) (e : Event) :
  sound s ->
  (poll_count (step s e) <= poll_count s)%nat
  /\ (e <> Shutdown -> poll_count (step s e) = poll_count s).
Proof.
  intros Hs. unfold poll_count.
  destruct (sound_step s e Hs) as [_ [H|[H|H]]].
  - destruct H as (H1 & H2 & H3 & _). rewrite H1. split; [lia|].
    intros Hne. rewrite (H3 Hne). reflexivity.
  - destruct H as (_ & H1 & H2 & H3 & H4 & _). rewrite H1, H2, H3, H4. cbn. split; lia.
  - destruct H as (_ & H1 & H2 & H3 & H4 & _). rewrite H1, H2, H3, H4. cbn. split; lia.
Qed.

Lemma sound_steps (s : System) (es : list Event) :
  sound s ->
  sound (steps s es)
  /\ (poll_count (steps s es) <= poll_count s)%nat
  /\ (Shutdown ∉ es -> poll_count (steps s es) = poll_count s).
Proof.
  revert s. induction es as [|e es IH]; intros s Hs.
  - cbn. auto.
  - change (steps s (e :: es)) with (steps (step s e) es).
    destruct (sound_step s e Hs) as (Hs1 & _).
    destruct (poll_count_step s e Hs) as (Hle & Heq).
    destruct (IH _ Hs1) as (Hs2 & Hle2 & Heq2).
    split; [exact Hs2|]. split; [lia|].
    intros Hno. rewrite Heq2, Heq; [reflexivity| |].
    + intros ->. apply Hno. left.
    + intros Hin. apply Hno. right. exact Hin.
Qed.

(** X1. However the events fall, shutdown included, the controller never
    has two polls going: the power queries waiting for a reply and the
    timers waiting to start the next poll are together at most one. *)
Theorem poll_never_doubles :
  forall (dbg : bool) (nm source : jsstring) (interval : Z)
         (favourites : list Favourite) (services : list Service) (clock : Z)
         (es : list Event),
    let s := steps (construct dbg nm source interval favourites services clock) es in
    (length (polls_in_flight s) + length (polls_pending s) <= 1)%nat.
Proof.
  intros dbg nm source interval favourites services clock es s.
  destruct (sound_construct dbg nm source interval favourites services clock)
    as (H0 & _).
  destruct (sound_steps _ es H0) as (Hs & _ & _).
  exact (sound_count _ Hs).
Qed.

(** X2. Until the host shuts down, the poll loop neither dies nor doubles:
    after any events, exactly one poll is either waiting for the reply to
    its power query or waiting on its timer. *)
Theorem poll_keeps_going_until_shutdown :
  forall (dbg : bool) (nm source : jsstring) (interval : Z)
         (favourites : list Favourite) (services : list Service) (clock : Z)
         (es : list Event),
    Shutdown ∉ es ->
    let s := steps (construct dbg nm source interval favourites services clock) es in
    (length (polls_in_flight s) + length (polls_pending s) = 1)%nat.
Proof.
  intros dbg nm source interval favourites services clock es Hno s.
  destruct (sound_construct dbg nm source interval favourites services clock)
    as (H0 & H1 & H2 & _).
  destruct (sound_steps _ es H0) as (_ & _ & Heq).
  fold (poll_count s). unfold s. rewrite (Heq Hno).
  unfold poll_count. rewrite H1, H2. reflexivity.
Qed.

Lemma poll_keeps_going_witness :
  (Shutdown ∉ an_evening)
  /\ (length (polls_in_flight (steps fresh an_evening))
      + length (polls_pending (steps fresh an_evening)) = 1)%nat.
Proof.
  split.
  - intros H. repeat (apply elem_of_cons in H as [H|H]; [discriminate H|]).
    inversion H.
  - apply (poll_keeps_going_until_shutdown false (js "TV") (js "tv:dvbt") 5000
             three_favourites [information] 100000).
    intros H. repeat (apply elem_of_cons in H as [H|H]; [discriminate H|]).
    inversion H.
Defined.

Lemma shutdown_timers (w : World) (t : Timer) :
  t ∈ timers (shutdown w) ->
  t ∈ timers w /\ Some (timer_id t) ∉ handles (this w).
Proof.
  unfold shutdown, handles.
  destruct (powerPollTimeout (this w)) as [a|] eqn:Ha;
    destruct (channelMapTimeout (this w)) as [b|] eqn:Hb;
    destruct (channelMapInterval (this w)) as [c|] eqn:Hc; cbn;
    rewrite ?Ha, ?Hb, ?Hc; cbn; rewrite ?Hb, ?Hc; cbn; rewrite ?Hc; cbn;
    rewrite ?list_elem_of_filter; intros H;
    repeat match goal with
           | H : _ /\ _ |- _ => destruct H
           | H : Is_true (negb (_ =? _)%nat) |- _ =>
               apply negb_prop_elim in H; rewrite Is_true_true, Nat.eqb_eq in H
           end;
    (split; [assumption|]);
    rewrite ?elem_of_cons, elem_of_nil; intros Hin;
    repeat match goal with
           | H : _ \/ _ |- _ => destruct H
           | H : Some _ = Some _ |- _ => injection H as H
           | H : Some _ = None |- _ => discriminate H
           end; auto.
Qed.

Lemma sound_shutdown_timers (s : System) :
  sound s -> timers (world (step s Shutdown)) = [].
Proof.
  intros Hs. cbn [step with_world world].
  destruct (timers (shutdown (world s))) as [|t l] eqn:E; [reflexivity|]. exfalso.
  assert (Hin : t ∈ timers (shutdown (world s))) by (rewrite E; left).
  apply shutdown_timers in Hin as [Hin Hno].
  pose proof (sound_timers s Hs) as Htm. rewrite Forall_forall in Htm.
  destruct (Htm t Hin) as [_ Hcb]. apply Hno. unfold handles.
  destruct (timer_callback t).
  - destruct Hcb as [_ ->]. left.
  - destruct Hcb as [-> | ->]; [right; left|right; right; left].
Qed.

(** X3. The shutdown handler leaves no timer pending: whatever happened
    before, every timer there is at that moment is one whose handle the
    controller holds, and the handler clears them all. *)
Theorem shutdown_cancels_every_timer :
  forall (dbg : bool) (nm source : jsstring) (interval : Z)
         (favourites : list Favourite) (services : list Service) (clock : Z)
         (es : list Event),
    let s := steps (construct dbg nm source interval favourites services clock) es in
    timers (world (step s Shutdown)) = [].
Proof.
  intros dbg nm source interval favourites services clock es s.
  destruct (sound_construct dbg nm source interval favourites services clock) as [H0 _].
  destruct (sound_steps _ es H0) as (Hs & _ & _).
  apply sound_shutdown_timers. exact Hs.
Qed.

Lemma idle_steps (s : System) (es : list Event) :
  sound s -> polls_in_flight s = [] -> polls_pending s = [] ->
  power_queries (steps s es) = power_queries s.
Proof.
  revert s. induction es as [|e es IH]; intros s Hs Hfl Hpd; [reflexivity|].
  change (steps s (e :: es)) with (steps (step s e) es).
  destruct (sound_step s e Hs) as [Hs1 [H|[H|H]]].
  - destruct H as (H1 & H2 & _ & H4). rewrite IH; [exact H4|exact Hs1| |].
    + rewrite H1. exact Hfl.
    + apply nil_of_length. rewrite Hpd in H2. cbn in H2. lia.
  - destruct H as (_ & _ & H2 & _). rewrite Hpd in H2. discriminate H2.
  - destruct H as (_ & H1 & _). rewrite Hfl in H1. discriminate H1.
Qed.

(** X4. A shutdown that falls between two polls ends the polling for good:
    when no power query is waiting for its reply at that moment, no power
    query is sent ever after, whatever events follow. *)
Theorem shutdown_between_polls_ends_polling :
  forall (dbg : bool) (nm source : jsstring) (interval : Z)
         (favourites : list Favourite) (services : list Service) (clock : Z)
         (es later : list Event),
    let s := steps (construct dbg nm source interval favourites services clock) es in
    polls_in_flight s = [] ->
    power_queries (steps s (Shutdown :: later)) = power_queries s.
Proof.
  intros dbg nm source interval favourites services clock es later s Hfl.
  destruct (sound_construct dbg nm source interval favourites services clock) as [H0 _].
  destruct (sound_steps _ es H0) as (Hs & _ & _). fold s in Hs.
  change (steps s (Shutdown :: later)) with (steps (step s Shutdown) later).
  destruct (sound_shutdown s Hs) as (Hs1 & H1 & _ & _ & H4). cbn zeta in *.
  rewrite idle_steps; [exact H4|exact Hs1| |].
  - rewrite H1. exact Hfl.
  - unfold polls_pending. rewrite (sound_shutdown_timers s Hs). reflexivity.
Qed.

Lemma shutdown_between_polls_witness :
  polls_in_flight (steps fresh [Reply 0 (status_reply "active")]) = []
  /\ power_queries (steps (steps fresh [Reply 0 (status_reply "active")])
                      [Shutdown; Fire 2; Elapse 5000; SetActive true; Fire 1])
     = power_queries (steps fresh [Reply 0 (status_reply "active")]).
Proof.
  split; [vm_compute; reflexivity|].
  apply (shutdown_between_polls_ends_polling false (js "TV") (js "tv:dvbt") 5000
           three_favourites [information] 100000).
  vm_compute. reflexivity.
Defined.



Lemma run_bind {A B : Type} (t : Task A) (f : A -> Task B) (w : World) :
  run (bind t f) w =
    let r := run t w in
    match outcome r with
    | Finished (inr a) =>
        let r' := run (f a) (after r) in
        {| after := after r'; emitted := emitted r ++ emitted r';
           history := history r ++ history r'; outcome := outcome r' |}
    | Finished (inl e) =>
        {| after := after r; emitted := emitted r; history := history r;
           outcome := Finished (inl e) |}
    | Awaiting rq k =>
        {| after := after r; emitted := emitted r; history := history r;
           outcome := Awaiting rq (fun o => bind (k o) f) |}
    end.
Proof.
  revert w. induction t as [a|e|k IH|g k IH|o k IH|k IH|cb ms k IH|rq k IH];
    intros w; cbn.
  - destruct (run (f a) w); reflexivity.
  - reflexivity.
  - apply IH.
  - rewrite IH. cbn. destruct (run k _) as [w' em hi [[e|a]|rq k']]; reflexivity.
  - rewrite IH. cbn. destruct (run k _) as [w' em hi [[e|a]|rq k']]; reflexivity.
  - apply IH.
  - apply IH.
  - reflexivity.
Qed.

Lemma run_try_catch {A : Type} (t : Task A) (h : Error -> Task A) (w : World) :
  run (try_catch t h) w =
    let r := run t w in
    match outcome r with
    | Finished (inr a) => r
    | Finished (inl e) =>
        let r' := run (h e) (after r) in
        {| after := after r'; emitted := emitted r ++ emitted r';
           history := history r ++ history r'; outcome := outcome r' |}
    | Awaiting rq k =>
        {| after := after r; emitted := emitted r; history := history r;
           outcome := Awaiting rq (fun o => try_catch (k o) h) |}
    end.
Proof.
  revert w. induction t as [a|e|k IH|g k IH|o k IH|k IH|cb ms k IH|rq k IH];
    intros w; cbn.
  - reflexivity.
  - destruct (run (h e) w); reflexivity.
  - apply IH.
  - rewrite IH. cbn. destruct (run k _) as [w' em hi [[e|a]|rq k']]; reflexivity.
  - rewrite IH. cbn. destruct (run k _) as [w' em hi [[e|a]|rq k']]; reflexivity.
  - apply IH.
  - apply IH.
  - reflexivity.
Qed.

Lemma content_queries_app (a b : list Output) :
  content_queries (a ++ b) = content_queries a ++ content_queries b.
Proof. unfold content_queries. rewrite requests_app. apply filter_app. Qed.

Lemma instant_calm {A : Type} (t : Task A) : obeys instant t -> obeys calm t.
Proof. induction 1; constructor; auto. contradiction. Qed.

Lemma calm_quiet {A : Type} (t : Task A) (w : World) :
  obeys calm t ->
  content_queries (emitted (run t w)) = []
  /\ lastChannelMapMs (this (after (run t w))) = lastChannelMapMs (this w).
Proof.
  intros Ht. split.
  - unfold content_queries.
    rewrite (run_requests calm t w Ht (fun o H => H)).
    destruct (outcome (run t w)) as [x|rq k] eqn:E; [reflexivity|].
    destruct (run_awaiting calm t w rq k Ht E) as [Hp _]. cbn in Hp.
    rewrite filter_cons_False by (rewrite Hp; exact id). reflexivity.
  - apply (run_keeps calm lastChannelMapMs t w Ht). intros f Hf. exact Hf.
Qed.

Lemma calm_throttled {A : Type} (t : Task A) : obeys calm t -> throttled t.
Proof.
  intros Ht w. split.
  - intros rq k E. exact (proj2 (run_awaiting calm t w rq k Ht E)).
  - left. apply calm_quiet. exact Ht.
Qed.

Lemma instant_finishes {A : Type} (t : Task A) (w : World) :
  obeys instant t -> exists x, outcome (run t w) = Finished x.
Proof.
  intros Ht. destruct (outcome (run t w)) as [x|rq k] eqn:E; [eauto|].
  destruct (run_awaiting instant t w rq k Ht E) as [[] _].
Qed.

Lemma throttled_bind {A B : Type} (t : Task A) (f : A -> Task B) :
  throttled t -> (forall a, obeys calm (f a)) -> throttled (bind t f).
Proof.
  intros Ht Hf w. destruct (Ht w) as [Hk Hcase]. cbn zeta in *.
  rewrite run_bind. cbn zeta.
  destruct (outcome (run t w)) as [[e|a]|rq k] eqn:E; cbn [after emitted outcome history].
  - split; [discriminate|]. destruct Hcase as [H|(_ & _ & _ & rq & k & H)];
      [left; exact H|discriminate H].
  - destruct (calm_quiet (f a) (after (run t w)) (Hf a)) as [Hq Hl].
    split.
    + intros rq k E' o. exact (proj2 (run_awaiting calm _ _ rq k (Hf a) E') o).
    + destruct Hcase as [[H1 H2]|(_ & _ & _ & rq & k & H)]; [|discriminate H].
      left. rewrite content_queries_app, H1, Hq, Hl, H2. auto.
  - split.
    + intros rq' k' [= <- <-] o. apply obeys_bind; [apply (Hk rq k eq_refl)|exact Hf].
    + destruct Hcase as [H|(H1 & H2 & H3 & _)]; [left; exact H|].
      right. eauto 10.
Qed.

Lemma throttled_try_catch {A : Type} (t : Task A) (h : Error -> Task A) :
  throttled t -> (forall e, obeys calm (h e)) -> throttled (try_catch t h).
Proof.
  intros Ht Hh w. destruct (Ht w) as [Hk Hcase]. cbn zeta in *.
  rewrite run_try_catch. cbn zeta.
  destruct (outcome (run t w)) as [[e|a]|rq k] eqn:E; cbn [after emitted outcome history].
  - destruct (calm_quiet (h e) (after (run t w)) (Hh e)) as [Hq Hl].
    split.
    + intros rq k E' o. exact (proj2 (run_awaiting calm _ _ rq k (Hh e) E') o).
    + destruct Hcase as [[H1 H2]|(_ & _ & _ & rq & k & H)]; [|discriminate H].
      left. rewrite content_queries_app, H1, Hq, Hl, H2. auto.
  - split; [rewrite E; discriminate|].
    destruct Hcase as [H|(_ & _ & _ & rq & k & H)]; [left; exact H|discriminate H].
  - split.
    + intros rq' k' [= <- <-] o.
      apply obeys_try_catch; [apply (Hk rq k eq_refl)|exact Hh].
    + destruct Hcase as [H|(H1 & H2 & H3 & _)]; [left; exact H|].
      right. eauto 10.
Qed.

Lemma throttled_after_instant {A B : Type} (t : Task A) (f : A -> Task B) :
  obeys instant t -> (forall a, throttled (f a)) -> throttled (bind t f).
Proof.
  intros Ht Hf w. rewrite run_bind. cbn zeta.
  destruct (instant_finishes t w Ht) as [x Hx]. rewrite Hx.
  destruct (calm_quiet t w (instant_calm t Ht)) as [Hq Hl].
  destruct x as [e|a]; cbn [after emitted outcome history].
  - split; [discriminate|]. left. auto.
  - destruct (Hf a (after (run t w))) as [Hk Hcase]. cbn zeta in *.
    rewrite content_queries_app, Hq, Hl, run_now in *. cbn [app].
    split; [exact Hk|exact Hcase].
Qed.

Lemma refreshChannelMap_throttled : throttled refreshChannelMap.
Proof.
  intros w. unfold refreshChannelMap. cbn.
  match goal with |- context [(?a <? ?b)%Z] => destruct (a <? b)%Z eqn:Hg end; cbn.
  - split; [discriminate|]. left. auto.
  - apply Z.ltb_ge in Hg. split.
    + intros rq k [= <- <-] o. destruct (rpc_result o) as [e|resp]; cbn; [constructor|].
      destruct (content_list resp); cbn; obey.
    + right. split; [eauto|]. split; [lia|]. split; [reflexivity|eauto].
Qed.

Lemma tuneChannel_throttled (ch : jsstring) : throttled (tuneChannel ch).
Proof.
  unfold tuneChannel, read, assign, emit, mbind, Task_bind.
  apply throttled_bind.
  - apply throttled_try_catch; [apply refreshChannelMap_throttled|constructor].
  - intros _. obey.
Qed.

Lemma selectIdentifier_throttled (x : JSNum) : throttled (selectIdentifier x).
Proof.
  unfold selectIdentifier, read, assign, emit, mbind, Task_bind.
  apply throttled_after_instant; [obey|]. intros _.
  apply throttled_after_instant; [obey|]. intros _.
  apply throttled_after_instant; [obey|]. intros c.
  destruct (channel_of c (or_zero x)); [|apply calm_throttled; constructor].
  destruct (bool_decide _); [apply calm_throttled; constructor|].
  apply throttled_after_instant; [obey|]. intros _. apply tuneChannel_throttled.
Qed.

Lemma poll_calm : obeys calm poll.
Proof.
  unfold poll, try_finally, getPowerStatus, read, assign, emit, mbind, Task_bind.
  obey.
Qed.

Lemma setPower_calm (on : bool) : obeys calm (setPower on).
Proof. unfold setPower, read, assign, emit, mbind, Task_bind. obey. Qed.

Lemma spawn_trace (t : Task unit) (s : System) :
  trace (spawn t s) = trace s ++ emitted (run t (world s))
  /\ world (spawn t s) = after (run t (world s)).
Proof. unfold spawn. destruct (outcome (run t (world s))); auto. Qed.

Lemma spawn_calm_calls (t : Task unit) (s : System) :
  throttled t -> calm_calls s -> calm_calls (spawn t s).
Proof.
  intros Ht Hs. destruct (Ht (world s)) as [Hk _]. cbn zeta in Hk.
  unfold spawn, calm_calls in *.
  destruct (outcome (run t (world s))) as [x|rq k]; cbn; [exact Hs|].
  apply Forall_app. split; [exact Hs|]. constructor; [|constructor].
  exact (Hk rq k eq_refl).
Qed.

Lemma throttle_spawn (t : Task unit) (s0 s : System) (e : Event) :
  throttled t -> calm_calls s ->
  step s0 e = spawn t s ->
  trace s = trace s0 ->
  lastChannelMapMs (this (world s)) = lastChannelMapMs (this (world s0)) ->
  now (world s) = now (world s0) ->
  calm_calls (step s0 e) /\ throttle_step s0 e.
Proof.
  intros Ht Hs Hstep Htr Hl Hn. unfold throttle_step, step_outputs. rewrite Hstep.
  split; [apply spawn_calm_calls; assumption|].
  destruct (spawn_trace t s) as [-> ->]. rewrite Htr, drop_app_length.
  destruct (Ht (world s)) as [_ Hcase]. cbn zeta in Hcase.
  rewrite Hl, Hn in Hcase.
  destruct Hcase as [H|(H1 & H2 & H3 & _)]; [left; exact H|right; auto].
Qed.

Lemma throttle_none (s : System) (e : Event) :
  trace (step s e) = trace s ->
  lastChannelMapMs (this (world (step s e))) = lastChannelMapMs (this (world s)) ->
  throttle_step s e.
Proof.
  intros Htr Hl. left. unfold step_outputs. rewrite Htr, drop_all. auto.
Qed.

Lemma shutdown_this (w : World) : this (shutdown w) = this w.
Proof.
  unfold shutdown.
  destruct (powerPollTimeout (this w)); cbn;
    destruct (channelMapTimeout (this w)); cbn;
    destruct (channelMapInterval (this w)); reflexivity.
Qed.

Lemma calm_step (s : System) (e : Event) :
  calm_calls s -> calm_calls (step s e) /\ throttle_step s e.
Proof.
  intros Hs. destruct e as [ms|n o|id| |v|x].
  - split; [exact Hs|]. apply throttle_none; reflexivity.
  - destruct (List.find (fun p => (fst p =? n)%nat) (inflight s))
      as [[n' k]|] eqn:Hfind.
    + pose proof Hfind as Hfound.
      apply find_some in Hfind as [Hin _]. apply list_elem_of_In in Hin.
      unfold calm_calls in Hs. rewrite Forall_forall in Hs.
      eapply (throttle_spawn (k o) s _ (Reply n o)); [|
        |cbn [step]; rewrite Hfound; reflexivity|reflexivity..].
      * apply calm_throttled. exact (Hs (n', k) Hin o).
      * unfold calm_calls. cbn. apply Forall_forall. intros p Hp.
        apply list_elem_of_filter in Hp as [_ Hp]. exact (Hs p Hp).
    + split; [cbn [step]; rewrite Hfind; exact Hs|].
      apply throttle_none; cbn [step]; rewrite Hfind; reflexivity.
  - destruct (List.find (fun t => (timer_id t =? id)%nat) (timers (world s)))
      as [t|] eqn:Hfind.
    + eapply (throttle_spawn (callback_task (timer_callback t)) s _ (Fire id));
        [| |cbn [step]; rewrite Hfind; reflexivity|reflexivity|..].
      * destruct (timer_callback t); cbn [callback_task].
        -- apply calm_throttled, poll_calm.
        -- apply throttled_try_catch; [apply refreshChannelMap_throttled|constructor].
      * exact Hs.
      * destruct (timer_repeats t); reflexivity.
      * destruct (timer_repeats t); reflexivity.
    + split; [cbn [step]; rewrite Hfind; exact Hs|].
      apply throttle_none; cbn [step]; rewrite Hfind; reflexivity.
  - split; [exact Hs|]. apply throttle_none; [reflexivity|].
    cbn. rewrite shutdown_this. reflexivity.
  - eapply (throttle_spawn (on_set_Active v) s _ (SetActive v));
      [|exact Hs|reflexivity..].
    apply calm_throttled. apply obeys_try_catch; [apply setPower_calm|].
    intros. repeat constructor.
  - eapply (throttle_spawn (on_set_ActiveIdentifier x) s _ (SetActiveIdentifier x));
      [|exact Hs|reflexivity..].
    apply throttled_try_catch; [apply selectIdentifier_throttled|].
    intros. repeat constructor.
Qed.

Lemma spaced_steps (s : System) (es : list Event) :
  calm_calls s ->
  spaced (lastChannelMapMs (this (world s))) (content_query_times s es).
Proof.
  revert s. induction es as [|e es IH]; intros s Hs; [exact I|].
  destruct (calm_step s e Hs) as [Hs' Hcase]. specialize (IH _ Hs').
  cbn [content_query_times].
  destruct Hcase as [[H1 H2]|([source H1] & H2 & H3)]; rewrite H1; cbn.
  - rewrite <- H2. exact IH.
  - split; [exact H2|]. rewrite <- H3. exact IH.
Qed.

(** X6. The television is asked for its channel list at most once a minute,
    whoever asks: however the timers, the selections of an input and the
    replies fall, the readings of the clock at which the content-list
    requests go out are each at least 60 seconds after the one before. *)
Theorem content_list_requests_a_minute_apart :
  forall (dbg : bool) (nm source : jsstring) (interval : Z)
         (favourites : list Favourite) (services : list Service) (clock : Z)
         (es : list Event),
    spaced 0 (content_query_times
                (construct dbg nm source interval favourites services clock) es).
Proof.
  intros dbg nm source interval favourites services clock es.
  apply (spaced_steps (construct dbg nm source interval favourites services clock)).
  unfold calm_calls. cbn. constructor; [|constructor]. cbn. intros o.
  destruct (rpc_result o) as [e|resp]; cbn; obey.
Qed.

(** ** The [set] handlers *)

Lemma feed_finished {A : Type} (r : Run A) (os : list HttpOutcome) (x : Error + A) :
  outcome r = Finished x -> feed r os = r.
Proof. intros H. destruct os; cbn; [reflexivity|]. rewrite H. reflexivity. Qed.

Lemma set_Active_run (value : bool) (o : HttpOutcome) (w : World) :
  let r := feed (run (on_set_Active value) w) [o] in
  outcome r = Finished (inr tt)
  /\ requests (emitted r) = [SetPowerStatus value]
  /\ match rpc_result o with
     | inr _ =>
         this (after r) = set_power value (this w)
         /\ updates Active (emitted r) = [bit value]
     | inl _ =>
         this (after r) = this w
         /\ updates Active (emitted r) = []
         /\ Log SetPowerError ∈ emitted r
     end.
Proof.
  unfold on_set_Active, setPower. cbn.
  destruct (debug (this w)); cbn; destruct (rpc_result o) as [e|v]; cbn;
    repeat split; try reflexivity; set_solver.
Qed.

(** X7. The [set] handler of [Active] always tells the host that the write
    went through. It sends one set-power request; when that succeeds the
    power state is the value written and the host is told so, and when it
    fails the error is logged, the power state stays as it was and nothing
    is pushed. *)
Theorem set_Active_always_reports_success :
  forall (value : bool) (o : HttpOutcome) (w : World),
    let r := feed (run (on_set_Active value) w) [o] in
    outcome r = Finished (inr tt)
    /\ requests (emitted r) = [SetPowerStatus value]
    /\ match rpc_result o with
       | inr _ =>
           this (after r) = set_power value (this w)
           /\ updates Active (emitted r) = [bit value]
       | inl _ =>
           this (after r) = this w
           /\ updates Active (emitted r) = []
           /\ Log SetPowerError ∈ emitted r
       end.
Proof. intros value o w. apply set_Active_run. Qed.

Ltac crunch :=
  repeat first
    [ progress cbn -[num_to_string string_to_number build_map]
    | match goal with
      | |- context [bool_decide (?a = ?a)] =>
          rewrite (bool_decide_eq_true_2 (a = a) eq_refl)
      | |- context [when ?b _] => destruct b eqn:?
      | |- context [if negb ?b then _ else _] => destruct b eqn:?
      | |- context [if ?b then _ else _] => destruct b eqn:?
      | |- context [match rpc_result ?o with _ => _ end] => destruct (rpc_result o) eqn:?
      | |- context [match content_list ?o with _ => _ end] => destruct (content_list o) eqn:?
      | |- context [match channel_of ?c ?x with _ => _ end] => destruct (channel_of c x) eqn:?
      end ].

(** X8. A selection is recorded whatever follows. The [set] handler of
    [ActiveIdentifier] stores the identifier and pushes it to the host before
    anything else, and nothing undoes that: after any number of replies the
    stored identifier is the one selected, it was pushed exactly once, and the
    handler has not failed, also when the tuning did. It sends at most one
    content-list request and one play request, in that order, and is over
    after two replies at most. *)
Theorem selection_is_recorded_whatever_follows :
  forall (x : JSNum) (w : World) (os : list HttpOutcome),
    let r := feed (run (on_set_ActiveIdentifier x) w) os in
    activeIdentifier (this (after r)) = or_zero x
    /\ updates ActiveIdentifier (emitted r) = [or_zero x]
    /\ (forall e, outcome r <> Finished (inl e))
    /\ ((2 <= length os)%nat -> outcome r = Finished (inr tt))
    /\ exists uri, requests (emitted r)
                   `sublist_of` [GetContentList (tvsource (this w)); SetPlayContent uri].
Proof.
  intros x w os.
  unfold on_set_ActiveIdentifier, selectIdentifier, tuneChannel, refreshChannelMap,
    mbind, Task_bind, assign, emit, read.
  destruct os as [|o1 [|o2 os]]; cbn [feed]; crunch;
    try (erewrite feed_finished by reflexivity; crunch);
    (split; [reflexivity|]); (split; [reflexivity|]);
    (split; [intros; discriminate|]);
    (split; [first [intros; reflexivity | intros; cbn in *; lia]|]);
    first [ exists VUndefined; solve [repeat constructor]
          | eexists; solve [repeat constructor] ].
Qed.


Lemma rpc_result_ok (o : HttpOutcome) (v : Value) :
  rpc_result o = inr v
  <-> exists statusCode, o = Response statusCode (Json v) /\ (statusCode < 400)%Z.
Proof.
  unfold rpc_result. split.
  - destruct o as [|statusCode body]; [discriminate|].
    destruct (negb (statusCode =? 0)%Z && (400 <=? statusCode)%Z) eqn:E; [discriminate|].
    destruct body as [|v']; [discriminate|]. intros [= ->].
    exists statusCode. split; [reflexivity|].
    apply andb_false_iff in E as [E|E].
    + apply negb_false_iff, Z.eqb_eq in E. lia.
    + apply Z.leb_gt in E. exact E.
  - intros (statusCode & -> & Hlt).
    replace (400 <=? statusCode)%Z with false by (symmetry; apply Z.leb_gt; exact Hlt).
    rewrite andb_false_r. reflexivity.
Qed.

(** X10. A reply counts as success by its status and its syntax alone: a
    call succeeds exactly when the reply has a status below 400 and a body
    that is JSON, whatever the JSON says. So a write to [Active] that the
    television answers with such a reply, an error object included, sets the
    power state to the value written and tells the host so. *)
Theorem reply_content_is_not_examined :
  forall (value : bool) (statusCode : Z) (body : Value) (w : World),
    (statusCode < 400)%Z ->
    let r := feed (run (on_set_Active value) w) [Response statusCode (Json body)] in
    (forall (o : HttpOutcome) (v : Value),
       rpc_result o = inr v
       <-> exists status, o = Response status (Json v) /\ (status < 400)%Z)
    /\ power (this (after r)) = value
    /\ updates Active (emitted r) = [bit value]
    /\ outcome r = Finished (inr tt).
Proof.
  intros value statusCode body w Hlt r. split; [exact rpc_result_ok|].
  destruct (set_Active_run value (Response statusCode (Json body)) w)
    as (H1 & _ & H3).
  fold r in H1, H3.
  rewrite (proj2 (rpc_result_ok _ body)) in H3 by eauto.
  destruct H3 as [H3 H4]. rewrite H3. auto.
Qed.

Lemma reply_content_witness :
  (200 < 400)%Z
  /\ power (this (after (feed (run (on_set_Active true) (world fresh))
                           [Response 200 (Json (VObj [(js "error",
                              VArr [VNum (JFin 40005); VStr (js "Display Is Turned off")])]))])))
     = true.
Proof.
  split; [lia|].
  apply (reply_content_is_not_examined true 200
           (VObj [(js "error", VArr [VNum (JFin 40005); VStr (js "Display Is Turned off")])])
           (world fresh)).
  lia.
Defined.

(** ** Requests that change the television *)

Lemma power_commands_app (a b : list Output) :
  power_commands (a ++ b) = power_commands a ++ power_commands b.
Proof. apply omap_app. Qed.

Lemma play_commands_app (a b : list Output) :
  play_commands (a ++ b) = play_commands a ++ play_commands b.
Proof. apply omap_app. Qed.

Lemma run_emitted (P : Policy) {A : Type} (t : Task A) (w : World) :
  obeys P t ->
  Forall (fun o => may_emit P o \/ exists r, o = Sent r /\ may_post P r)
    (emitted (run t w)).
Proof.
  intros Ht. revert w. induction Ht; intros w; cbn; auto.
  constructor; [|constructor]. right. eauto.
Qed.

Lemma hands_off_run {A : Type} (t : Task A) (w : World) :
  obeys hands_off t ->
  power_commands (emitted (run t w)) = []
  /\ play_commands (emitted (run t w)) = []
  /\ forall rq k, outcome (run t w) = Awaiting rq k -> forall o, obeys hands_off (k o).
Proof.
  intros Ht. pose proof (run_emitted hands_off t w Ht) as He.
  split; [|split].
  - induction He as [|o l [Ho|(r & -> & Hr)] _ IH]; [reflexivity| |].
    + destruct o; [exact IH..|destruct Ho].
    + destruct r; try exact IH; destruct Hr.
  - induction He as [|o l [Ho|(r & -> & Hr)] _ IH]; [reflexivity| |].
    + destruct o; [exact IH..|destruct Ho].
    + destruct r; try exact IH; destruct Hr.
  - intros rq k E. exact (proj2 (run_awaiting hands_off t w rq k Ht E)).
Qed.

Lemma hands_off_plays_once (k : HttpOutcome -> Task unit) :
  (forall o, obeys hands_off (k o)) -> plays_once k.
Proof.
  intros Hk o w. destruct (hands_off_run (k o) w (Hk o)) as (H1 & H2 & H3).
  cbn zeta. rewrite H1, H2. cbn. auto.
Qed.

Lemma poll_hands_off : obeys hands_off poll.
Proof.
  unfold poll, try_finally, getPowerStatus, read, assign, emit, mbind, Task_bind.
  obey.
Qed.

Lemma refresh_hands_off : obeys hands_off refreshChannelMap.
Proof. unfold refreshChannelMap, read, assign, emit, mbind, Task_bind. obey. Qed.

(** What the handler of [Active] does first: it sends its request. *)
Lemma set_Active_first (v : bool) (w : World) :
  let r := run (on_set_Active v) w in
  power_commands (emitted r) = [v]
  /\ play_commands (emitted r) = []
  /\ forall rq k, outcome r = Awaiting rq k -> forall o, obeys hands_off (k o).
Proof.
  unfold on_set_Active, setPower, mbind, Task_bind, assign, emit, read. cbn.
  destruct (debug (this w)); cbn; (split; [reflexivity|]); (split; [reflexivity|]);
    intros rq k [= <- <-] o; destruct (rpc_result o); cbn; obey.
Qed.

(** What the handler of [ActiveIdentifier] does first: nothing, or one play
    request, or a refresh after which it may still play. *)
Lemma set_ActiveIdentifier_first (x : JSNum) (w : World) :
  let r := run (on_set_ActiveIdentifier x) w in
  power_commands (emitted r) = []
  /\ ((play_commands (emitted r) = []
       /\ forall rq k, outcome r = Awaiting rq k -> plays_once k)
      \/ (length (play_commands (emitted r)) = 1%nat
          /\ forall rq k, outcome r = Awaiting rq k -> forall o, obeys hands_off (k o))).
Proof.
  unfold on_set_ActiveIdentifier, selectIdentifier, tuneChannel, refreshChannelMap,
    mbind, Task_bind, assign, emit, read.
  crunch; (split; [reflexivity|]);
    first
      [ left; split; [reflexivity|]; intros rq k E; try discriminate E;
        injection E as <- <-; intros o w'; crunch;
        (split; [reflexivity|]); (split; [cbn; lia|]);
        intros rq' k' E'; try discriminate E';
        injection E' as <- <-; intros o'; crunch; obey
      | right; split; [reflexivity|]; intros rq k E; try discriminate E;
        injection E as <- <-; intros o; crunch; obey ].
Qed.

Lemma may_play_app (a b : list (bool * (nat * (HttpOutcome -> Task unit)))) :
  may_play (a ++ b) = (may_play a + may_play b)%nat.
Proof. unfold may_play. rewrite filter_app, length_app. reflexivity. Qed.

(** Starting a task whose first run sends the set-power requests [pc] and
    [p] play requests and leaves a method marked [b]. *)
Lemma spawn_adds (t : Task unit) (s : System)
    (marks : list (bool * (nat * (HttpOutcome -> Task unit))))
    (b : bool) (pc : list bool) (p : nat) :
  marks_of s marks ->
  power_commands (emitted (run t (world s))) = pc ->
  (length (play_commands (emitted (run t (world s)))) <= p)%nat ->
  (forall rq k, outcome (run t (world s)) = Awaiting rq k -> marked_ok (b, (0%nat, k))) ->
  exists marks',
    adds s (spawn t s) marks marks' pc (p + if b then 1 else 0).
Proof.
  intros [Hm Hok] Hpc Hp Hk. unfold spawn, adds, marks_of.
  destruct (outcome (run t (world s))) as [x|rq k] eqn:E; cbn [inflight trace].
  - exists marks. rewrite power_commands_app, play_commands_app, length_app, Hpc.
    split; [split; [exact Hm|exact Hok]|]. split; [reflexivity|]. destruct b; lia.
  - exists (marks ++ [(b, (next_request s, k))]).
    rewrite power_commands_app, play_commands_app, length_app, Hpc, may_play_app.
    split; [split|split; [reflexivity|]].
    + rewrite fmap_app, Hm. reflexivity.
    + apply Forall_app. split; [exact Hok|]. constructor; [|constructor].
      exact (Hk rq k eq_refl).
    + assert (Hb : may_play [(b, (next_request s, k))] = if b then 1%nat else 0%nat)
        by (destruct b; reflexivity).
      rewrite Hb. destruct b; lia.
Qed.

Lemma marks_without (n : nat) (marks : list (bool * (nat * (HttpOutcome -> Task unit))))
    (m : bool * (nat * (HttpOutcome -> Task unit))) :
  m ∈ marks -> fst (snd m) = n ->
  (may_play (filter (fun m => negb (fst (snd m) =? n)%nat) marks)
   + (if fst m then 1 else 0) <= may_play marks)%nat.
Proof.
  intros Hin Hn. unfold may_play. induction marks as [|x marks IH]; [inversion Hin|].
  rewrite !filter_cons. apply elem_of_cons in Hin as [<-|Hin].
  - rewrite Hn, Nat.eqb_refl. cbn [negb].
    rewrite decide_False by exact id.
    pose proof (length_filter (fun m : bool * (nat * (HttpOutcome -> Task unit)) =>
                  fst m = true)
                  (filter (fun m => negb (fst (snd m) =? n)%nat) marks)) as H1.
    pose proof (length_filter_and
                  (fun m : bool * (nat * (HttpOutcome -> Task unit)) => fst m = true)
                  (fun m => negb (fst (snd m) =? n)%nat) marks) as H2.
    rewrite list_filter_filter.
    destruct (decide (fst m = true)) as [->|Hf]; cbn [length].
    + lia.
    + destruct (fst m); [congruence|]. lia.
  - specialize (IH Hin).
    destruct (decide (negb (fst (snd x) =? n)%nat)); rewrite ?filter_cons;
      destruct (decide (fst x = true)); cbn [length]; lia.
Qed.

Lemma marks_filter (n : nat) (s : System)
    (marks : list (bool * (nat * (HttpOutcome -> Task unit)))) :
  marks_of s marks ->
  marks_of {| world := world s;
              inflight := filter (fun p => negb (fst p =? n)%nat) (inflight s);
              next_request := next_request s; trace := trace s |}
    (filter (fun m => negb (fst (snd m) =? n)%nat) marks).
Proof.
  intros [Hm Hok]. split; cbn [inflight].
  - rewrite <- Hm. clear. induction marks as [|m marks IH]; [reflexivity|].
    rewrite fmap_cons, !filter_cons.
    destruct (decide (negb (fst (snd m) =? n)%nat)); [rewrite fmap_cons|];
      rewrite IH; reflexivity.
  - apply Forall_forall. intros m Hin. apply list_elem_of_filter in Hin as [_ Hin].
    rewrite Forall_forall in Hok. exact (Hok m Hin).
Qed.

Lemma adds_nothing (s s' : System)
    (marks : list (bool * (nat * (HttpOutcome -> Task unit)))) :
  marks_of s marks -> inflight s' = inflight s -> trace s' = trace s ->
  adds s s' marks marks [] 0.
Proof.
  intros [Hm Hok] Hi Ht. unfold adds, marks_of. rewrite Hi, Ht, app_nil_r.
  split; [split; [exact Hm|exact Hok]|]. split; [reflexivity|lia].
Qed.

Lemma adds_weaken (s s' : System)
    (marks marks' : list (bool * (nat * (HttpOutcome -> Task unit))))
    (pc : list bool) (n n' : nat) :
  adds s s' marks marks' pc n -> (n <= n')%nat -> adds s s' marks marks' pc n'.
Proof. intros (H1 & H2 & H3) Hle. split; [exact H1|]. split; [exact H2|lia]. Qed.

(** What one event adds: a write to [Active] adds its set-power request, a
    selection at most one play request, anything else nothing. *)
Lemma step_adds (s : System) (e : Event)
    (marks : list (bool * (nat * (HttpOutcome -> Task unit)))) :
  marks_of s marks ->
  exists marks', adds s (step s e) marks marks' (written [e]) (length (selections [e])).
Proof.
  intros Hmarks. destruct e as [ms|n o|id| |v|x]; cbn [written selections omap length].
  - exists marks. apply adds_nothing; [exact Hmarks|reflexivity..].
  - cbn [step].
    destruct (List.find (fun p => (fst p =? n)%nat) (inflight s)) as [[n' k]|] eqn:Hfind;
      [|exists marks; apply adds_nothing; [exact Hmarks|reflexivity..]].
    apply find_some in Hfind as [Hin Hid]. cbn in Hid. apply Nat.eqb_eq in Hid. subst n'.
    apply list_elem_of_In in Hin.
    destruct Hmarks as [Hm Hok]. rewrite <- Hm in Hin.
    apply list_elem_of_fmap in Hin as ([b [n' k']] & Heq & Hin). cbn in Heq.
    injection Heq as <- <-.
    pose proof (marks_without n marks (b, (n, k)) Hin eq_refl) as Hless. cbn [fst] in Hless.
    rewrite Forall_forall in Hok. pose proof (Hok _ Hin) as Hk. unfold marked_ok in Hk.
    cbn [fst snd] in Hk.
    assert (Hmarks : marks_of s marks) by (split; [exact Hm|apply Forall_forall, Hok]).
    pose proof (marks_filter n s marks Hmarks) as Hmarks1.
    set (s1 := {| world := world s; inflight := _; next_request := _; trace := _ |}) in *.
    destruct b.
    + destruct (Hk o (world s1)) as (H1 & H2 & H3). cbn zeta in *.
      destruct (spawn_adds (k o) s1 _ false [] 1 Hmarks1 H1 H2) as [marks' Ha].
      { intros rq k1 E. exact (H3 rq k1 E). }
      exists marks'. destruct Ha as (A1 & A2 & A3). split; [exact A1|].
      split; [exact A2|]. cbn [trace s1] in A3. lia.
    + destruct (hands_off_run (k o) (world s1) (Hk o)) as (H1 & H2 & H3).
      destruct (spawn_adds (k o) s1 _ false [] 0 Hmarks1 H1) as [marks' Ha].
      { rewrite H2. cbn. lia. }
      { intros rq k1 E. exact (H3 rq k1 E). }
      exists marks'. destruct Ha as (A1 & A2 & A3). split; [exact A1|].
      split; [exact A2|]. cbn [trace s1] in A3. lia.
  - cbn [step].
    destruct (List.find (fun t => (timer_id t =? id)%nat) (timers (world s))) as [t|];
      [|exists marks; apply adds_nothing; [exact Hmarks|reflexivity..]].
    set (s1 := with_world _ s).
    assert (Hmarks1 : marks_of s1 marks) by exact Hmarks.
    assert (Ht : obeys hands_off (callback_task (timer_callback t))).
    { destruct (timer_callback t); cbn [callback_task].
      - apply poll_hands_off.
      - apply obeys_try_catch; [apply refresh_hands_off|constructor]. }
    destruct (hands_off_run _ (world s1) Ht) as (H1 & H2 & H3).
    destruct (spawn_adds _ s1 _ false [] 0 Hmarks1 H1) as [marks' Ha].
    { rewrite H2. cbn. lia. }
    { intros rq k1 E. exact (H3 rq k1 E). }
    exists marks'. exact Ha.
  - exists marks. apply adds_nothing; [exact Hmarks|reflexivity..].
  - cbn [step]. destruct (set_Active_first v (world s)) as (H1 & H2 & H3).
    destruct (spawn_adds _ s _ false [v] 0 Hmarks H1) as [marks' Ha].
    { rewrite H2. cbn. lia. }
    { intros rq k1 E. exact (H3 rq k1 E). }
    exists marks'. exact Ha.
  - cbn [step]. destruct (set_ActiveIdentifier_first x (world s)) as (H1 & [[H2 H3]|[H2 H3]]).
    + destruct (spawn_adds _ s _ true [] 0 Hmarks H1) as [marks' Ha].
      { rewrite H2. cbn. lia. }
      { intros rq k1 E. exact (H3 rq k1 E). }
      exists marks'. exact Ha.
    + destruct (spawn_adds _ s _ false [] 1 Hmarks H1) as [marks' Ha].
      { rewrite H2. lia. }
      { intros rq k1 E. exact (H3 rq k1 E). }
      exists marks'. exact Ha.
Qed.

Lemma steps_add (es : list Event) (s : System)
    (marks : list (bool * (nat * (HttpOutcome -> Task unit)))) :
  marks_of s marks ->
  power_commands (trace (steps s es)) = power_commands (trace s) ++ written es
  /\ (length (play_commands (trace (steps s es)))
      <= length (play_commands (trace s)) + may_play marks + length (selections es))%nat.
Proof.
  revert s marks. induction es as [|e es IH]; intros s marks Hmarks.
  - cbn. rewrite app_nil_r. split; [reflexivity|lia].
  - change (steps s (e :: es)) with (steps (step s e) es).
    destruct (step_adds s e marks Hmarks) as (marks' & Hm' & Hpc & Hpl).
    destruct (IH _ _ Hm') as [IH1 IH2].
    assert (Hw : written (e :: es) = written [e] ++ written es)
      by (exact (omap_app _ [e] es)).
    assert (Hs : length (selections (e :: es))
                 = (length (selections [e]) + length (selections es))%nat).
    { rewrite <- length_app. f_equal. exact (omap_app _ [e] es). }
    rewrite IH1, Hpc, <- app_assoc, Hw, Hs.
    split; [reflexivity|lia].
Qed.

Lemma construct_marks (dbg : bool) (nm source : jsstring) (interval : Z)
    (favourites : list Favourite) (services : list Service) (clock : Z) :
  let s := construct dbg nm source interval favourites services clock in
  exists marks, marks_of s marks /\ may_play marks = 0%nat
                /\ power_commands (trace s) = [] /\ play_commands (trace s) = [].
Proof.
  cbn zeta. eexists [(false, (0%nat, _))]. split; [split; [reflexivity|]|].
  - constructor; [|constructor]. unfold marked_ok. cbn [fst snd]. intros o.
    destruct (rpc_result o) as [e|resp] eqn:E; cbn; rewrite ?E; cbn; obey.
  - split; [reflexivity|]. unfold construct. cbn. destruct dbg; split; reflexivity.
Qed.

(** X11. The set-power requests are the host's writes: in any sequence of
    events the set-power requests the controller has sent are, in order and
    with their values, the writes of the host to [Active]; polls, timers,
    replies and selections send none. *)
Theorem power_is_set_only_when_written :
  forall (dbg : bool) (nm source : jsstring) (interval : Z)
         (favourites : list Favourite) (services : list Service) (clock : Z)
         (es : list Event),
    power_commands
      (trace (steps (construct dbg nm source interval favourites services clock) es))
    = written es.
Proof.
  intros dbg nm source interval favourites services clock es.
  destruct (construct_marks dbg nm source interval favourites services clock)
    as (marks & Hm & _ & Hpc & _).
  destruct (steps_add es _ marks Hm) as [H _]. rewrite H, Hpc. reflexivity.
Qed.

(** X12. The channel is changed only when an input is selected: in any
    sequence of events the play requests the controller has sent are at most
    as many as the selections of the host; polls, timers, replies and writes
    to [Active] send none, and a selection sends one at most. *)
Theorem channel_changes_only_when_selected :
  forall (dbg : bool) (nm source : jsstring) (interval : Z)
         (favourites : list Favourite) (services : list Service) (clock : Z)
         (es : list Event),
    (length (play_commands
               (trace (steps (construct dbg nm source interval favourites services clock)
                         es)))
     <= length (selections es))%nat.
Proof.
  intros dbg nm source interval favourites services clock es.
  destruct (construct_marks dbg nm source interval favourites services clock)
    as (marks & Hm & Hn & _ & Hpl).
  destruct (steps_add es _ marks Hm) as [_ H]. rewrite Hpl, Hn in H. cbn in H. lia.
Qed.

(** ** The host and the controller in step *)

Lemma held_app_none (c : Characteristic) (out more : list Output) :
  updates c more = [] -> held c (out ++ more) = held c out.
Proof. intros H. unfold held. rewrite updates_app, H, app_nil_r. reflexivity. Qed.

Lemma held_snoc (c : Characteristic) (out more : list Output) (v : JSNum) :
  held c (out ++ UpdateValue c v :: more) = held c ([UpdateValue c v] ++ more).
Proof.
  unfold held. rewrite !updates_app.
  change (UpdateValue c v :: more) with ([UpdateValue c v] ++ more).
  rewrite !updates_app. cbn. rewrite bool_decide_eq_true_2 by reflexivity.
  rewrite last_app. cbn. destruct (last (v :: updates c more)) eqn:E; [reflexivity|].
  apply last_None in E. discriminate E.
Qed.

Lemma held_last (c : Characteristic) (out : list Output) (v : JSNum) :
  held c (out ++ [UpdateValue c v]) = v.
Proof.
  rewrite held_snoc. unfold held. cbn. rewrite bool_decide_eq_true_2 by reflexivity.
  reflexivity.
Qed.

Lemma held_other (c c' : Characteristic) (out : list Output) (v : JSNum)
    (more : list Output) :
  c' <> c -> held c (out ++ UpdateValue c' v :: more) = held c (out ++ more).
Proof.
  intros Hne. unfold held. rewrite !updates_app. cbn.
  rewrite bool_decide_eq_false_2 by exact Hne. reflexivity.
Qed.

Lemma held_quiet (c : Characteristic) (out : list Output) (o : Output)
    (more : list Output) :
  is_update o = false -> held c (out ++ o :: more) = held c (out ++ more).
Proof.
  intros Ho. unfold held. rewrite !updates_app. destruct o; try discriminate; reflexivity.
Qed.

(** A run of a method that keeps in step leaves the two in step, and so
    does what it does after a reply. *)
Lemma keeps_step_run {A : Type} (t : Task A) :
  keeps_step t ->
  forall (w : World) (out : list Output),
    in_step (this w) out ->
    in_step (this (after (run t w))) (out ++ emitted (run t w))
    /\ forall rq k, outcome (run t w) = Awaiting rq k -> forall o, keeps_step (k o).
Proof.
  induction 1 as [a|e|k Hk IH|f k Hf Hk IH|v k Hk IH|v k Hk IH|x k Hk IH|o k Ho Hk IH
                  |k Hk IH|cb ms k Hk IH|r k Hk]; intros w out Hin; cbn.
  - rewrite app_nil_r. split; [exact Hin|discriminate].
  - rewrite app_nil_r. split; [exact Hin|discriminate].
  - apply IH, Hin.
  - apply IH. destruct Hin as [H1 H2]. destruct (Hf (this w)) as [F1 F2].
    unfold in_step, on_get_Active, on_get_ActiveIdentifier in *. cbn.
    rewrite F1, F2. auto.
  - destruct (IH (with_this (set_power v (this w)) w)
                (out ++ [UpdateValue Active (bit v)])) as [I1 I2].
    { destruct Hin as [H1 H2]. split.
      - rewrite held_last. reflexivity.
      - rewrite (held_other ActiveIdentifier Active) by discriminate.
        rewrite app_nil_r. exact H2. }
    rewrite <- app_assoc in I1. split; [exact I1|exact I2].
  - destruct (IH (set_power v (this w)) (with_this (set_power v (this w)) w)
                (out ++ [UpdateValue Active (bit v)])) as [I1 I2].
    { destruct Hin as [H1 H2]. split.
      - rewrite held_last. reflexivity.
      - rewrite (held_other ActiveIdentifier Active) by discriminate.
        rewrite app_nil_r. exact H2. }
    rewrite <- app_assoc in I1. split; [exact I1|exact I2].
  - destruct (IH (with_this (set_activeIdentifier x (this w)) w)
                (out ++ [UpdateValue ActiveIdentifier x])) as [I1 I2].
    { destruct Hin as [H1 H2]. split.
      - rewrite (held_other Active ActiveIdentifier) by discriminate.
        rewrite app_nil_r. exact H1.
      - rewrite held_last. reflexivity. }
    rewrite <- app_assoc in I1. split; [exact I1|exact I2].
  - destruct (IH w (out ++ [o])) as [I1 I2].
    { destruct Hin as [H1 H2]. split.
      - rewrite (held_quiet Active) by exact Ho. rewrite app_nil_r. exact H1.
      - rewrite (held_quiet ActiveIdentifier) by exact Ho. rewrite app_nil_r. exact H2. }
    rewrite <- app_assoc in I1. split; [exact I1|exact I2].
  - apply IH, Hin.
  - apply (IH (next_timer w) (add_timer false cb ms w)). exact Hin.
  - split.
    + destruct Hin as [H1 H2]. split.
      * rewrite (held_quiet Active) by reflexivity. rewrite app_nil_r. exact H1.
      * rewrite (held_quiet ActiveIdentifier) by reflexivity. rewrite app_nil_r. exact H2.
    + intros rq k' [= <- <-]. exact Hk.
Qed.

Ltac in_step :=
  repeat first
    [ progress cbn [bind try_catch]
    | progress intros
    | apply keeps_step_power
    | apply keeps_step_power_read
    | apply keeps_step_identifier
    | match goal with
      | |- keeps_step (when ?b _) => destruct b; unfold when
      | |- keeps_step (if ?b then _ else _) => destruct b
      | |- keeps_step (try_catch (if ?b then _ else _) _) => destruct b
      | |- keeps_step (bind (if ?b then _ else _) _) => destruct b
      | |- context [match rpc_result ?o with _ => _ end] => destruct (rpc_result o)
      | |- context [match content_list ?o with _ => _ end] => destruct (content_list o)
      | |- context [match channel_of ?c ?x with _ => _ end] => destruct (channel_of c x)
      | |- context [when ?b _] => destruct b; unfold when
      | |- context [if ?b then _ else _] => destruct b
      | |- context [match ?r with inl _ => _ | inr _ => _ end] => destruct r
      end
    | constructor ]; try reflexivity; try (split; reflexivity).

Lemma poll_keeps_step : keeps_step poll.
Proof.
  unfold poll, try_finally, getPowerStatus, rpc, read, assign, emit, mbind, Task_bind.
  in_step.
Qed.

Lemma refresh_keeps_step :
  keeps_step (try_catch refreshChannelMap (fun _ => Ret tt)).
Proof.
  unfold refreshChannelMap, rpc, read, assign, emit, mbind, Task_bind. in_step.
Qed.

Lemma set_Active_keeps_step (v : bool) : keeps_step (on_set_Active v).
Proof.
  unfold on_set_Active, setPower, rpc, read, assign, emit, mbind, Task_bind. in_step.
Qed.

Lemma set_ActiveIdentifier_keeps_step (x : JSNum) :
  keeps_step (on_set_ActiveIdentifier x).
Proof.
  unfold on_set_ActiveIdentifier, selectIdentifier, tuneChannel, refreshChannelMap, rpc,
    read, assign, emit, mbind, Task_bind.
  in_step.
Qed.

Lemma spawn_in_step (t : Task unit) (s : System) :
  keeps_step t -> system_in_step s -> system_in_step (spawn t s).
Proof.
  intros Ht [Hin Hk]. destruct (keeps_step_run t Ht (world s) (trace s) Hin) as [H1 H2].
  unfold spawn, system_in_step.
  destruct (outcome (run t (world s))) as [x|rq k]; cbn.
  - split; [exact H1|exact Hk].
  - split; [exact H1|]. apply Forall_app. split; [exact Hk|].
    constructor; [|constructor]. exact (H2 rq k eq_refl).
Qed.

Lemma step_in_step (s : System) (e : Event) :
  system_in_step s -> system_in_step (step s e).
Proof.
  intros Hs. destruct e as [ms|n o|id| |v|x]; cbn [step].
  - exact Hs.
  - destruct (List.find _ _) as [[n' k]|] eqn:Hfind; [|exact Hs].
    apply find_some in Hfind as [Hin _]. apply list_elem_of_In in Hin.
    destruct Hs as [H1 H2]. rewrite Forall_forall in H2.
    apply spawn_in_step; [exact (H2 (n', k) Hin o)|].
    split; [exact H1|]. cbn. apply Forall_forall. intros p Hp.
    apply list_elem_of_filter in Hp as [_ Hp]. exact (H2 p Hp).
  - destruct (List.find _ _) as [t|]; [|exact Hs].
    apply spawn_in_step.
    + destruct (timer_callback t); [apply poll_keeps_step|apply refresh_keeps_step].
    + destruct Hs as [H1 H2]. split; [|exact H2]. cbn.
      destruct (timer_repeats t); exact H1.
  - destruct Hs as [H1 H2]. split; [|exact H2]. cbn. rewrite shutdown_this. exact H1.
  - apply spawn_in_step; [apply set_Active_keeps_step|exact Hs].
  - apply spawn_in_step; [apply set_ActiveIdentifier_keeps_step|exact Hs].
Qed.

(** X13. The host reads what it was last told. After any events the [get]
    handler of [Active] answers with the last value the controller pushed
    for it, and the one of [ActiveIdentifier] likewise; before any push both
    answer 0. Every change of the power state or of the selected input is
    pushed in the same turn. *)
Theorem host_reads_what_it_was_told :
  forall (dbg : bool) (nm source : jsstring) (interval : Z)
         (favourites : list Favourite) (services : list Service) (clock : Z)
         (es : list Event),
    let s := steps (construct dbg nm source interval favourites services clock) es in
    on_get_Active (this (world s)) = held Active (trace s)
    /\ on_get_ActiveIdentifier (this (world s)) = held ActiveIdentifier (trace s).
Proof.
  intros dbg nm source interval favourites services clock es.
  set (s0 := construct dbg nm source interval favourites services clock).
  assert (H0 : system_in_step s0).
  { split.
    - unfold s0, construct. cbn. destruct dbg; split; reflexivity.
    - unfold s0. cbn. constructor; [|constructor]. cbn. intros o.
      destruct (rpc_result o) as [e|resp]; cbn; in_step. }
  cbn zeta. generalize dependent s0. intros s0 H0.
  revert s0 H0. induction es as [|e es IH]; intros s0 H0; [exact (proj1 H0)|].
  change (steps s0 (e :: es)) with (steps (step s0 e) es).
  apply IH, step_in_step, H0.
Qed.

(** ** The settings of a controller *)

Lemma poll_keeps_settings : obeys keeps_settings poll.
Proof.
  unfold poll, try_finally, getPowerStatus, read, assign, emit, mbind, Task_bind.
  obey.
Qed.

Lemma refresh_keeps_settings :
  obeys keeps_settings (try_catch refreshChannelMap (fun _ => Ret tt)).
Proof.
  unfold refreshChannelMap, read, assign, emit, mbind, Task_bind.
  apply obeys_try_catch; obey.
Qed.

Lemma set_Active_keeps_settings (v : bool) : obeys keeps_settings (on_set_Active v).
Proof.
  unfold on_set_Active, setPower, read, assign, emit, mbind, Task_bind.
  apply obeys_try_catch; obey.
Qed.

Lemma set_ActiveIdentifier_keeps_settings (x : JSNum) :
  obeys keeps_settings (on_set_ActiveIdentifier x).
Proof.
  unfold on_set_ActiveIdentifier, selectIdentifier, read, assign, emit, mbind, Task_bind.
  apply obeys_try_catch; [|obey].
  apply obeys_bind; [obey|]. intros _.
  apply obeys_bind; [obey|]. intros _.
  apply obeys_bind; [obey|]. intros c.
  destruct (channel_of c (or_zero x)); [|constructor].
  destruct (bool_decide _); [constructor|].
  apply obeys_bind; [obey|]. intros _.
  unfold tuneChannel, refreshChannelMap, read, assign, emit, mbind, Task_bind.
  apply obeys_bind; [apply obeys_try_catch; obey|]. obey.
Qed.

Lemma spawn_keeps_settings (t : Task unit) (s : System) :
  obeys keeps_settings t ->
  Forall (fun p => forall o, obeys keeps_settings (snd p o)) (inflight s) ->
  Forall (fun p => forall o, obeys keeps_settings (snd p o)) (inflight (spawn t s))
  /\ settings (this (world (spawn t s))) = settings (this (world s)).
Proof.
  intros Ht Hs.
  pose proof (run_keeps keeps_settings settings t (world s) Ht (fun f Hf => Hf)) as Hk.
  pose proof (run_awaiting keeps_settings t (world s)) as Ha.
  unfold spawn. destruct (outcome (run t (world s))) as [x|rq k]; cbn.
  - auto.
  - split; [|exact Hk]. apply Forall_app. split; [exact Hs|].
    constructor; [|constructor]. exact (proj2 (Ha rq k Ht eq_refl)).
Qed.

Lemma step_keeps_settings (s : System) (e : Event) :
  Forall (fun p => forall o, obeys keeps_settings (snd p o)) (inflight s) ->
  Forall (fun p => forall o, obeys keeps_settings (snd p o)) (inflight (step s e))
  /\ settings (this (world (step s e))) = settings (this (world s)).
Proof.
  intros Hs. destruct e as [ms|n o|id| |v|x]; cbn [step].
  - auto.
  - destruct (List.find _ _) as [[n' k]|] eqn:Hfind; [|auto].
    apply find_some in Hfind as [Hin _]. apply list_elem_of_In in Hin.
    rewrite Forall_forall in Hs.
    set (s1 := {| world := world s; inflight := _; next_request := _; trace := _ |}).
    destruct (spawn_keeps_settings (k o) s1 (Hs (n', k) Hin o)) as [H1 H2].
    { unfold s1. cbn. apply Forall_forall. intros p Hp.
      apply list_elem_of_filter in Hp as [_ Hp]. exact (Hs p Hp). }
    split; [exact H1|exact H2].
  - destruct (List.find _ _) as [t|]; [|auto].
    assert (Ht : obeys keeps_settings (callback_task (timer_callback t))).
    { destruct (timer_callback t); [apply poll_keeps_settings|apply refresh_keeps_settings]. }
    destruct (spawn_keeps_settings _ (with_world
                (if timer_repeats t then world s else clear_timer id (world s)) s) Ht Hs)
      as [H1 H2].
    split; [exact H1|]. rewrite H2. destruct (timer_repeats t); reflexivity.
  - split; [exact Hs|]. cbn. rewrite shutdown_this. reflexivity.
  - apply spawn_keeps_settings; [apply set_Active_keeps_settings|exact Hs].
  - apply spawn_keeps_settings; [apply set_ActiveIdentifier_keeps_settings|exact Hs].
Qed.

(** X14. What the constructor takes from the configuration and the
    favourites stays as it is for the life of the controller: after any
    events the debug flag, the name, the source, the poll interval and the
    identifier table are those of the construction; the table is the one
    [buildServices] made of the favourites passed then. *)
Theorem settings_are_fixed_at_construction :
  forall (dbg : bool) (nm source : jsstring) (interval : Z)
         (favourites : list Favourite) (services : list Service) (clock : Z)
         (es : list Event),
    settings (this (world (steps (construct dbg nm source interval favourites services
                                    clock) es)))
    = (dbg, nm, source, interval,
       b_identifierToChannel (buildServices nm favourites services)).
Proof.
  intros dbg nm source interval favourites services clock es.
  set (s0 := construct dbg nm source interval favourites services clock).
  assert (H0 : Forall (fun p => forall o, obeys keeps_settings (snd p o)) (inflight s0)
               /\ settings (this (world s0))
                  = (dbg, nm, source, interval,
                     b_identifierToChannel (buildServices nm favourites services))).
  { split; [|reflexivity]. unfold s0. cbn. constructor; [|constructor]. cbn. intros o.
    destruct (rpc_result o) as [e|resp]; cbn; obey. }
  destruct H0 as [Hi <-]. generalize dependent s0. intros s0 Hi.
  revert s0 Hi. induction es as [|e es IH]; intros s0 Hi; [reflexivity|].
  change (steps s0 (e :: es)) with (steps (step s0 e) es).
  destruct (step_keeps_settings s0 e Hi) as [H1 H2].
  rewrite (IH _ H1). exact H2.
Qed.

(** ** The channel map and the identifier table *)

Lemma last_filter_cons {A : Type} (P : A -> bool) (x : A) (l : list A) :
  last (filter (fun a => P a) (x :: l))
  = match last (filter (fun a => P a) l) with
    | Some y => Some y
    | None => if P x then Some x else None
    end.
Proof.
  rewrite filter_cons. destruct (P x) eqn:E.
  - rewrite decide_True by exact I.
    destruct (filter (fun a => P a) l) as [|y l'] eqn:El; [reflexivity|].
    rewrite last_cons. destruct (last (y :: l')) eqn:E2; [reflexivity|].
    apply last_None in E2. discriminate E2.
  - rewrite decide_False by exact id. destruct (last _); reflexivity.
Qed.

Lemma add_item_lookup (m : gmap jsstring Value) (item : Value) (num : jsstring) :
  add_item m item !! num
  = if filed_under num item then Some (prop item "uri") else m !! num.
Proof.
  unfold add_item, filed_under.
  destruct (truthy item); cbn [negb orb andb]; [|reflexivity].
  destruct (truthy (prop item "uri")); cbn [negb orb andb]; [|reflexivity].
  destruct (channel_number item) as [n|] eqn:En.
  - assert (Hn : no_num (Some n) = false).
    { apply (by_precedence_nonempty item). rewrite <- channel_number_by_precedence.
      exact En. }
    rewrite Hn. destruct (decide (n = num)) as [->|Hne].
    + rewrite bool_decide_eq_true_2 by reflexivity. apply lookup_insert_eq.
    + rewrite bool_decide_eq_false_2 by congruence. apply lookup_insert_ne. exact Hne.
  - rewrite bool_decide_eq_false_2 by discriminate. reflexivity.
Qed.

Lemma fold_add_item_lookup (items : list Value) (m : gmap jsstring Value)
    (num : jsstring) :
  fold_left add_item items m !! num
  = match last (filter (fun item => filed_under num item) items) with
    | Some item => Some (prop item "uri")
    | None => m !! num
    end.
Proof.
  revert m. induction items as [|item items IH]; intros m; [reflexivity|].
  cbn [fold_left]. rewrite IH, last_filter_cons, add_item_lookup.
  destruct (last _); [reflexivity|]. destruct (filed_under num item); reflexivity.
Qed.

(** X15. In the channel map the last entry of the content list wins: the
    map holds under a number the URI of the last entry that has a URI and
    that number as its channel number, and holds nothing under a number no
    such entry has. *)
Theorem build_map_last_entry_wins :
  forall (items : list Value) (num : jsstring),
    build_map items !! num
    = (fun item => prop item "uri")
        <$> last (filter (fun item => filed_under num item) items).
Proof.
  intros items num. unfold build_map. rewrite fold_add_item_lookup.
  destruct (last _); reflexivity.
Qed.




Lemma linked_ok_start (name : jsstring) (services : list Service)
    (ops : list ServiceOp) :
  linked_ok (start name (filter (fun s => is_info s) services) ops).
Proof.
  exists (filter (fun s => is_info s) services), (television name), [].
  cbn. split; [reflexivity|]. split.
  { apply Forall_forall. intros s Hs. apply list_elem_of_filter in Hs as [Hs _].
    apply is_info_true, Hs. }
  split; [reflexivity|]. split; [reflexivity|]. split; [constructor|].
  split; [constructor|]. split; [reflexivity|]. intros k Hk. inversion Hk.
Qed.

Lemma linked_ok_step (b : Built) (fav : Favourite) :
  linked_ok b -> linked_ok (add_favourite b fav).
Proof.
  intros (infos & tv & inputs & Hs & Hinfos & Htv & Htvk & Hinputs & Hnd & Hl & Hk).
  destruct (input_identifier fav) as [z|] eqn:Ez.
  2:{ unfold add_favourite. rewrite Ez. exists infos, tv, inputs. auto 10. }
  rewrite (add_favourite_eq b fav z Ez).
  pose proof (input_service_facts (b_services b) fav) as Hfacts.
  destruct (input_service (b_services b) fav) as [[input services'] op].
  destruct Hfacts as [Hkey Hcase].
  set (input' := configure z fav input).
  assert (Hkey' : svc_key input' = (InputSource, Some (subtype_of fav))) by exact Hkey.
  set (g := fun s => link (b_tvService b) (svc_key input')
                       (if bool_decide (svc_key s = svc_key input') then input' else s)).
  assert (Hg : forall l, map (link (b_tvService b) (svc_key input')) (put_service input' l)
                         = map g l).
  { intros l. unfold put_service. rewrite map_map. reflexivity. }
  assert (Hg_info : forall s, svc_type s = AccessoryInformation -> g s = s).
  { intros s Ht. unfold g, link.
    rewrite (bool_decide_eq_false_2 (svc_key s = svc_key input'))
      by (rewrite Hkey'; unfold svc_key; rewrite Ht; discriminate).
    rewrite bool_decide_eq_false_2
      by (rewrite Htvk; unfold svc_key; rewrite Ht; discriminate).
    reflexivity. }
  assert (Hg_tv : g tv = addLinkedService (svc_key input') tv).
  { unfold g, link.
    rewrite (bool_decide_eq_false_2 (svc_key tv = svc_key input'))
      by (rewrite Hkey', Htv; discriminate).
    rewrite bool_decide_eq_true_2 by (rewrite Htv, Htvk; reflexivity). reflexivity. }
  assert (Hg_input : forall s, svc_type s = InputSource ->
            svc_type (g s) = InputSource /\ svc_key (g s) = svc_key s).
  { intros s Ht.
    set (s1 := if bool_decide (svc_key s = svc_key input') then input' else s).
    destruct (link_fields (b_tvService b) (svc_key input') s1) as (H1 & H2 & _).
    assert (Hk1 : svc_key (g s) = svc_key s1).
    { unfold svc_key, g. fold s1. rewrite H1, H2. reflexivity. }
    assert (Ht1 : svc_type (g s) = svc_type s1) by exact H1.
    rewrite Hk1, Ht1. unfold s1.
    destruct (bool_decide (svc_key s = svc_key input')) eqn:E.
    - apply bool_decide_eq_true in E. split; [|symmetry; exact E].
      change (fst (svc_key input') = InputSource). rewrite Hkey'. reflexivity.
    - split; [exact Ht|reflexivity]. }
  assert (Hinput_t : svc_type input = InputSource).
  { change (fst (svc_key input) = InputSource). rewrite Hkey. reflexivity. }
  set (inputs' := match op with Added _ => inputs ++ [input] | _ => inputs end).
  assert (Hs' : services' = infos ++ tv :: inputs'
                /\ Forall (fun s => svc_type s = InputSource) inputs'
                /\ svc_key input ∈ (svc_key <$> inputs')
                /\ forall k, k ∈ (svc_key <$> inputs) -> k ∈ (svc_key <$> inputs')).
  { destruct Hcase as [(-> & Hin & ->)|(-> & -> & Hfresh)]; unfold inputs'.
    - split; [exact Hs|]. split; [exact Hinputs|]. split; [|auto].
      rewrite Hs in Hin. apply elem_of_app in Hin as [Hin|Hin].
      + rewrite Forall_forall in Hinfos. rewrite (Hinfos _ Hin) in Hinput_t.
        discriminate.
      + apply elem_of_cons in Hin as [->|Hin].
        * rewrite Htv in Hkey. discriminate.
        * apply list_elem_of_fmap. eauto.
    - rewrite Hs, <- app_assoc. split; [reflexivity|].
      split; [apply Forall_app; split; [exact Hinputs|constructor; [exact Hinput_t|constructor]]|].
      rewrite fmap_app. split; [apply elem_of_app; right; left|].
      intros k Hk'. apply elem_of_app. left. exact Hk'. }
  destruct Hs' as (-> & Hinputs' & Hmem & Hmono).
  exists infos, (addLinkedService (svc_key input') tv), (map g inputs').
  cbn [b_services b_tvService b_inputServices].
  split.
  { rewrite Hg, map_app. cbn [map]. rewrite Hg_tv. f_equal.
    rewrite <- (map_id infos) at 2. apply map_ext_in. intros s Hin.
    apply Hg_info. rewrite Forall_forall in Hinfos. apply Hinfos.
    apply list_elem_of_In. exact Hin. }
  split; [exact Hinfos|]. split; [exact Htv|]. split; [exact Htvk|].
  split.
  { apply Forall_forall. intros s Hin. apply list_elem_of_In, in_map_iff in Hin.
    destruct Hin as (s0 & <- & Hin0). apply Hg_input.
    rewrite Forall_forall in Hinputs'. apply Hinputs', list_elem_of_In, Hin0. }
  assert (Hkeys : svc_key <$> map g inputs' = svc_key <$> inputs').
  { change (map svc_key (map g inputs') = map svc_key inputs').
    rewrite map_map. apply map_ext_in. intros s Hin. apply Hg_input.
    rewrite Forall_forall in Hinputs'. apply Hinputs', list_elem_of_In, Hin. }
  rewrite Hkeys. cbn [addLinkedService svc_linked].
  destruct (bool_decide (svc_key input' ∈ svc_linked tv)) eqn:E.
  - apply bool_decide_eq_true in E. split; [exact Hnd|]. split.
    + intros k. rewrite elem_of_app, list_elem_of_singleton, <- Hl.
      split; [auto|]. intros [H|Heq]; [exact H|rewrite Heq; exact E].
    + intros k Hin. apply elem_of_app in Hin as [Hin|Hin].
      * apply Hmono, Hk, Hin.
      * apply list_elem_of_singleton in Hin. subst k. exact Hmem.
  - apply bool_decide_eq_false in E. split.
    + apply NoDup_app. split; [exact Hnd|]. split; [|apply NoDup_singleton].
      intros k Hin Hin'. apply list_elem_of_singleton in Hin'. subst k. exact (E Hin).
    + split.
      * intros k. rewrite !elem_of_app, Hl. reflexivity.
      * intros k Hin. apply elem_of_app in Hin as [Hin|Hin].
        -- apply Hmono, Hk, Hin.
        -- apply list_elem_of_singleton in Hin. subst k. exact Hmem.
Qed.

Lemma linked_ok_fold (favs : list Favourite) (b : Built) :
  linked_ok b -> linked_ok (fold_left add_favourite favs b).
Proof.
  revert b. induction favs as [|fav favs IH]; intros b H; [exact H|].
  cbn [fold_left]. apply IH, linked_ok_step, H.
Qed.

(** X17. After [buildServices] the Television service links every input
    service of the build, each once, and nothing else: its linked services
    are without repetition the services of [inputServices], and each of them
    is an input service of the accessory. *)
Theorem television_links_each_input_once :
  forall (name : jsstring) (favourites : list Favourite) (services : list Service),
    let b := buildServices name favourites services in
    exists linked : list ServiceKey,
      tv_linked b = Some linked
      /\ NoDup linked
      /\ (forall k, k ∈ linked <-> k ∈ b_inputServices b)
      /\ forall k, k ∈ linked ->
           exists s, s ∈ b_services b /\ svc_key s = k /\ svc_type s = InputSource.
Proof.
  intros name favourites services b.
  assert (H : linked_ok b).
  { unfold b. rewrite buildServices_start. apply linked_ok_fold, linked_ok_start. }
  destruct H as (infos & tv & inputs & Hs & Hinfos & Htv & Htvk & Hinputs & Hnd & Hl & Hk).
  exists (svc_linked tv). split.
  { unfold tv_linked, getService. rewrite Hs.
    assert (Hfind : forall l, Forall (fun s => svc_type s = AccessoryInformation) l ->
              find (fun s => bool_decide (svc_type s = Television)) (l ++ tv :: inputs)
              = Some tv).
    { induction 1 as [|s l Hs' _ IH]; cbn.
      - rewrite bool_decide_eq_true_2; [reflexivity|].
        change (fst (svc_key tv) = Television). rewrite Htv. reflexivity.
      - rewrite bool_decide_eq_false_2 by (rewrite Hs'; discriminate). exact IH. }
    rewrite (Hfind infos Hinfos). reflexivity. }
  split; [exact Hnd|]. split; [exact Hl|].
  intros k Hin. apply Hl, Hk in Hin. apply list_elem_of_fmap in Hin as (s & -> & Hin).
  exists s. split; [|split; [reflexivity|]].
  - rewrite Hs. apply elem_of_app. right. right. exact Hin.
  - rewrite Forall_forall in Hinputs. exact (Hinputs s Hin).
Qed.

(** ** Channel numbers by value *)

Lemma digit_not_space (c : N) : is_digit c = true -> is_js_space c = false.
Proof.
  intros H.
  destruct (is_digit_cases c H) as [->|[->|[->|[->|[->|[->|[->|[->|[->| ->]]]]]]]]];
    reflexivity.
Qed.

Lemma trimStart_digits (s : jsstring) : forallb is_digit s = true -> trimStart s = s.
Proof.
  destruct s as [|c s]; [reflexivity|]. cbn. rewrite andb_true_iff. intros [Hc _].
  rewrite (digit_not_space c Hc). reflexivity.
Qed.

Lemma forallb_rev {A : Type} (f : A -> bool) (l : list A) :
  forallb f (rev l) = forallb f l.
Proof.
  induction l as [|x l IH]; [reflexivity|].
  cbn. rewrite forallb_app, IH. cbn. rewrite andb_true_r. apply andb_comm.
Qed.

(** White space is not a digit: trimming leaves a run of digits alone. *)
Lemma trim_digits (s : jsstring) : forallb is_digit s = true -> trim s = s.
Proof.
  intros H. unfold trim, trimEnd. rewrite (trimStart_digits s H).
  rewrite trimStart_digits by (rewrite forallb_rev; exact H). apply rev_involutive.
Qed.

Lemma all_digits_forallb (s : jsstring) : all_digits s = true -> forallb is_digit s = true.
Proof. destruct s; [discriminate|]. exact id. Qed.

(** [Number(s)] of a run of digits, whatever white space surrounds it. *)
Lemma string_to_number_digits (s : jsstring) :
  all_digits (trim s) = true -> string_to_number s = number_of_digits (trim s).
Proof.
  intros H. unfold string_to_number. destruct (trim s) as [|c t]; [discriminate|].
  rewrite H. reflexivity.
Qed.

Lemma number_of_digits_value (a b : jsstring) :
  digits_value a = digits_value b -> number_of_digits a = number_of_digits b.
Proof. unfold number_of_digits. intros ->. reflexivity. Qed.

(** X18. Channel numbers are matched by value, not by text. A content-list
    entry whose display number is a string of digits is filed under
    [String(Number(digits))]; [tuneChannel] looks a channel number up under
    the same form; so a channel asked for in digits of the same value finds
    that entry's key, whatever leading zeros or surrounding white space
    either side has. *)
Theorem channels_match_by_value :
  forall (item : Value) (dispNum channelNumber : jsstring),
    prop item "dispNum" = VStr dispNum ->
    all_digits dispNum = true ->
    all_digits (trim channelNumber) = true ->
    digits_value (trim channelNumber) = digits_value dispNum ->
    channel_number item = Some (num_to_string (string_to_number channelNumber))
    /\ channel_number item = Some (normalize_digits dispNum).
Proof.
  intros item dispNum channelNumber Hd Hdigits Hch Hv.
  assert (Hkey : channel_number item = Some (normalize_digits dispNum)).
  { rewrite channel_number_by_precedence. unfold by_precedence, tier1.
    rewrite Hd. cbn [truthy to_String to_Number].
    rewrite Hdigits, andb_true_r.
    rewrite bool_decide_eq_false_2 by (destruct dispNum; [discriminate Hdigits|discriminate]).
    cbn [negb]. unfold normalize_digits. f_equal. f_equal.
    rewrite string_to_number_digits;
      rewrite (trim_digits dispNum (all_digits_forallb _ Hdigits)); auto. }
  split; [|exact Hkey]. rewrite Hkey. f_equal. unfold normalize_digits. f_equal.
  rewrite (string_to_number_digits channelNumber Hch).
  symmetry. apply number_of_digits_value. exact Hv.
Qed.

Lemma channels_match_by_value_witness :
  prop (entry "007" "Seven" "tv:dvbt?trip=1.2.7") "dispNum" = VStr (js "007")
  /\ all_digits (js "007") = true
  /\ all_digits (trim (js " 7 ")) = true
  /\ digits_value (trim (js " 7 ")) = digits_value (js "007")
  /\ channel_number (entry "007" "Seven" "tv:dvbt?trip=1.2.7")
     = Some (num_to_string (string_to_number (js " 7 "))).
Proof.
  do 4 (split; [vm_compute; reflexivity|]).
  apply (channels_match_by_value (entry "007" "Seven" "tv:dvbt?trip=1.2.7") (js "007")
           (js " 7 ")); vm_compute; reflexivity.
Defined.

Lemma drop_zeros_digits (s : jsstring) :
  forallb is_digit s = true -> forallb is_digit (drop_zeros s) = true.
Proof.
  induction s as [|c s IH]; [reflexivity|]. cbn [forallb drop_zeros].
  rewrite andb_true_iff. intros [Hc Hs].
  destruct (c =? 48); [exact (IH Hs)|]. cbn. rewrite Hc, Hs. reflexivity.
Qed.

Lemma drop_zeros_value (s : jsstring) : digits_value (drop_zeros s) = digits_value s.
Proof.
  induction s as [|c s IH]; [reflexivity|]. cbn [drop_zeros].
  destruct (c =? 48) eqn:E; [|reflexivity].
  apply N.eqb_eq in E. subst c. rewrite IH. reflexivity.
Qed.

Lemma strip_leading_zeros_facts (s : jsstring) :
  all_digits s = true ->
  all_digits (strip_leading_zeros s) = true
  /\ digits_value (strip_leading_zeros s) = digits_value s.
Proof.
  intros H. pose proof (all_digits_forallb s H) as Hf.
  pose proof (drop_zeros_digits s Hf) as Hd. pose proof (drop_zeros_value s) as Hv.
  unfold strip_leading_zeros. destruct (drop_zeros s) as [|c r] eqn:E.
  - split; [reflexivity|]. rewrite <- Hv. reflexivity.
  - split; [exact Hd|exact Hv].
Qed.

(** The number a favourite is stored with reads back as the number of the
    line. *)
Lemma string_to_number_normalize (ds : jsstring) :
  all_digits ds = true -> digits_value ds < 2 ^ 53 ->
  string_to_number (normalize_digits ds) = JFin (Z.of_N (digits_value ds)).
Proof.
  intros Hd Hv. rewrite (normalize_digits_small ds Hd Hv).
  destruct (strip_leading_zeros_facts ds Hd) as [H1 H2].
  rewrite string_to_number_digits;
    rewrite (trim_digits _ (all_digits_forallb _ H1)); [|exact H1].
  unfold number_of_digits, to_double. rewrite H2.
  apply N.ltb_lt in Hv. rewrite Hv. reflexivity.
Qed.

(** X19. The value of its number decides whether a favourite becomes an
    input. A line that loads gives a favourite with a name that is not
    empty and the number [String(Number(digits))] of its digits; for a number
    below 2^53 the favourite gets an input, with the number as identifier,
    exactly when the number is between 1 and 999. A favourite numbered 0 or
    1000 and more is loaded, and counts towards [maxFavourites], but gets no
    input. *)
Theorem number_decides_the_input :
  forall (line : jsstring) (fav : Favourite),
    parse_line line = Some fav ->
    exists digits : jsstring,
      all_digits digits = true
      /\ fav_number fav = normalize_digits digits
      /\ fav_name fav <> []
      /\ (digits_value digits < 2 ^ 53 ->
          input_identifier fav
          = if (1 <=? digits_value digits) && (digits_value digits <=? 999)
            then Some (Z.of_N (digits_value digits)) else None).
Proof.
  intros line fav H. apply parse_line_valid in H.
  destruct H as (a & b & _ & _ & _ & Hname & Hdigits & Hn & Hnum).
  exists (trim b). split; [exact Hdigits|]. split; [exact Hnum|].
  split; [rewrite Hn; exact Hname|].
  intros Hv. unfold input_identifier.
  rewrite Hnum, (string_to_number_normalize _ Hdigits Hv).
  destruct (1 <=? digits_value (trim b)) eqn:E1;
    destruct (digits_value (trim b) <=? 999) eqn:E2; cbn [andb].
  - apply N.leb_le in E1, E2.
    replace (Z.of_N (digits_value (trim b)) <=? 0)%Z with false
      by (symmetry; apply Z.leb_gt; lia).
    replace (999 <? Z.of_N (digits_value (trim b)))%Z with false
      by (symmetry; apply Z.ltb_ge; lia).
    reflexivity.
  - apply N.leb_gt in E2.
    replace (999 <? Z.of_N (digits_value (trim b)))%Z with true
      by (symmetry; apply Z.ltb_lt; lia).
    rewrite orb_true_r. reflexivity.
  - apply N.leb_gt in E1.
    replace (Z.of_N (digits_value (trim b)) <=? 0)%Z with true
      by (symmetry; apply Z.leb_le; lia).
    reflexivity.
  - apply N.leb_gt in E1.
    replace (Z.of_N (digits_value (trim b)) <=? 0)%Z with true
      by (symmetry; apply Z.leb_le; lia).
    reflexivity.
Qed.

Lemma number_decides_the_input_witness :
  parse_line (js "Sky Arts = 1001") = Some {| fav_name := js "Sky Arts"; fav_number := js "1001" |}
  /\ exists digits : jsstring,
       all_digits digits = true
       /\ fav_number {| fav_name := js "Sky Arts"; fav_number := js "1001" |}
          = normalize_digits digits
       /\ fav_name {| fav_name := js "Sky Arts"; fav_number := js "1001" |} <> []
       /\ (digits_value digits < 2 ^ 53 ->
           input_identifier {| fav_name := js "Sky Arts"; fav_number := js "1001" |}
           = if (1 <=? digits_value digits) && (digits_value digits <=? 999)
             then Some (Z.of_N (digits_value digits)) else None).
Proof.
  assert (H : parse_line (js "Sky Arts = 1001")
              = Some {| fav_name := js "Sky Arts"; fav_number := js "1001" |})
    by (vm_compute; reflexivity).
  split; [exact H|].
  exact (number_decides_the_input (js "Sky Arts = 1001") _ H).
Defined.

(** ** The favourites file, line by line *)

Lemma strip_cr_cons (c d : N) (l : jsstring) :
  strip_cr (c :: d :: l) = c :: strip_cr (d :: l).
Proof. reflexivity. Qed.

Lemma strip_cr_cases (l : jsstring) : strip_cr l = l \/ l = strip_cr l ++ [13].
Proof.
  induction l as [|c l IH]; [left; reflexivity|].
  destruct l as [|d l].
  - cbn. destruct (c =? 13) eqn:E; [|left; reflexivity].
    apply N.eqb_eq in E. subst c. right. reflexivity.
  - rewrite strip_cr_cons.
    destruct IH as [IH|IH]; [left; rewrite IH; reflexivity|].
    right. cbn [app]. rewrite <- IH. reflexivity.
Qed.

Lemma strip_cr_snoc (l : jsstring) : strip_cr (l ++ [13]) = l.
Proof.
  induction l as [|c l IH]; [reflexivity|].
  destruct l as [|d l]; [reflexivity|].
  cbn [app] in *. rewrite strip_cr_cons, IH. reflexivity.
Qed.

Lemma not_line_feed (c : N) : 10 <> c -> (c =? 10) = false.
Proof. intros H. apply N.eqb_neq. intros ->. exact (H eq_refl). Qed.

(** A line ends at the first line feed, less the carriage return before it. *)
Lemma split_lines_line (l rest : jsstring) :
  10 ∉ l -> split_lines (l ++ 10 :: rest) = strip_cr l :: split_lines rest.
Proof.
  induction l as [|c l IH]; intros Hl; [reflexivity|].
  apply not_elem_of_cons in Hl as [Hc Hl]. specialize (IH Hl).
  cbn [app split_lines].
  rewrite (not_line_feed c Hc).
  destruct l as [|d l].
  - cbn [app]. rewrite N.eqb_refl, andb_true_r.
    cbn [strip_cr]. destruct (c =? 13); [reflexivity|].
    cbn [app] in IH. rewrite IH. reflexivity.
  - cbn [app] in *. apply not_elem_of_cons in Hl as [Hd _].
    rewrite (not_line_feed d Hd).
    rewrite andb_false_r, IH. rewrite strip_cr_cons. reflexivity.
Qed.

Lemma split_lines_last (l : jsstring) : 10 ∉ l -> split_lines l = [l].
Proof.
  induction l as [|c l IH]; intros Hl; [reflexivity|].
  apply not_elem_of_cons in Hl as [Hc Hl]. specialize (IH Hl).
  cbn [split_lines].
  rewrite (not_line_feed c Hc).
  destruct l as [|d l]; [reflexivity|].
  apply not_elem_of_cons in Hl as [Hd _].
  rewrite (not_line_feed d Hd).
  rewrite andb_false_r, IH. reflexivity.
Qed.

Lemma trimStart_snoc (l : jsstring) (c : N) :
  is_js_space c = true ->
  (trimStart (l ++ [c]) = [] /\ trimStart l = [])
  \/ trimStart (l ++ [c]) = trimStart l ++ [c].
Proof.
  intros Hc. induction l as [|d l IH]; cbn [app trimStart].
  - rewrite Hc. left. auto.
  - destruct (is_js_space d); [exact IH|]. right. reflexivity.
Qed.

Lemma trimEnd_snoc (l : jsstring) (c : N) :
  is_js_space c = true -> trimEnd (l ++ [c]) = trimEnd l.
Proof.
  intros Hc. unfold trimEnd. rewrite rev_app_distr. cbn. rewrite Hc. reflexivity.
Qed.

Lemma trim_snoc (l : jsstring) (c : N) :
  is_js_space c = true -> trim (l ++ [c]) = trim l.
Proof.
  intros Hc. unfold trim.
  destruct (trimStart_snoc l c Hc) as [[-> ->] | ->]; [reflexivity|].
  apply trimEnd_snoc, Hc.
Qed.

Lemma trim_strip_cr (l : jsstring) : trim (strip_cr l) = trim l.
Proof.
  destruct (strip_cr_cases l) as [-> | H]; [reflexivity|].
  rewrite H at 2. symmetry. apply trim_snoc. reflexivity.
Qed.

Lemma parse_line_trim (a b : jsstring) : trim a = trim b -> parse_line a = parse_line b.
Proof. intros H. unfold parse_line. rewrite H. reflexivity. Qed.

Lemma omap_parse_join (sep : jsstring) (lines : list jsstring) :
  sep = [10] \/ sep = [13; 10] ->
  Forall (fun l => 10 ∉ l) lines ->
  omap parse_line (split_lines (join_lines sep lines)) = omap parse_line lines.
Proof.
  intros Hsep Hl. induction Hl as [|l lines Hl Hrest IH]; [reflexivity|].
  destruct lines as [|l2 lines].
  - cbn [join_lines]. rewrite split_lines_last by exact Hl. reflexivity.
  - change (join_lines sep (l :: l2 :: lines))
      with (l ++ sep ++ join_lines sep (l2 :: lines)).
    assert (Hsplit : exists l', split_lines (l ++ sep ++ join_lines sep (l2 :: lines))
                                = l' :: split_lines (join_lines sep (l2 :: lines))
                                /\ trim l' = trim l).
    { destruct Hsep as [-> | ->].
      - exists (strip_cr l). split; [apply split_lines_line, Hl|apply trim_strip_cr].
      - exists l. split; [|reflexivity].
        change (l ++ [13; 10] ++ ?r) with (l ++ [13] ++ 10 :: r).
        rewrite app_assoc, split_lines_line, strip_cr_snoc; [reflexivity|].
        rewrite elem_of_app, list_elem_of_singleton. intros [H|H]; [exact (Hl H)|discriminate]. }
    destruct Hsplit as (l' & -> & Ht).
    change (omap parse_line (l' :: ?r))
      with (match parse_line l' with Some y => y :: omap parse_line r | None => omap parse_line r end).
    change (omap parse_line (l :: ?r))
      with (match parse_line l with Some y => y :: omap parse_line r | None => omap parse_line r end).
    rewrite (parse_line_trim l' l Ht), IH. reflexivity.
Qed.

(** X20. The favourites do not depend on how the lines of the file end:
    the same lines joined by line feeds or by carriage return and line feed
    load the same favourites, those of the lines themselves read one by one;
    white space at either end of a line, a stray carriage return included,
    changes nothing. *)
Theorem favourites_do_not_depend_on_line_endings :
  forall (maxFavourites : option QArith_base.Q) (lines : list jsstring),
    Forall (fun l => 10 ∉ l) lines ->
    fst (loadFavourites maxFavourites (Some (join_lines [13; 10] lines)))
    = fst (loadFavourites maxFavourites (Some (join_lines [10] lines)))
    /\ fst (loadFavourites maxFavourites (Some (join_lines [10] lines)))
       = take (cap (max_favourites maxFavourites)) (omap parse_line lines)
    /\ forall a b : jsstring, trim a = trim b -> parse_line a = parse_line b.
Proof.
  intros maxFavourites lines Hl.
  rewrite !loadFavourites_take, !omap_parse_join by auto.
  split; [reflexivity|]. split; [reflexivity|]. exact parse_line_trim.
Qed.

Lemma favourites_line_endings_witness :
  Forall (fun l => 10 ∉ l) [js "# mine"; js "BBC One=1"; js " ITV1 = 003 "; js "Dave=19"]
  /\ fst (loadFavourites None
            (Some (join_lines [13; 10]
                     [js "# mine"; js "BBC One=1"; js " ITV1 = 003 "; js "Dave=19"])))
     = fst (loadFavourites None
              (Some (join_lines [10]
                       [js "# mine"; js "BBC One=1"; js " ITV1 = 003 "; js "Dave=19"]))).
Proof.
  assert (H : Forall (fun l => 10 ∉ l)
                [js "# mine"; js "BBC One=1"; js " ITV1 = 003 "; js "Dave=19"]).
  { repeat constructor; vm_compute; intros Hin;
      repeat (apply elem_of_cons in Hin as [Hin|Hin]; [discriminate Hin|]);
      inversion Hin. }
  split; [exact H|].
  exact (proj1 (favourites_do_not_depend_on_line_endings None _ H)).
Defined.

(** ** The platform *)






(** A cache is keyed by the UUIDs of its accessories. *)











Lemma map_set_key_elem {V : Type} (key k : jsstring) (v : V) (m : list (jsstring * V)) :
  k ∈ (fst <$> map_set key v m) <-> k = key \/ k ∈ (fst <$> m).
Proof.
  induction m as [|[k' x] m IH]; cbn.
  - rewrite list_elem_of_singleton, elem_of_nil. tauto.
  - destruct (bool_decide (k' = key)) eqn:E; cbn.
    + apply bool_decide_eq_true in E. subst k'. rewrite !elem_of_cons. tauto.
    + rewrite !elem_of_cons, IH. tauto.
Qed.

Lemma restore_fields (config : Value) (api : bool) (cached : list Accessory) :
  let p0 := fst (new_platform config api) in
  let p := restore config api cached in
  p_launches p = p_launches p0 /\ p_tvs p = p_tvs p0 /\ p_config p = p_config p0
  /\ p_psk p = p_psk p0
  /\ forall u, u ∈ (fst <$> accessoriesByUUID p) <-> u ∈ (acc_UUID <$> cached).
Proof.
  cbn zeta. unfold restore.
  assert (H0 : accessoriesByUUID (fst (new_platform config api)) = []).
  { unfold new_platform. repeat match goal with |- context [if ?b then _ else _] =>
      destruct b end; reflexivity. }
  revert H0. generalize (fst (new_platform config api)) as p0.
  intros p0 H0.
  enough (forall p1, p_launches (fold_left configureAccessory cached p1) = p_launches p1
            /\ p_tvs (fold_left configureAccessory cached p1) = p_tvs p1
            /\ p_config (fold_left configureAccessory cached p1) = p_config p1
            /\ p_psk (fold_left configureAccessory cached p1) = p_psk p1
            /\ forall u, u ∈ (fst <$> accessoriesByUUID (fold_left configureAccessory cached p1))
                 <-> u ∈ (acc_UUID <$> cached) \/ u ∈ (fst <$> accessoriesByUUID p1)) as H.
  { destruct (H p0) as (H1 & H2 & H3 & H4 & H5). repeat split; try assumption.
    - intros Hu. apply H5 in Hu as [Hu|Hu]; [exact Hu|]. rewrite H0 in Hu. inversion Hu.
    - intros Hu. apply H5. left. exact Hu. }
  induction cached as [|a cached IH]; intros p1.
  - cbn. repeat split; auto. intros [H|H]; [inversion H|exact H].
  - cbn [fold_left]. destruct (IH (configureAccessory p1 a)) as (H1 & H2 & H3 & H4 & H5).
    rewrite H1, H2, H3, H4. repeat split; try reflexivity.
    + intros Hu. apply H5 in Hu as [Hu|Hu].
      * left. rewrite fmap_cons. right. exact Hu.
      * cbn in Hu. apply map_set_key_elem in Hu as [->|Hu]; [left; left|right; exact Hu].
    + intros Hu. apply H5. rewrite fmap_cons, elem_of_cons in Hu.
      destruct Hu as [[->|Hu]|Hu]; [right|left; exact Hu|right]; cbn;
        apply map_set_key_elem; auto.
Qed.




(** X24. With no pre-shared key or no television in the configuration the
    plugin installs nothing: at launch it creates no file, makes no
    controller, and registers, updates and unregisters nothing; the cached
    accessories stay as they are. *)
Theorem incomplete_config_touches_nothing :
  forall (hap : Hap) (config : Value) (api : bool) (cached : list Accessory)
         (fs : FileSystem),
    truthy (prop config "psk") = false
    \/ default [] (as_array (prop config "tvs")) = [] ->
    launch hap (restore config api cached) fs = (restore config api cached, fs, []).
Proof.
  intros hap config api cached fs H.
  destruct (restore_fields config api cached) as (Hl & _).
  unfold launch. cbn zeta in Hl. rewrite Hl.
  enough (p_launches (fst (new_platform config api)) = false) as -> by reflexivity.
  unfold new_platform, or_else.
  destruct (negb api || negb (truthy config)) eqn:E0; [reflexivity|].
  apply orb_false_iff in E0 as [_ E0]. apply negb_false_iff in E0. rewrite E0.
  destruct H as [H|H].
  - rewrite H. reflexivity.
  - rewrite H. destruct (negb (truthy _)); reflexivity.
Qed.

Lemma incomplete_config_witness :
  (truthy (prop config_without_psk "psk") = false
   \/ default [] (as_array (prop config_without_psk "tvs")) = [])
  /\ launch plain_hap (restore config_without_psk true [old_accessory]) empty_disk
     = (restore config_without_psk true [old_accessory], empty_disk, []).
Proof.
  split; [left; reflexivity|].
  apply incomplete_config_touches_nothing. left. reflexivity.
Defined.


